(** * Agent adapters: credential materialisation, command assembly and the
      structured-result reducer

    A shallow embedding of [examples/agent_codex/agent.py] and
    [examples/agent_claude/agent.py].  Python functions become Rocq
    functions of the same name; code that touches the process environment,
    the filesystem, standard output or a subprocess runs in a small
    state-and-exception monad over an explicit [state] record. *)

From Stdlib Require Import Ascii Floats.PrimFloat.
From stdpp Require Import base option list strings gmap fin_maps.

Local Open Scope string_scope.
Set Warnings "-register-all".

(** ** Python [str] operations

    Strings are sequences of code points below 256.  The tables below
    are those of CPython's [str.isspace] and [str.lower] on that range. *)

Module PyStr.

Definition is_space (a : ascii) : bool :=
  let n := nat_of_ascii a in
  (((9 <=? n) && (n <=? 13)) || ((28 <=? n) && (n <=? 32))
   || (n =? 133) || (n =? 160))%nat.

Definition lower_char (a : ascii) : ascii :=
  let n := nat_of_ascii a in
  if (((65 <=? n) && (n <=? 90))
      || ((192 <=? n) && (n <=? 222) && negb (n =? 215)))%nat
  then ascii_of_nat (n + 32) else a.

Fixpoint lower (s : string) : string :=
  match s with
  | EmptyString => EmptyString
  | String a r => String (lower_char a) (lower r)
  end.

Fixpoint lstrip_by (p : ascii → bool) (s : string) : string :=
  match s with
  | EmptyString => EmptyString
  | String a r => if p a then lstrip_by p r else s
  end.

Fixpoint rstrip_by (p : ascii → bool) (s : string) : string :=
  match s with
  | EmptyString => EmptyString
  | String a r =>
      match rstrip_by p r with
      | EmptyString => if p a then EmptyString else String a EmptyString
      | r' => String a r'
      end
  end.

(** [s.strip()] *)
Definition strip (s : string) : string := rstrip_by is_space (lstrip_by is_space s).

Definition is_char (c a : ascii) : bool := bool_decide (a = c).

(** [s.rstrip(c)] for a one-character argument *)
Definition rstrip_char (c : ascii) (s : string) : string := rstrip_by (is_char c) s.

(** Truth value of a string: [bool(s)] *)
Definition nonempty (s : string) : bool :=
  match s with EmptyString => false | _ => true end.

(** [s.split(sep)] for a one-character separator: always a non-empty list. *)
Fixpoint split_on (sep : ascii) (s : string) : list string :=
  match s with
  | EmptyString => [EmptyString]
  | String a r =>
      if is_char sep a then EmptyString :: split_on sep r
      else match split_on sep r with
           | [] => [String a EmptyString]
           | w :: ws => String a w :: ws
           end
  end.

(** [sep.join(l)] *)
Fixpoint join (sep : string) (l : list string) : string :=
  match l with
  | [] => EmptyString
  | [x] => x
  | x :: r => x +:+ sep +:+ join sep r
  end.

(** [s.replace(c, by)] for a one-character pattern *)
Fixpoint replace_char (c : ascii) (by_ : string) (s : string) : string :=
  match s with
  | EmptyString => EmptyString
  | String a r =>
      if is_char c a then by_ +:+ replace_char c by_ r
      else String a (replace_char c by_ r)
  end.

Definition starts_with_char (c : ascii) (s : string) : bool :=
  match s with String a _ => is_char c a | EmptyString => false end.

Fixpoint ends_with_char (c : ascii) (s : string) : bool :=
  match s with
  | EmptyString => false
  | String a EmptyString => is_char c a
  | String _ r => ends_with_char c r
  end.

Definition dquote : string := String (ascii_of_nat 34) EmptyString.
Definition backslash : string := String (ascii_of_nat 92) EmptyString.
Definition newline : ascii := ascii_of_nat 10.

End PyStr.

(** ** [os.path] string functions (posixpath) *)

Module PosixPath.
Import PyStr.

Definition slash : ascii := "/"%char.

Definition isabs (p : string) : bool := starts_with_char slash p.

(** [os.path.join(a, b)] *)
Definition join (a b : string) : string :=
  if isabs b then b
  else if negb (nonempty a) || ends_with_char slash a then a +:+ b
  else a +:+ "/" +:+ b.

(** [p[:p.rfind('/') + 1]]: everything up to and including the last slash *)
Fixpoint head_upto_slash (p : string) : string :=
  match p with
  | EmptyString => EmptyString
  | String a r =>
      match head_upto_slash r with
      | EmptyString => if is_char slash a then String a EmptyString else EmptyString
      | h => String a h
      end
  end.

(** [os.path.dirname(p)] *)
Definition dirname (p : string) : string :=
  let head := head_upto_slash p in
  if nonempty head && nonempty (lstrip_by (is_char slash) head)
  then rstrip_char slash head else head.

End PosixPath.

(** ** Filesystem

    The tree is a finite map from physical paths (component lists from the
    root, the root itself being [[]]) to nodes.  Path strings are resolved
    the way the kernel does: component by component, following symbolic
    links in directory position always and in final position on request,
    with a relative link text read from the directory the link is in, and
    giving up with [ELOOP] after [MAXSYMLINKS] links.  A path that ends in
    a slash, [.] or [..] names a directory or nothing.

    Not modelled: permissions, hard links, special files and mount
    points.  The working directory is taken to be a directory.  The calls
    that fail do so where the real ones do, and [os.makedirs] follows the
    library's own text call by call. *)

Module FS.
Import PyStr.

Inductive node :=
  | File (content : string)
  | Dir
  | Symlink (target : string).

Inductive errno := ENOENT | ENOTDIR | ELOOP | EEXIST | EISDIR.

Inductive walk_res :=
  | WFound (key : list string) (entry : option node)
  | WErr (e : errno).

Definition MAXSYMLINKS : nat := 40.

Definition components (p : string) : list string := split_on PosixPath.slash p.

Definition start_dir (cwd : list string) (p : string) : list string :=
  if PosixPath.isabs p then [] else cwd.

Definition child (cur : list string) (c : string) : list string := (cur ++ [c])%list.

Definition is_dot (c : string) : bool := bool_decide (c = "") || bool_decide (c = ".").
Definition is_dotdot (c : string) : bool := bool_decide (c = "..").
Definition is_nil {A} (l : list A) : bool := match l with [] => true | _ => false end.

(** One stretch of resolution, up to the next symbolic link that has to be
    followed: either a final answer, or the directory and the remaining
    components to continue with. *)
Fixpoint walk1 (fs : gmap (list string) node) (follow : bool)
    (cur : list string) (todo : list string)
    : walk_res + (list string * list string) :=
  match todo with
  | [] => inl (WFound cur (Some Dir))
  | c :: rest =>
      if is_dot c then walk1 fs follow cur rest
      else if is_dotdot c then walk1 fs follow (removelast cur) rest
      else
        let k := child cur c in
        match fs !! k with
        | None => if is_nil rest then inl (WFound k None) else inl (WErr ENOENT)
        | Some Dir => walk1 fs follow k rest
        | Some (File x) =>
            if is_nil rest then inl (WFound k (Some (File x))) else inl (WErr ENOTDIR)
        | Some (Symlink t) =>
            if is_nil rest && negb follow then inl (WFound k (Some (Symlink t)))
            else if nonempty t then inr (start_dir cur t, (components t ++ rest)%list)
            else inl (WErr ENOENT)
        end
  end.

Fixpoint walk (hops : nat) (fs : gmap (list string) node) (follow : bool)
    (cur : list string) (todo : list string) : walk_res :=
  match walk1 fs follow cur todo with
  | inl r => r
  | inr (c, t) =>
      match hops with
      | O => WErr ELOOP
      | S h => walk h fs follow c t
      end
  end.

(** [stat] ([follow = true]) and [lstat] ([follow = false]) of a path string *)
Definition resolve (fs : gmap (list string) node) (cwd : list string)
    (follow : bool) (p : string) : walk_res :=
  if nonempty p then walk MAXSYMLINKS fs follow (start_dir cwd p) (components p)
  else WErr ENOENT.

(** [os.path.isfile] *)
Definition isfile (fs : gmap (list string) node) (cwd : list string) (p : string) : bool :=
  match resolve fs cwd true p with
  | WFound _ (Some (File _)) => true
  | _ => false
  end.

(** [os.path.lexists] *)
Definition lexists (fs : gmap (list string) node) (cwd : list string) (p : string) : bool :=
  match resolve fs cwd false p with
  | WFound _ (Some _) => true
  | _ => false
  end.

(** [open(p).read()] *)
Definition read (fs : gmap (list string) node) (cwd : list string) (p : string)
    : errno + string :=
  match resolve fs cwd true p with
  | WFound _ (Some (File x)) => inr x
  | WFound _ (Some _) => inl EISDIR
  | WFound _ None => inl ENOENT
  | WErr e => inl e
  end.

(** [os.remove] *)
Definition remove (fs : gmap (list string) node) (cwd : list string) (p : string)
    : errno + gmap (list string) node :=
  match resolve fs cwd false p with
  | WFound k (Some Dir) => inl EISDIR
  | WFound k (Some _) => inr (delete k fs)
  | WFound k None => inl ENOENT
  | WErr e => inl e
  end.

(** [os.symlink(target, p)] *)
Definition symlink (fs : gmap (list string) node) (cwd : list string)
    (target p : string) : errno + gmap (list string) node :=
  if nonempty target then
    match resolve fs cwd false p with
    | WFound k None => inr (<[k := Symlink target]> fs)
    | WFound k (Some _) => inl EEXIST
    | WErr e => inl e
    end
  else inl ENOENT.

(** [os.stat], [os.lstat] on the path made of [comps] read from [start] *)
Definition stat_at (fs : gmap (list string) node) (follow : bool)
    (start : list string) (comps : list string) : walk_res :=
  walk MAXSYMLINKS fs follow start comps.

(** [os.path.exists] and [os.path.isdir] on such a path *)
Definition exists_at (fs : gmap (list string) node) (start comps : list string) : bool :=
  match stat_at fs true start comps with
  | WFound _ (Some _) => true
  | _ => false
  end.

Definition isdir_at (fs : gmap (list string) node) (start comps : list string) : bool :=
  match stat_at fs true start comps with
  | WFound _ (Some Dir) => true
  | _ => false
  end.

(** [os.mkdir] on such a path: the last component must be free in a
    directory that exists; a link in last position is not followed. *)
Definition mkdir_at (fs : gmap (list string) node) (start comps : list string)
    : errno + gmap (list string) node :=
  match stat_at fs false start comps with
  | WFound k None => inr (<[k := Dir]> fs)
  | WFound _ (Some _) => inl EEXIST
  | WErr e => inl e
  end.

(** The closing lines of [os.makedirs(name, exist_ok=True)]:
    [[
      try: mkdir(name)
      except OSError:
          if not path.isdir(name): raise
    ]]
    A failure leaves the tree as it is. *)
Definition mkdir_or_isdir (fs : gmap (list string) node) (start comps : list string)
    : errno * gmap (list string) node + gmap (list string) node :=
  match mkdir_at fs start comps with
  | inr fs' => inr fs'
  | inl e => if isdir_at fs start comps then inr fs else inl (e, fs)
  end.

Definition is_eexist (e : errno) : bool :=
  match e with EEXIST => true | _ => false end.

(** [os.makedirs(name, exist_ok=True)], as the library has it:
    [[
      head, tail = path.split(name)
      if not tail: head, tail = path.split(head)
      if head and tail and not path.exists(head):
          try: makedirs(head, exist_ok=exist_ok)
          except FileExistsError: pass
          if tail == curdir: return
      try: mkdir(name, mode)
      except OSError:
          if not exist_ok or not path.isdir(name): raise
    ]]
    The name is given by its non-empty components, last one first:
    [tail] is the first of them and [head] the rest, which is an empty
    list exactly when [head] is [""] or all slashes, where the recursion is
    not entered.  A failure comes with the tree as the calls made so far
    have left it. *)
Fixpoint makedirs_rev (fs : gmap (list string) node) (start : list string)
    (rev_name : list string) : errno * gmap (list string) node + gmap (list string) node :=
  match rev_name with
  | [] => mkdir_or_isdir fs start []
  | tail :: rev_head =>
      if negb (is_nil rev_head) && negb (exists_at fs start (rev rev_head)) then
        match makedirs_rev fs start rev_head with
        | inr fs1 =>
            if bool_decide (tail = ".") then inr fs1
            else mkdir_or_isdir fs1 start (rev rev_name)
        | inl (e, fs1) =>
            if is_eexist e then
              if bool_decide (tail = ".") then inr fs1
              else mkdir_or_isdir fs1 start (rev rev_name)
            else inl (e, fs1)
        end
      else mkdir_or_isdir fs start (rev rev_name)
  end.

Definition nonempty_components (p : string) : list string :=
  filter (λ c, nonempty c = true) (components p).

(** [os.makedirs(p, exist_ok=True)]; on [""] the one [mkdir] fails. *)
Definition makedirs (fs : gmap (list string) node) (cwd : list string) (p : string)
    : errno * gmap (list string) node + gmap (list string) node :=
  if nonempty p then makedirs_rev fs (start_dir cwd p) (rev (nonempty_components p))
  else inl (ENOENT, fs).

End FS.

(** ** JSON values, as [json.loads] returns them *)

Module Json.

Inductive json :=
  | JNull
  | JBool (b : bool)
  | JInt (z : Z)
  | JFloat (f : float)
  | JStr (s : string)
  | JArr (l : list json)
  | JObj (m : list (string * json)).

(** Python truth value: [bool(v)] *)
Definition truthy (v : json) : bool :=
  match v with
  | JNull => false
  | JBool b => b
  | JInt z => negb (Z.eqb z 0)
  | JFloat f => negb (PrimFloat.eqb f PrimFloat.zero)
  | JStr s => PyStr.nonempty s
  | JArr l => negb (FS.is_nil l)
  | JObj m => negb (FS.is_nil m)
  end.

(** [d.get(k, default)] on a dict *)
Fixpoint dict_get (m : list (string * json)) (k : string) (default : json) : json :=
  match m with
  | [] => default
  | (k', v) :: r => if bool_decide (k' = k) then v else dict_get r k default
  end.

(** [k in d] *)
Definition has_key (m : list (string * json)) (k : string) : bool :=
  bool_decide (k ∈ m.*1).

(** [v == s] for a string literal [s] *)
Definition is_str (v : json) (s : string) : bool :=
  match v with
  | JStr x => bool_decide (x = s)
  | _ => false
  end.

Definition is_null (v : json) : bool :=
  match v with JNull => true | _ => false end.

Definition is_obj (v : json) : bool :=
  match v with JObj _ => true | _ => false end.

End Json.

(** ** Program state, exceptions and the monad *)

Module Py.
Export Json.

Inductive exn :=
  | OSError (e : FS.errno)
  | JSONDecodeError
  | AttributeError
  | TypeError
  | ValueError
  | RecursionError
  | UnicodeDecodeError
  | SubprocessError.

Inductive result (A : Type) :=
  | Ok (a : A)
  | Raise (e : exn).
Arguments Ok {A} a.
Arguments Raise {A} e.

(** What the adapter writes to standard output: [print] of a string, or
    [print(json.dumps(summary))]. *)
Inductive output :=
  | Line (s : string)
  | JsonDoc (summary : list (string * json)).

Inductive exec_mode := Passthrough | Captured.

(** What one step of [for raw_line in process.stdout] gives: the next
    line of text, or [UnicodeDecodeError] where the bytes the child wrote
    do not decode. *)
Inductive line_read :=
  | Text (raw_line : string)
  | Undecodable.

(** One attempt to start the external CLI ([subprocess.run] or
    [subprocess.Popen]): argument vector, how its output is consumed, and
    the environment it inherits. *)
Record spawn := {
  sp_cmd : list string;
  sp_mode : exec_mode;
  sp_env : gmap string string
}.

Record state := {
  env : gmap string string;
  fs : gmap (list string) FS.node;
  cwd : list string;
  out : list output;
  spawned : list spawn
}.

(** What lies outside the two files: the library functions whose text is
    not modelled, and the external CLI.  [shlex_split] answers [None]
    where [shlex.split] raises [ValueError].  [json_loads] is
    [json.loads] on a line of text and [json_load] is [json.load] on a
    file opened with [encoding="utf-8"] that holds the given bytes: each
    returns a value or raises, [JSONDecodeError] on malformed JSON and
    whatever else the library raises ([ValueError] on an integer literal
    beyond the digit limit, [RecursionError], and for [json_load]
    [UnicodeDecodeError]).  [run_process] answers what reading the child's
    output gives, step by step (standard error merged in), and its exit
    code, or the exception raised when it cannot be started. *)
Class Oracles := {
  expanduser : gmap string string → string → string;
  expandvars : gmap string string → string → string;
  which : gmap string string → gmap (list string) FS.node → string → option string;
  shlex_split : string → option (list string);
  json_loads : string → result json;
  json_load : string → result json;
  run_process : gmap string string → gmap (list string) FS.node → list string →
                exn + (list line_read * Z)
}.

Definition M (A : Type) : Type := state → result A * state.

Definition ret {A} (a : A) : M A := fun s => (Ok a, s).
Definition raise {A} (e : exn) : M A := fun s => (Raise e, s).
Definition bind {A B} (m : M A) (k : A → M B) : M B :=
  fun s => match m s with
           | (Ok a, s') => k a s'
           | (Raise e, s') => (Raise e, s')
           end.
Definition get : M state := fun s => (Ok s, s).
Definition put (s : state) : M unit := fun _ => (Ok tt, s).
Definition lift {A} (r : result A) : M A := fun s => (r, s).

Declare Scope py_scope.
Delimit Scope py_scope with py.
Notation "x <- m ;; k" := (bind m (fun x => k))
  (at level 100, m at next level, right associativity) : py_scope.
Notation "m ;;; k" := (bind m (fun _ => k))
  (at level 100, right associativity) : py_scope.
Local Open Scope py_scope.

Definition set_fs (f : gmap (list string) FS.node) (s : state) : state :=
  {| env := env s; fs := f; cwd := cwd s; out := out s; spawned := spawned s |}.
Definition set_env (e : gmap string string) (s : state) : state :=
  {| env := e; fs := fs s; cwd := cwd s; out := out s; spawned := spawned s |}.
Definition add_out (o : output) (s : state) : state :=
  {| env := env s; fs := fs s; cwd := cwd s; out := (out s ++ [o])%list; spawned := spawned s |}.
Definition add_spawn (p : spawn) (s : state) : state :=
  {| env := env s; fs := fs s; cwd := cwd s; out := out s; spawned := (spawned s ++ [p])%list |}.

(** [os.getenv(name, default)] *)
Definition getenv (name fallback : string) : M string :=
  fun s => (Ok (default fallback (env s !! name)), s).

(** [os.environ[name] = value] *)
Definition setenv (name value : string) : M unit :=
  fun s => (Ok tt, set_env (<[name := value]> (env s)) s).

(** [print(text)] *)
Definition print (text : string) : M unit :=
  fun s => (Ok tt, add_out (Line text) s).

(** An [os] call that either raises [OSError] or replaces the tree. *)
Definition fs_update (f : gmap (list string) FS.node → list string →
                          FS.errno + gmap (list string) FS.node) : M unit :=
  fun s => match f (fs s) (cwd s) with
           | inl e => (Raise (OSError e), s)
           | inr f' => (Ok tt, set_fs f' s)
           end.

(** An [os] call that may have changed the tree before it raises. *)
Definition fs_update_partial (f : gmap (list string) FS.node → list string →
    FS.errno * gmap (list string) FS.node + gmap (list string) FS.node) : M unit :=
  fun s => match f (fs s) (cwd s) with
           | inl (e, f') => (Raise (OSError e), set_fs f' s)
           | inr f' => (Ok tt, set_fs f' s)
           end.

Definition os_makedirs (p : string) : M unit :=
  fs_update_partial (fun f c => FS.makedirs f c p).
Definition os_remove (p : string) : M unit := fs_update (fun f c => FS.remove f c p).
Definition os_symlink (target p : string) : M unit :=
  fs_update (fun f c => FS.symlink f c target p).
Definition os_path_isfile (p : string) : M bool :=
  fun s => (Ok (FS.isfile (fs s) (cwd s) p), s).
Definition os_path_lexists (p : string) : M bool :=
  fun s => (Ok (FS.lexists (fs s) (cwd s) p), s).

(** [v.get(k, default)]: only a dict has [get]. *)
Definition py_get (v : json) (k : string) (default : json) : result json :=
  match v with
  | JObj m => Ok (dict_get m k default)
  | _ => Raise AttributeError
  end.

End Py.

(** ** Helpers that both adapters define, with the same text *)

Module Common.
Export Py.
Local Open Scope py_scope.

Section WithOracles.
Context {O : Oracles}.

Definition prompt_json : string := "/code/prompt.json".

(** [read_prompt] *)
Definition read_prompt (prompt_file : string) : M json :=
  s <- get ;;
  match FS.read (fs s) (cwd s) prompt_file with
  | inl e => raise (OSError e)
  | inr bytes =>
      match json_load bytes with
      | Raise e => raise e
      | Ok data => lift (py_get data "prompt" (JStr ""))
      end
  end.

(** [os.path.expandvars(os.path.expanduser(path))] under a given environment *)
Definition expanded (e : gmap string string) (path : string) : string :=
  expandvars e (expanduser e path).

(** [expand_path] *)
Definition expand_path (path : string) : M string :=
  s <- get ;;
  ret (expanded (env s) path).

(** [symlink_file] *)
Definition symlink_file (source_file dest_file : string) : M bool :=
  source_file <- expand_path source_file ;;
  dest_file <- expand_path dest_file ;;
  is_file <- os_path_isfile source_file ;;
  if negb is_file then ret false
  else
    os_makedirs (PosixPath.dirname dest_file) ;;;
    present <- os_path_lexists dest_file ;;
    (if present then os_remove dest_file else ret tt) ;;;
    os_symlink source_file dest_file ;;;
    ret true.

(** [resolve_source_file]; [legacy_env = None] is the Python default. *)
Definition resolve_source_file (primary_env default_path : string)
    (legacy_env : option string) : M string :=
  raw <- getenv primary_env "" ;;
  let primary := PyStr.strip raw in
  if PyStr.nonempty primary then expand_path primary
  else
    match legacy_env with
    | Some name =>
        if PyStr.nonempty name then
          raw <- getenv name "" ;;
          let legacy := PyStr.strip raw in
          if PyStr.nonempty legacy then expand_path legacy
          else expand_path default_path
        else expand_path default_path
    | None => expand_path default_path
    end.

Definition truthy_words : list string := ["1"; "true"; "yes"; "on"].

(** [env_truthy] *)
Definition env_truthy (name : string) : M bool :=
  raw <- getenv name "" ;;
  let value := PyStr.lower (PyStr.strip raw) in
  ret (bool_decide (value ∈ truthy_words)).

(** The trimmed value of an environment variable, [""] when unset. *)
Definition trimmed (s : state) (name : string) : string :=
  PyStr.strip (default "" (env s !! name)).

(** The tokens of a free-form extra-arguments variable: none when it is
    unset or blank, [None] when [shlex.split] rejects it. *)
Definition extra_tokens (s : state) (name : string) : option (list string) :=
  if PyStr.nonempty (trimmed s name) then shlex_split (trimmed s name) else Some [].

(** The state with one environment variable unset. *)
Definition without (name : string) (s : state) : state :=
  set_env (delete name (env s)) s.

(** The three ways one credential entry can end. *)
Inductive outcome := Mounted | Linked | Missing.

(** The body of the loop over [source_map.items()] in [sync_codex_auth]
    and [sync_claude_auth], for one (destination, source) pair. *)
Definition materialize (src dst : string) : M outcome :=
  mounted <- os_path_isfile dst ;;
  if mounted then ret Mounted
  else
    done <- symlink_file src dst ;;
    ret (if done then Linked else Missing).

(** The loop itself: [linked] and [missing] are the two name lists. *)
Fixpoint sync_entries (home : string) (entries : list (string * string))
    (linked missing : list string) : M (list string * list string) :=
  match entries with
  | [] => ret (linked, missing)
  | (name, src) :: rest =>
      r <- materialize src (PosixPath.join home name) ;;
      match r with
      | Mounted => sync_entries home rest (linked ++ [name +:+ " (mounted directly)"])%list missing
      | Linked => sync_entries home rest (linked ++ [name])%list missing
      | Missing => sync_entries home rest linked (missing ++ [name])%list
      end
  end.

(** The two closing [print]s of the sync functions. *)
Definition report (ready skipped : string) (lists : list string * list string) : M unit :=
  (if FS.is_nil lists.1 then ret tt
   else print (ready +:+ PyStr.join ", " lists.1)) ;;;
  (if FS.is_nil lists.2 then ret tt
   else print (skipped +:+ PyStr.join ", " lists.2)).

(** The log line printed before the process is started. *)
Definition running_line (cmd : list string) : output :=
  Line ("[INFO] Running: " +:+ PyStr.join " " cmd +:+ " <prompt>").

(** [subprocess.run(cmd, cwd="/code", check=False).returncode] *)
Definition subprocess_run (cmd : list string) : M Z :=
  s <- get ;;
  put (add_spawn {| sp_cmd := cmd; sp_mode := Passthrough; sp_env := env s |} s) ;;;
  match run_process (env s) (fs s) cmd with
  | inl e => raise e
  | inr (_, rc) => ret rc
  end.

(** The trailing [cmd.append(instruction)]: the prompt has to be a [str]
    for the process to start. *)
Definition with_prompt (cmd : list string) (instruction : json) : M (list string) :=
  match instruction with
  | JStr text => ret (cmd ++ [text])%list
  | _ => raise TypeError
  end.

End WithOracles.
End Common.

(** ** The codex adapter: [examples/agent_codex/agent.py] *)

Module Codex.
Export Common.
Local Open Scope py_scope.

(** [d[k] = v] on an insertion-ordered dict *)
Fixpoint dict_set (m : list (string * json)) (k : string) (v : json)
    : list (string * json) :=
  match m with
  | [] => [(k, v)]
  | (k', v') :: r =>
      if bool_decide (k' = k) then (k, v) :: r else (k', v') :: dict_set r k v
  end.

Definition rbind {A B} (r : result A) (k : A → result B) : result B :=
  match r with
  | Ok a => k a
  | Raise e => Raise e
  end.
Notation "x <-? r ;; k" := (rbind r (fun x => k))
  (at level 100, r at next level, right associativity) : py_scope.

(** [next((event for event in events if event.get("type") == "thread.started"), None)] *)
Fixpoint first_thread_started (events : list json) : result json :=
  match events with
  | [] => Ok JNull
  | event :: rest =>
      t <-? py_get event "type" JNull ;;
      if is_str t "thread.started" then Ok event else first_thread_started rest
  end.

(** [[event for event in events if event.get("type") == "turn.completed"]] *)
Fixpoint turn_completed_events (events : list json) : result (list json) :=
  match events with
  | [] => Ok []
  | event :: rest =>
      t <-? py_get event "type" JNull ;;
      more <-? turn_completed_events rest ;;
      Ok (if is_str t "turn.completed" then event :: more else more)
  end.

(** The loop that fills [final_messages]. *)
Fixpoint collect_final_messages (events : list json) (final_messages : list json)
    : result (list json) :=
  match events with
  | [] => Ok final_messages
  | event :: rest =>
      t <-? py_get event "type" JNull ;;
      if negb (is_str t "item.completed") then collect_final_messages rest final_messages
      else
        item <-? py_get event "item" (JObj []) ;;
        it <-? py_get item "type" JNull ;;
        if is_str it "agent_message" then
          text <-? py_get item "text" (JStr "") ;;
          if truthy text then collect_final_messages rest (final_messages ++ [text])%list
          else collect_final_messages rest final_messages
        else collect_final_messages rest final_messages
  end.

(** Lines 117 to 146 of [run_codex_json_result]: the summary dict built
    from the parsed events, the count of unparsed lines and the exit code. *)
Definition summarize (events : list json) (non_json_lines : nat) (returncode : Z)
    : result (list (string * json)) :=
  let summary :=
    [ ("type", JStr "result");
      ("subtype", JStr "codex_exec");
      ("is_error", JBool (negb (Z.eqb returncode 0)));
      ("returncode", JInt returncode);
      ("event_count", JInt (Z.of_nat (length events)));
      ("non_json_line_count", JInt (Z.of_nat non_json_lines)) ] in
  thread_started <-? first_thread_started events ;;
  summary <-?
    (if truthy thread_started then
       tid <-? py_get thread_started "thread_id" JNull ;;
       Ok (if truthy tid then dict_set summary "thread_id" tid else summary)
     else Ok summary) ;;
  turn_completed <-? turn_completed_events events ;;
  summary <-?
    (match last turn_completed with
     | Some ev =>
         usage <-? py_get ev "usage" JNull ;;
         Ok (if is_null usage then summary else dict_set summary "usage" usage)
     | None => Ok summary
     end) ;;
  final_messages <-? collect_final_messages events [] ;;
  Ok (match last final_messages with
      | Some text => dict_set summary "final_message" text
      | None => summary
      end).

(** The loop over [process.stdout]: only [json.JSONDecodeError] is
    caught; anything else [json.loads] raises, and a failure to decode the
    output, ends the loop. *)
Fixpoint collect `{Oracles} (lines : list line_read) (events : list json)
    (non_json_lines : nat) : result (list json * nat) :=
  match lines with
  | [] => Ok (events, non_json_lines)
  | Undecodable :: _ => Raise UnicodeDecodeError
  | Text raw_line :: rest =>
      let line := PyStr.rstrip_char PyStr.newline raw_line in
      if PyStr.nonempty line then
        match json_loads line with
        | Ok v => collect rest (events ++ [v])%list non_json_lines
        | Raise JSONDecodeError => collect rest events (S non_json_lines)
        | Raise e => Raise e
        end
      else collect rest events non_json_lines
  end.

Section WithOracles.
Context {O : Oracles}.

(** [sync_codex_auth] *)
Definition sync_codex_auth : M unit :=
  home <- getenv "HOME" "/var/tmp/codex-home" ;;
  home_dir <- expand_path home ;;
  let dest_dir := PosixPath.join home_dir ".codex" in
  os_makedirs dest_dir ;;;
  legacy <- getenv "CODEX_AUTH_SOURCE" "/host_auth/.codex" ;;
  legacy_source_dir <- expand_path legacy ;;
  auth <- resolve_source_file "CODEX_AUTH_FILE"
            (PosixPath.join legacy_source_dir "auth.json") (Some "CODEX_AUTH_SOURCE_FILE") ;;
  config <- resolve_source_file "CODEX_CONFIG_FILE"
            (PosixPath.join legacy_source_dir "config.toml") None ;;
  version <- resolve_source_file "CODEX_VERSION_FILE"
            (PosixPath.join legacy_source_dir "version.json") None ;;
  let source_map :=
    [("auth.json", auth); ("config.toml", config); ("version.json", version)] in
  lists <- sync_entries dest_dir source_map [] [] ;;
  report "[INFO] Codex auth/config ready: "
         "[INFO] Codex files not found (skipped): " lists.

(** [add_codex_tuning_args]: the list is extended in place in Python and
    returned here. *)
Definition add_codex_tuning_args (cmd : list string) : M (list string) :=
  raw <- getenv "CODEX_MODEL" "" ;;
  let model := PyStr.strip raw in
  let cmd := if PyStr.nonempty model then (cmd ++ ["--model"; model])%list else cmd in
  raw <- getenv "CODEX_REASONING_EFFORT" "" ;;
  let reasoning_effort := PyStr.strip raw in
  if PyStr.nonempty reasoning_effort then
    let escaped :=
      PyStr.replace_char (ascii_of_nat 34) (PyStr.backslash +:+ PyStr.dquote)
        (PyStr.replace_char (ascii_of_nat 92) (PyStr.backslash +:+ PyStr.backslash)
           reasoning_effort) in
    ret (cmd ++ ["-c"; "model_reasoning_effort=" +:+ PyStr.dquote +:+ escaped +:+ PyStr.dquote])%list
  else ret cmd.

(** What [add_codex_tuning_args] appends under a given environment. *)
Definition tuning_flags (e : gmap string string) : list string :=
  let model := PyStr.strip (default "" (e !! "CODEX_MODEL")) in
  let reasoning_effort := PyStr.strip (default "" (e !! "CODEX_REASONING_EFFORT")) in
  ((if PyStr.nonempty model then ["--model"; model] else [])
   ++ (if PyStr.nonempty reasoning_effort then
         ["-c"; "model_reasoning_effort=" +:+ PyStr.dquote
                +:+ PyStr.replace_char (ascii_of_nat 34) (PyStr.backslash +:+ PyStr.dquote)
                      (PyStr.replace_char (ascii_of_nat 92)
                         (PyStr.backslash +:+ PyStr.backslash) reasoning_effort)
                +:+ PyStr.dquote]
       else []))%list.

(** [run_codex_json_result] *)
Definition run_codex_json_result (cmd : list string) : M Z :=
  s <- get ;;
  put (add_spawn {| sp_cmd := cmd; sp_mode := Captured; sp_env := env s |} s) ;;;
  match run_process (env s) (fs s) cmd with
  | inl e => raise e
  | inr (lines, returncode) =>
      collected <- lift (collect lines [] 0) ;;
      let '(events, non_json_lines) := collected in
      summary <- lift (summarize events non_json_lines returncode) ;;
      (fun s => (Ok tt, add_out (JsonDoc summary) s)) ;;;
      ret returncode
  end.

Definition base_cmd : list string :=
  ["codex"; "exec"; "--skip-git-repo-check";
   "--dangerously-bypass-approvals-and-sandbox"; "--ephemeral"].

Definition json_modes : list string := ["result"; "events"; "off"].

(** Lines 185 to 191 of [main]: the effective JSON mode. *)
Definition effective_json_mode : M string :=
  raw <- getenv "CODEX_JSON_MODE" "result" ;;
  let json_mode := PyStr.lower (PyStr.strip raw) in
  let json_mode := if bool_decide (json_mode ∈ json_modes) then json_mode else "result" in
  trajectory <- env_truthy "CODEX_TRAJECTORY" ;;
  ret (if trajectory then "events" else json_mode).

(** Lines 173 to 183 of [main]: fixed flags, tuning flags, extra
    arguments. *)
Definition args_before_json : M (list string) :=
  cmd <- add_codex_tuning_args base_cmd ;;
  raw <- getenv "CODEX_EXEC_ARGS" "" ;;
  let extra_args := PyStr.strip raw in
  if PyStr.nonempty extra_args then
    match shlex_split extra_args with
    | Some toks => ret (cmd ++ toks)%list
    | None => raise ValueError
    end
  else ret cmd.

(** Lines 173 to 194 of [main]: the command vector before the prompt is
    appended, together with the effective JSON mode. *)
Definition build_cmd : M (list string * string) :=
  cmd <- args_before_json ;;
  json_mode <- effective_json_mode ;;
  let cmd :=
    if negb (bool_decide (json_mode = "off")) && negb (bool_decide ("--json" ∈ cmd))
    then (cmd ++ ["--json"])%list else cmd in
  ret (cmd, json_mode).

(** Lines 154 to 160 of [main]: pin the home, materialise credentials. *)
Definition prepare : M unit :=
  setenv "HOME" "/var/tmp/codex-home" ;;;
  setenv "XDG_CONFIG_HOME" "/var/tmp/codex-home/.config" ;;;
  os_makedirs "/var/tmp/codex-home" ;;;
  os_makedirs "/var/tmp/codex-home/.config" ;;;
  sync_codex_auth.

(** Lines 162 to 203 of [main]: checks, command, execution. *)
Definition invoke : M Z :=
  s <- get ;;
  match which (env s) (fs s) "codex" with
  | None => print "[ERROR] codex CLI not found in PATH" ;;; ret 1%Z
  | Some _ =>
      prompt <- read_prompt prompt_json ;;
      if negb (truthy prompt) then
        print "[ERROR] Empty prompt in /code/prompt.json" ;;; ret 1%Z
      else
        let instruction := prompt in
        built <- build_cmd ;;
        let '(cmd, json_mode) := built in
        print ("[INFO] Running: " +:+ PyStr.join " " cmd +:+ " <prompt>") ;;;
        cmd <- with_prompt cmd instruction ;;
        if bool_decide (json_mode = "result") then run_codex_json_result cmd
        else subprocess_run cmd
  end.

(** [main] *)
Definition main : M Z := prepare ;;; invoke.

End WithOracles.
End Codex.

(** ** The claude adapter: [examples/agent_claude/agent.py] *)

Module Claude.
Export Common.
Local Open Scope py_scope.

Section WithOracles.
Context {O : Oracles}.

(** [sync_claude_auth] *)
Definition sync_claude_auth : M unit :=
  home <- getenv "HOME" "/var/tmp/claude-home" ;;
  home_dir <- expand_path home ;;
  os_makedirs (PosixPath.join home_dir ".claude") ;;;
  legacy <- getenv "CLAUDE_AUTH_SOURCE_DIR" "/host_auth/.claude" ;;
  legacy_dir <- expand_path legacy ;;
  auth <- resolve_source_file "CLAUDE_AUTH_FILE" "/host_auth/.claude.json"
            (Some "CLAUDE_AUTH_SOURCE_FILE") ;;
  settings <- resolve_source_file "CLAUDE_SETTINGS_FILE"
            (PosixPath.join legacy_dir "settings.json") None ;;
  let source_map := [(".claude.json", auth); (".claude/settings.json", settings)] in
  lists <- sync_entries home_dir source_map [] [] ;;
  report "[INFO] Claude auth/config ready: "
         "[INFO] Claude files not found (skipped): " lists.

Definition effort_levels : list string := ["low"; "medium"; "high"].

(** Lines 90 to 96 of [main]: validate the effort level, export it, log it. *)
Definition set_effort_level : M unit :=
  raw <- getenv "CLAUDE_CODE_EFFORT_LEVEL" "" ;;
  let effort_level := PyStr.lower (PyStr.strip raw) in
  effort_level <-
    (if negb (bool_decide (effort_level ∈ effort_levels)) then
       (if PyStr.nonempty effort_level then
          print ("[WARNING] Invalid CLAUDE_CODE_EFFORT_LEVEL '" +:+ effort_level
                 +:+ "', defaulting to high")
        else ret tt) ;;;
       ret "high"
     else ret effort_level) ;;
  setenv "CLAUDE_CODE_EFFORT_LEVEL" effort_level ;;;
  print ("[INFO] Claude effort level: " +:+ effort_level).

(** Lines 109 to 131 of [main]: the command vector before the prompt is
    appended. *)
Definition build_cmd : M (list string) :=
  model <- getenv "CLAUDE_MODEL" "opus" ;;
  let cmd := ["claude"; "-p"; "--dangerously-skip-permissions"; "--model"; model] in
  raw <- getenv "CLAUDE_MAX_TURNS" "" ;;
  let max_turns := PyStr.strip raw in
  let cmd := if PyStr.nonempty max_turns then (cmd ++ ["--max-turns"; max_turns])%list else cmd in
  trajectory <- env_truthy "CLAUDE_TRAJECTORY" ;;
  let cmd :=
    if trajectory then
      let cmd := if negb (bool_decide ("--output-format" ∈ cmd))
                 then (cmd ++ ["--output-format"; "stream-json"])%list else cmd in
      let cmd := if negb (bool_decide ("--include-partial-messages" ∈ cmd))
                 then (cmd ++ ["--include-partial-messages"])%list else cmd in
      if negb (bool_decide ("--verbose" ∈ cmd)) then (cmd ++ ["--verbose"])%list else cmd
    else cmd in
  raw <- getenv "CLAUDE_EXEC_ARGS" "" ;;
  let extra_args := PyStr.strip raw in
  if PyStr.nonempty extra_args then
    match shlex_split extra_args with
    | Some toks => ret (cmd ++ toks)%list
    | None => raise ValueError
    end
  else ret cmd.

(** Lines 82 to 88 of [main]: pin the home, materialise credentials. *)
Definition prepare_home : M unit :=
  setenv "HOME" "/var/tmp/claude-home" ;;;
  setenv "XDG_CONFIG_HOME" "/var/tmp/claude-home/.config" ;;;
  os_makedirs "/var/tmp/claude-home" ;;;
  os_makedirs "/var/tmp/claude-home/.config" ;;;
  sync_claude_auth.

(** Lines 82 to 96 of [main]: everything before the binary is looked up. *)
Definition prepare : M unit := prepare_home ;;; set_effort_level.

(** Lines 98 to 136 of [main]: checks, command, execution. *)
Definition invoke : M Z :=
  s <- get ;;
  match which (env s) (fs s) "claude" with
  | None => print "[ERROR] claude CLI not found in PATH" ;;; ret 1%Z
  | Some _ =>
      prompt <- read_prompt prompt_json ;;
      if negb (truthy prompt) then
        print "[ERROR] Empty prompt in /code/prompt.json" ;;; ret 1%Z
      else
        let instruction := prompt in
        cmd <- build_cmd ;;
        print ("[INFO] Running: " +:+ PyStr.join " " cmd +:+ " <prompt>") ;;;
        cmd <- with_prompt cmd instruction ;;
        subprocess_run cmd
  end.

(** [main] *)
Definition main : M Z := prepare ;;; invoke.

End WithOracles.
End Claude.

(** ** Vocabulary for the reducer's properties

    The reduction rules in the words of the specification: first and last
    events of a kind, picked with the usual list functions. *)

Module ReducerSpec.
Export Codex.

(** [k in d] and [d[k]] together, on a summary. *)
Fixpoint dict_lookup (m : list (string * json)) (k : string) : option json :=
  match m with
  | [] => None
  | (k', v) :: r => if bool_decide (k' = k) then Some v else dict_lookup r k
  end.

(** A field of an event, [null] when missing. *)
Definition field (e : json) (k : string) : json :=
  match e with
  | JObj m => dict_get m k JNull
  | _ => JNull
  end.

(** The event's discriminator equals [t]. *)
Definition is_event_of (t : string) (e : json) : bool := is_str (field e "type") t.

(** The nested item of an event; an empty object when there is none. *)
Definition item_of (e : json) : json :=
  match e with
  | JObj m => dict_get m "item" (JObj [])
  | _ => JNull
  end.

(** Events as the adapter expects them: JSON objects, whose [item], when
    the event is an "item completed" one, is an object too. *)
Definition well_formed_event (e : json) : bool :=
  is_obj e && (negb (is_event_of "item.completed" e) || is_obj (item_of e)).

(** The text of an "item completed" event whose item is an agent message
    with non-empty text. *)
Definition agent_text (e : json) : option json :=
  if is_event_of "item.completed" e && is_str (field (item_of e) "type") "agent_message"
  then match item_of e with
       | JObj im =>
           let text := dict_get im "text" (JStr "") in
           if truthy text then Some text else None
       | _ => None
       end
  else None.

Definition thread_id_of (events : list json) : option json :=
  e ← head (filter (λ e, is_event_of "thread.started" e = true) events);
  if truthy (field e "thread_id") then Some (field e "thread_id") else None.

Definition usage_of (events : list json) : option json :=
  e ← last (filter (λ e, is_event_of "turn.completed" e = true) events);
  if is_null (field e "usage") then None else Some (field e "usage").

Definition final_message_of (events : list json) : option json :=
  last (omap agent_text events).

Definition mandatory_fields : list string := ["type"; "subtype"; "is_error"; "returncode"].
Definition count_fields : list string := ["event_count"; "non_json_line_count"].
Definition optional_fields : list string := ["thread_id"; "usage"; "final_message"].

(** The six entries every summary starts with. *)
Definition base_summary (n_events non_json_lines : nat) (returncode : Z)
    : list (string * json) :=
  [ ("type", JStr "result");
    ("subtype", JStr "codex_exec");
    ("is_error", JBool (negb (Z.eqb returncode 0)));
    ("returncode", JInt returncode);
    ("event_count", JInt (Z.of_nat n_events));
    ("non_json_line_count", JInt (Z.of_nat non_json_lines)) ].

(** An entry that is there only when its value is. *)
Definition entry (k : string) (o : option json) : list (string * json) :=
  match o with
  | Some v => [(k, v)]
  | None => []
  end.

End ReducerSpec.

(** ** Concrete worlds for the closed examples

    The paths used in the examples contain neither [~] nor [$]; on such
    paths [os.path.expanduser] and [os.path.expandvars] return their
    argument.  The remaining oracles are given by tables; the prompt
    files of the examples are plain ASCII, read as the text they hold. *)

Module Sample.
Export Py.

(** A parse table as [json.loads]: what is not in the table is malformed. *)
Definition parsed (loads : string → option json) (text : string) : result json :=
  match loads text with
  | Some v => Ok v
  | None => Raise JSONDecodeError
  end.

(** A child whose output decodes: every line it writes is read as text. *)
Definition decoded (child : list string → exn + (list string * Z))
    (cmd : list string) : exn + (list line_read * Z) :=
  match child cmd with
  | inl e => inl e
  | inr (lines, rc) => inr (Text <$> lines, rc)
  end.

Definition oracles (installed : list string)
    (tokens : string → option (list string))
    (loads : string → option json)
    (child : list string → exn + (list string * Z)) : Oracles :=
  {| expanduser := fun _ p => p;
     expandvars := fun _ p => p;
     which := fun _ _ name =>
       if bool_decide (name ∈ installed) then Some ("/usr/bin/" +:+ name) else None;
     shlex_split := tokens;
     json_loads := parsed loads;
     json_load := parsed loads;
     run_process := fun _ _ cmd => decoded child cmd |}.

Definition no_tokens : string → option (list string) := fun _ => None.
Definition no_json : string → option json := fun _ => None.
Definition no_child : list string → exn + (list string * Z) :=
  fun _ => inl SubprocessError.

(** Oracles for examples that only touch paths and the environment. *)
Definition plain : Oracles := oracles [] no_tokens no_json no_child.

Definition world (e : gmap string string) (f : gmap (list string) FS.node)
    (dir : list string) : state :=
  {| env := e; fs := f; cwd := dir; out := []; spawned := [] |}.

Definition auth_env : gmap string string :=
  <["CODEX_AUTH_FILE" := "  /run/secrets/auth.json "]>
  (<["CODEX_AUTH_SOURCE_FILE" := "/legacy/auth.json"]> ∅).

(** A sandboxed home whose [auth.json] is a dangling link left by an
    earlier run, and a host directory holding the real file. *)
Definition home_with_stale_link : gmap (list string) FS.node :=
  <[["home"] := FS.Dir]>
  (<[["home"; ".codex"] := FS.Dir]>
  (<[["home"; ".codex"; "auth.json"] := FS.Symlink "/gone/auth.json"]>
  (<[["host"] := FS.Dir]>
  (<[["host"; "auth.json"] := FS.File "secret"]> ∅)))).

(** The same home with a directory where [auth.json] should go. *)
Definition home_with_directory : gmap (list string) FS.node :=
  <[["home"] := FS.Dir]>
  (<[["home"; ".codex"] := FS.Dir]>
  (<[["home"; ".codex"; "auth.json"] := FS.Dir]>
  (<[["host"] := FS.Dir]>
  (<[["host"; "auth.json"] := FS.File "secret"]> ∅)))).

(** A fresh home, and the credential file in the working directory
    [/code], to be named by a relative path. *)
Definition home_and_code : gmap (list string) FS.node :=
  <[["home"] := FS.Dir]>
  (<[["home"; ".codex"] := FS.Dir]>
  (<[["code"] := FS.Dir]>
  (<[["code"; "auth.json"] := FS.File "secret"]> ∅))).

Definition auth_dst : string := "/home/.codex/auth.json".
Definition auth_key : list string := ["home"; ".codex"; "auth.json"].

(** [home_with_stale_link] after the stale link has been replaced. *)
Definition home_linked : gmap (list string) FS.node :=
  <[auth_key := FS.Symlink "/host/auth.json"]> home_with_stale_link.

(** [home_and_code] after linking to the relative name [auth.json]. *)
Definition home_linked_relative : gmap (list string) FS.node :=
  <[auth_key := FS.Symlink "auth.json"]> home_and_code.

Definition usage1 : json := JObj [("input_tokens", JInt 10%Z); ("output_tokens", JInt 3%Z)].
Definition usage2 : json := JObj [("input_tokens", JInt 25%Z); ("output_tokens", JInt 7%Z)].

(** One thread start, two completed turns with different usage, one agent
    message. *)
Definition session_events : list json :=
  [ JObj [("type", JStr "thread.started"); ("thread_id", JStr "t1")];
    JObj [("type", JStr "turn.completed"); ("usage", usage1)];
    JObj [("type", JStr "item.completed");
          ("item", JObj [("type", JStr "agent_message"); ("text", JStr "done")])];
    JObj [("type", JStr "turn.completed"); ("usage", usage2)] ].

Definition quoted (s : string) : string := PyStr.dquote +:+ s +:+ PyStr.dquote.

(** The text of a prompt file holding the one field [prompt], ["hello"]. *)
Definition prompt_hello : string :=
  "{" +:+ quoted "prompt" +:+ ": " +:+ quoted "hello" +:+ "}".

(** [json.loads] on the texts the examples use. *)
Definition loads (text : string) : option json :=
  if bool_decide (text = prompt_hello) then Some (JObj [("prompt", JStr "hello")])
  else if bool_decide (text = "{}") then Some (JObj [])
  else if bool_decide (text = "42") then Some (JInt 42%Z)
  else None.

(** [shlex.split] on the texts the examples use; an unbalanced quote is
    rejected. *)
Definition tokens (text : string) : option (list string) :=
  if bool_decide (text = "--foo") then Some ["--foo"]
  else if bool_decide (text = "--color never") then Some ["--color"; "never"]
  else None.

(** A child process that prints [lines] and exits with [rc]. *)
Definition exits (rc : Z) (lines : list string) : list string → exn + (list string * Z) :=
  fun _ => inr (lines, rc).

Definition codex_host : Oracles := oracles ["codex"] tokens loads (exits 3 []).
Definition claude_host : Oracles := oracles ["claude"] tokens loads (exits 5 []).

(** A tree with nothing but the prompt file. *)
Definition code_tree : gmap (list string) FS.node :=
  <[["code"] := FS.Dir]> (<[["code"; "prompt.json"] := FS.File prompt_hello]> ∅).

(** The same host, whose codex prints a bare number before exiting. *)
Definition codex_host_chatty : Oracles := oracles ["codex"] tokens loads (exits 0 ["42"]).

(** The state an adapter starts in on that host, under environment [e]. *)
Definition host_state (e : gmap string string) : state := world e code_tree [].

Definition env_bogus_json_mode : gmap string string := <["CODEX_JSON_MODE" := "bogus"]> ∅.
Definition env_extra_foo : gmap string string := <["CODEX_EXEC_ARGS" := "--foo"]> ∅.
Definition env_extra_color : gmap string string :=
  <["CLAUDE_EXEC_ARGS" := " --color never "]> (<["CLAUDE_TRAJECTORY" := "on"]> ∅).
Definition env_trajectory_model : gmap string string :=
  <["CODEX_TRAJECTORY" := "1"]> (<["CODEX_MODEL" := "--json"]> ∅).
Definition env_trajectory_off : gmap string string :=
  <["CODEX_TRAJECTORY" := " Yes "]> (<["CODEX_JSON_MODE" := "off"]> ∅).
Definition env_unbalanced : gmap string string :=
  <["CODEX_EXEC_ARGS" := "--flag 'oops"]> ∅.
Definition env_effort : gmap string string :=
  <["CLAUDE_CODE_EFFORT_LEVEL" := "Extreme"]> ∅.

End Sample.

(** ** Vocabulary for further properties *)

Module MoreSpec.
Export ReducerSpec.

(** A line of child output that is not empty once its trailing newlines
    are gone. *)
Definition nonblank (raw_line : string) : bool :=
  PyStr.nonempty (PyStr.rstrip_char PyStr.newline raw_line).

(** The line a step of the reading loop hands to [json.loads]: the text
    read, without its trailing newlines, unless that is empty. *)
Definition payload (r : line_read) : option string :=
  match r with
  | Text raw_line =>
      if nonblank raw_line then Some (PyStr.rstrip_char PyStr.newline raw_line) else None
  | Undecodable => None
  end.

(** What a step of the reading loop raises, if anything: the decoding
    failure, or what [json.loads] raises on the line other than
    [JSONDecodeError]. *)
Definition fault `{Oracles} (r : line_read) : option exn :=
  match r with
  | Undecodable => Some UnicodeDecodeError
  | Text _ =>
      match payload r with
      | Some line =>
          match json_loads line with
          | Ok _ | Raise JSONDecodeError => None
          | Raise e => Some e
          end
      | None => None
      end
  end.

(** The event a step adds, and whether it adds to the count of malformed
    lines. *)
Definition parsed_event `{Oracles} (r : line_read) : option json :=
  match payload r with
  | Some line => match json_loads line with Ok v => Some v | Raise _ => None end
  | None => None
  end.

Definition rejected `{Oracles} (r : line_read) : bool :=
  match payload r with
  | Some line => match json_loads line with Raise JSONDecodeError => true | _ => false end
  | None => false
  end.

(** The reasoning-effort value as [add_codex_tuning_args] escapes it. *)
Definition escape (value : string) : string :=
  PyStr.replace_char (ascii_of_nat 34) (PyStr.backslash +:+ PyStr.dquote)
    (PyStr.replace_char (ascii_of_nat 92) (PyStr.backslash +:+ PyStr.backslash) value).

(** Reading a double-quoted body back: a backslash makes the next
    character literal. *)
Fixpoint unescape (body : string) : string :=
  match body with
  | EmptyString => EmptyString
  | String a r =>
      if PyStr.is_char (ascii_of_nat 92) a then
        match r with
        | String b r' => String b (unescape r')
        | EmptyString => String a EmptyString
        end
      else String a (unescape r)
  end.

(** Every character of [s] is white space. *)
Fixpoint all_space (s : string) : bool :=
  match s with
  | EmptyString => true
  | String a r => PyStr.is_space a && all_space r
  end.

(** An environment with the adapter's writable home pinned. *)
Definition pinned (home : string) (e : gmap string string) : gmap string string :=
  <["XDG_CONFIG_HOME" := home +:+ "/.config"]> (<["HOME" := home]> e).

End MoreSpec.

(** ** More concrete worlds *)

Module MoreSample.
Import Sample.

(** A line as the child's output stream delivers it, newline included. *)
Definition line (text : string) : string := text +:+ String PyStr.newline "".

(** Two events, one line that is not JSON and a blank line; the last line
    comes without its newline. *)
Definition chatter : list string := [line "{}"; line "oops"; line ""; "{}"].

(** A host whose codex prints [chatter] and exits with 2. *)
Definition codex_host_mixed : Oracles := oracles ["codex"] tokens loads (exits 2 chatter).

(** A tree whose prompt file holds a bare number. *)
Definition number_prompt_tree : gmap (list string) FS.node :=
  <[["code"] := FS.Dir]> (<[["code"; "prompt.json"] := FS.File "42"]> ∅).

(** A host given by its own [json.loads], [json.load] and child. *)
Definition host (installed : list string)
    (loads file_loads : string → result json)
    (child : list string → exn + (list line_read * Z)) : Oracles :=
  {| expanduser := fun _ p => p;
     expandvars := fun _ p => p;
     which := fun _ _ name =>
       if bool_decide (name ∈ installed) then Some ("/usr/bin/" +:+ name) else None;
     shlex_split := tokens;
     json_loads := loads;
     json_load := file_loads;
     run_process := fun _ _ cmd => child cmd |}.

Fixpoint nines (n : nat) : string :=
  match n with
  | O => EmptyString
  | S n' => String "9"%char (nines n')
  end.

(** [json.loads] with the interpreter's limit on integer digits: a
    literal of 4301 digits raises [ValueError]. *)
Definition loads_limited (text : string) : result json :=
  if bool_decide (text = nines 4301) then Raise ValueError else parsed loads text.

(** A host whose codex prints an event and then an over-long number. *)
Definition codex_host_overflow : Oracles :=
  host ["codex"] loads_limited loads_limited
       (fun _ => inr ([Text (line "{}"); Text (line (nines 4301))], 0%Z)).

(** A host whose codex prints an event and then bytes that do not decode. *)
Definition codex_host_garbled : Oracles :=
  host ["codex"] (parsed loads) (parsed loads)
       (fun _ => inr ([Text (line "{}"); Undecodable], 0%Z)).

(** A prompt file that is not UTF-8, and a host that reads it so. *)
Definition latin1_bytes : string := String (ascii_of_nat 233) EmptyString.
Definition latin1_prompt_tree : gmap (list string) FS.node :=
  <[["code"] := FS.Dir]> (<[["code"; "prompt.json"] := FS.File latin1_bytes]> ∅).
Definition load_utf8 (bytes : string) : result json :=
  if bool_decide (bytes = latin1_bytes) then Raise UnicodeDecodeError else parsed loads bytes.
Definition codex_host_utf8 : Oracles :=
  host ["codex"] (parsed loads) load_utf8 (decoded (exits 0 [])).

(** A directory [/a] holding a regular file [f], and a dangling link [/l]. *)
Definition small_tree : gmap (list string) FS.node :=
  <[["a"] := FS.Dir]> (<[["a"; "f"] := FS.File "x"]> (<[["l"] := FS.Symlink "/gone/x"]> ∅)).

Definition env_effort_low : gmap string string :=
  <["CLAUDE_CODE_EFFORT_LEVEL" := " Low "]> ∅.

(** A reasoning effort with a double quote and a backslash in it. *)
Definition odd_effort : string := "hi" +:+ PyStr.dquote +:+ "g" +:+ PyStr.backslash +:+ "h".
Definition env_odd_effort : gmap string string :=
  <["CODEX_REASONING_EFFORT" := odd_effort]> ∅.

(** Two credential entries; on [home_with_stale_link] only the first has a
    source. *)
Definition two_entries : list (string * string) :=
  [("auth.json", "/host/auth.json"); ("config.toml", "/host/config.toml")].

End MoreSample.

(** * Properties *)

(** ** The model on small inputs *)

Module Sanity.
Import Common.

(** The error side of a result, if any. *)
Definition sum_to_error {E A} (r : E + A) : option E :=
  match r with inl e => Some e | inr _ => None end.

Example strip_lower : PyStr.lower (PyStr.strip "  YeS   ") = "yes".
Proof. reflexivity. Qed.

Example split_slashes : PyStr.split_on "/" "/a//b/" = [""; "a"; ""; "b"; ""].
Proof. reflexivity. Qed.

Example dirname_cases :
  PosixPath.dirname "/a/b/" = "/a/b" ∧ PosixPath.dirname "f" = ""
  ∧ PosixPath.dirname "//a" = "//"
  ∧ PosixPath.dirname "/var/tmp/codex-home/.codex/auth.json" = "/var/tmp/codex-home/.codex".
Proof. split_and!; reflexivity. Qed.

Example join_cases :
  PosixPath.join "/a/" "b" = "/a/b" ∧ PosixPath.join "" ".x" = ".x"
  ∧ PosixPath.join "/a" "/b" = "/b" ∧ PosixPath.join "/a" "b" = "/a/b".
Proof. split_and!; reflexivity. Qed.

(** Truthy words: ["1"], ["TRUE"], [" yes "], ["On"] are true; blank,
    ["0"], ["false"] and an unset variable are false. *)
Example env_truthy_cases :
  let on v := (env_truthy "T" (Sample.world (<["T" := v]> ∅) ∅ [])).1 in
  on "1" = Ok true ∧ on "TRUE" = Ok true ∧ on " yes " = Ok true ∧ on "On" = Ok true
  ∧ on "" = Ok false ∧ on "0" = Ok false ∧ on "false" = Ok false
  ∧ (env_truthy "T" (Sample.world ∅ ∅ [])).1 = Ok false.
Proof. vm_compute. split_and!; reflexivity. Qed.

(** A regular file named with a trailing slash is no file; a dangling link
    exists for [lstat] and not for [stat]; a directory cannot be removed. *)
Example resolution_cases :
  FS.isfile Sample.home_with_stale_link [] "/host/auth.json" = true
  ∧ FS.isfile Sample.home_with_stale_link [] "/host/auth.json/" = false
  ∧ FS.isfile Sample.home_with_stale_link ["host"] "./../host/auth.json" = true
  ∧ FS.lexists Sample.home_with_stale_link [] Sample.auth_dst = true
  ∧ FS.isfile Sample.home_with_stale_link [] Sample.auth_dst = false
  ∧ FS.remove Sample.home_with_stale_link [] "/home/.codex" = inl FS.EISDIR
  ∧ fst <$> sum_to_error (FS.makedirs Sample.home_with_stale_link [] "") = Some FS.ENOENT
  ∧ fst <$> sum_to_error (FS.makedirs Sample.home_with_stale_link [] "/host/auth.json/x")
    = Some FS.ENOTDIR.
Proof. vm_compute. split_and!; reflexivity. Qed.

(** A line that is valid JSON but not an object is kept as an event, and
    the reducer then fails on it: the run raises although the child
    exited with 0. *)
Example bare_number_line_raises :
  let r := Codex.main (O := Sample.codex_host_chatty) (Sample.host_state ∅) in
  r.1 = Raise AttributeError
  ∧ (λ sp, (sp_mode sp, sp_cmd sp)) <$> spawned r.2
    = [(Captured, ["codex"; "exec"; "--skip-git-repo-check";
                   "--dangerously-bypass-approvals-and-sandbox"; "--ephemeral";
                   "--json"; "hello"])].
Proof. vm_compute. split; reflexivity. Qed.

End Sanity.

(** ** Path resolution *)

Module FSFacts.
Import FS.

Section Walk.
Implicit Types (fs : gmap (list string) node) (cur todo k : list string).

Lemma walk1_cons fs follow cur c rest :
  is_dot c = false → is_dotdot c = false →
  walk1 fs follow cur (c :: rest) =
    match fs !! child cur c with
    | None => if is_nil rest then inl (WFound (child cur c) None) else inl (WErr ENOENT)
    | Some Dir => walk1 fs follow (child cur c) rest
    | Some (File x) =>
        if is_nil rest then inl (WFound (child cur c) (Some (File x)))
        else inl (WErr ENOTDIR)
    | Some (Symlink t) =>
        if is_nil rest && negb follow then inl (WFound (child cur c) (Some (Symlink t)))
        else if PyStr.nonempty t then inr (start_dir cur t, (components t ++ rest)%list)
        else inl (WErr ENOENT)
    end.
Proof. intros Hd Hdd. cbn [walk1]. rewrite Hd, Hdd. reflexivity. Qed.

Lemma walk1_dot fs follow cur c rest :
  is_dot c = true → walk1 fs follow cur (c :: rest) = walk1 fs follow cur rest.
Proof. intros Hd. cbn [walk1]. by rewrite Hd. Qed.

Lemma walk1_dotdot fs follow cur c rest :
  is_dot c = false → is_dotdot c = true →
  walk1 fs follow cur (c :: rest) = walk1 fs follow (removelast cur) rest.
Proof. intros Hd Hdd. cbn [walk1]. by rewrite Hd, Hdd. Qed.

(** A resolution that ends on a missing final component: the key is free,
    and in any larger tree the same walk comes down to the one lookup of
    that component in its directory. *)
Lemma walk1_absent fs follow todo : ∀ cur k,
  walk1 fs follow cur todo = inl (WFound k None) →
  fs !! k = None ∧
  ∃ cur' c, k = child cur' c ∧ is_dot c = false ∧ is_dotdot c = false ∧
    ∀ fs' follow', fs ⊆ fs' → walk1 fs' follow' cur todo = walk1 fs' follow' cur' [c].
Proof.
  induction todo as [|c rest IH]; intros cur k; [discriminate|].
  destruct (is_dot c) eqn:Hd.
  { rewrite walk1_dot by done. intros H.
    destruct (IH _ _ H) as (? & cur' & c' & ? & ? & ? & Hfs).
    split; [done|]. exists cur', c'. split_and!; [done..|].
    intros fs' follow' Hsub. rewrite walk1_dot by done. auto. }
  destruct (is_dotdot c) eqn:Hdd.
  { rewrite walk1_dotdot by done. intros H.
    destruct (IH _ _ H) as (? & cur' & c' & ? & ? & ? & Hfs).
    split; [done|]. exists cur', c'. split_and!; [done..|].
    intros fs' follow' Hsub. rewrite walk1_dotdot by done. auto. }
  rewrite walk1_cons by done.
  destruct (fs !! child cur c) as [[x| |t]|] eqn:Hk.
  - destruct (is_nil rest); discriminate.
  - intros H. destruct (IH _ _ H) as (? & cur' & c' & ? & ? & ? & Hfs).
    split; [done|]. exists cur', c'. split_and!; [done..|].
    intros fs' follow' Hsub. rewrite walk1_cons by done.
    rewrite (lookup_weaken _ _ _ _ Hk Hsub). auto.
  - destruct (is_nil rest && negb follow); [discriminate|].
    destruct (PyStr.nonempty t); discriminate.
  - destruct rest; simpl; [|discriminate].
    intros [= <-]. split; [done|]. exists cur, c. done.
Qed.

(** A link followed in directory position is followed whatever the flag. *)
Lemma walk1_hop_mono fs fs' follow follow' todo : ∀ cur hop,
  fs ⊆ fs' → (follow = true → follow' = true) →
  walk1 fs follow cur todo = inr hop → walk1 fs' follow' cur todo = inr hop.
Proof.
  induction todo as [|c rest IH]; intros cur hop Hsub Hfl; [discriminate|].
  destruct (is_dot c) eqn:Hd; [rewrite !walk1_dot by done; eauto|].
  destruct (is_dotdot c) eqn:Hdd; [rewrite !walk1_dotdot by done; eauto|].
  rewrite !walk1_cons by done.
  destruct (fs !! child cur c) as [[x| |t]|] eqn:Hk;
    try rewrite (lookup_weaken _ _ _ _ Hk Hsub); eauto.
  - destruct (is_nil rest), follow, follow'; cbn; try done.
    by specialize (Hfl eq_refl).
  - destruct (is_nil rest); discriminate.
Qed.

Lemma walk1_found_mono fs fs' follow todo : ∀ cur k n,
  fs ⊆ fs' →
  walk1 fs follow cur todo = inl (WFound k (Some n)) →
  walk1 fs' follow cur todo = inl (WFound k (Some n)).
Proof.
  induction todo as [|c rest IH]; intros cur k n Hsub; [done|].
  destruct (is_dot c) eqn:Hd; [rewrite !walk1_dot by done; eauto|].
  destruct (is_dotdot c) eqn:Hdd; [rewrite !walk1_dotdot by done; eauto|].
  rewrite !walk1_cons by done.
  destruct (fs !! child cur c) as [[x| |t]|] eqn:Hk;
    try rewrite (lookup_weaken _ _ _ _ Hk Hsub); eauto.
  destruct (is_nil rest); discriminate.
Qed.

Lemma walk_unfold hops fs follow cur todo :
  walk hops fs follow cur todo =
    match walk1 fs follow cur todo with
    | inl r => r
    | inr (c, t) =>
        match hops with
        | O => WErr ELOOP
        | S h => walk h fs follow c t
        end
    end.
Proof. destruct hops; reflexivity. Qed.

Lemma walk_absent fs follow hops : ∀ cur todo k,
  walk hops fs follow cur todo = WFound k None →
  fs !! k = None ∧
  ∃ (h' : nat) cur' c, (h' ≤ hops)%nat ∧ k = child cur' c ∧
    is_dot c = false ∧ is_dotdot c = false ∧
    ∀ fs' follow', fs ⊆ fs' → (follow = true → follow' = true) →
      walk hops fs' follow' cur todo = walk h' fs' follow' cur' [c].
Proof.
  induction hops as [|h IH]; intros cur todo k; rewrite walk_unfold;
    destruct (walk1 fs follow cur todo) as [r|[c t]] eqn:Hw; try discriminate.
  - intros ->. destruct (walk1_absent _ _ _ _ _ Hw) as (? & cur' & c' & ? & ? & ? & Hfs).
    split; [done|]. exists 0, cur', c'. split_and!; [done..|].
    intros fs' follow' Hsub _. rewrite !walk_unfold, Hfs; done.
  - intros ->. destruct (walk1_absent _ _ _ _ _ Hw) as (? & cur' & c' & ? & ? & ? & Hfs).
    split; [done|]. exists (S h), cur', c'. split_and!; [done..|].
    intros fs' follow' Hsub _. rewrite !(walk_unfold (S h)), Hfs; done.
  - intros H. destruct (IH _ _ _ H) as (? & h' & cur' & c' & ? & ? & ? & ? & Hfs).
    split; [done|]. exists h', cur', c'. split_and!; [lia|done..|].
    intros fs' follow' Hsub Hfl. rewrite (walk_unfold (S h)).
    rewrite (walk1_hop_mono _ _ _ _ _ _ _ Hsub Hfl Hw). auto.
Qed.

Lemma walk_found_mono fs fs' follow hops : ∀ cur todo k n,
  fs ⊆ fs' →
  walk hops fs follow cur todo = WFound k (Some n) →
  walk hops fs' follow cur todo = WFound k (Some n).
Proof.
  induction hops as [|h IH]; intros cur todo k n Hsub; rewrite !walk_unfold;
    destruct (walk1 fs follow cur todo) as [r|[c t]] eqn:Hw; try discriminate.
  - intros ->. by rewrite (walk1_found_mono _ _ _ _ _ _ _ Hsub Hw).
  - intros ->. by rewrite (walk1_found_mono _ _ _ _ _ _ _ Hsub Hw).
  - rewrite (walk1_hop_mono _ _ follow follow _ _ _ Hsub (λ x, x) Hw). eauto.
Qed.

(** More links allowed never changes an answer other than [ELOOP]. *)
Lemma walk_more_hops fs follow (h : nat) : ∀ (h' : nat) cur todo,
  (h ≤ h')%nat →
  walk h fs follow cur todo ≠ WErr ELOOP →
  walk h' fs follow cur todo = walk h fs follow cur todo.
Proof.
  induction h as [|h IH]; intros h' cur todo Hle; rewrite !(walk_unfold _ fs);
    destruct (walk1 fs follow cur todo) as [r|[c t]] eqn:Hw; try done.
  destruct h' as [|h']; [lia|]. intros Hne. apply IH; [lia|done].
Qed.

End Walk.
End FSFacts.

(** ** Source-path resolution *)

Module ResolveFacts.
Import Common.

Section WithOracles.
Context {O : Oracles}.

(** C1. [resolve_source_file] follows a strict three-tier precedence:
    a primary variable that is non-empty after trimming wins, whatever the
    legacy variable and the default are; otherwise a legacy variable that
    was passed and is non-empty after trimming wins; otherwise the default
    path is used.  The result is always the expansion of the chosen
    string, the state is left as it was, and the answer does not depend on
    the filesystem: no existence check takes place. *)
Theorem resolve_source_file_precedence (s : state)
    (primary_env default_path : string) (legacy_env : option string) :
  (trimmed s primary_env ≠ "" →
     resolve_source_file primary_env default_path legacy_env s
     = (Ok (expanded (env s) (trimmed s primary_env)), s))
  ∧ (∀ name, trimmed s primary_env = "" →
       legacy_env = Some name → name ≠ "" → trimmed s name ≠ "" →
       resolve_source_file primary_env default_path legacy_env s
       = (Ok (expanded (env s) (trimmed s name)), s))
  ∧ (trimmed s primary_env = "" →
       (∀ name, legacy_env = Some name → name ≠ "" → trimmed s name = "") →
       resolve_source_file primary_env default_path legacy_env s
       = (Ok (expanded (env s) default_path), s))
  ∧ (∀ f, (resolve_source_file primary_env default_path legacy_env (set_fs f s)).1
          = (resolve_source_file primary_env default_path legacy_env s).1).
Proof.
  unfold resolve_source_file, trimmed, bind, getenv, expand_path, get, ret.
  split_and!.
  - intros Hp. cbn. destruct (PyStr.strip _) eqn:E; [done|]. reflexivity.
  - intros name Hp -> Hn Hl. cbn. rewrite Hp. cbn.
    destruct name; [done|]. cbn.
    destruct (PyStr.strip (default "" (env s !! String _ _))) eqn:E; [done|].
    reflexivity.
  - intros Hp Hl. cbn. rewrite Hp. cbn.
    destruct legacy_env as [name|]; [|done].
    destruct name; [done|]. cbn. rewrite (Hl _ eq_refl); [|done]. reflexivity.
  - intros f. cbn.
    destruct (PyStr.nonempty _); [done|].
    destruct legacy_env as [name|]; [|done].
    destruct (PyStr.nonempty name); [|done].
    destruct (PyStr.nonempty _); done.
Qed.

End WithOracles.

Lemma resolve_source_file_precedence_witness :
  @resolve_source_file Sample.plain "CODEX_AUTH_FILE" "/host_auth/.codex/auth.json"
      (Some "CODEX_AUTH_SOURCE_FILE") (Sample.world Sample.auth_env ∅ [])
    = (Ok "/run/secrets/auth.json", Sample.world Sample.auth_env ∅ [])
  ∧ @resolve_source_file Sample.plain "CODEX_CONFIG_FILE" "/host_auth/.codex/config.toml"
      (Some "CODEX_AUTH_SOURCE_FILE") (Sample.world Sample.auth_env ∅ [])
    = (Ok "/legacy/auth.json", Sample.world Sample.auth_env ∅ [])
  ∧ @resolve_source_file Sample.plain "CODEX_CONFIG_FILE" "/host_auth/.codex/config.toml"
      None (Sample.world Sample.auth_env ∅ [])
    = (Ok "/host_auth/.codex/config.toml", Sample.world Sample.auth_env ∅ []).
Proof.
  split_and!.
  - apply (@resolve_source_file_precedence Sample.plain
             (Sample.world Sample.auth_env ∅ []) "CODEX_AUTH_FILE"
             "/host_auth/.codex/auth.json" (Some "CODEX_AUTH_SOURCE_FILE")).
    vm_compute. discriminate.
  - apply (proj1 (proj2 (@resolve_source_file_precedence Sample.plain
             (Sample.world Sample.auth_env ∅ []) "CODEX_CONFIG_FILE"
             "/host_auth/.codex/config.toml" (Some "CODEX_AUTH_SOURCE_FILE")))
             "CODEX_AUTH_SOURCE_FILE");
      [vm_compute; reflexivity | reflexivity | discriminate | vm_compute; discriminate].
  - apply (proj1 (proj2 (proj2 (@resolve_source_file_precedence Sample.plain
             (Sample.world Sample.auth_env ∅ []) "CODEX_CONFIG_FILE"
             "/host_auth/.codex/config.toml" None))));
      [vm_compute; reflexivity | discriminate].
Defined.

End ResolveFacts.

(** ** Credential materialisation *)

Module MaterializeFacts.
Import Common FS FSFacts.

(** [lstat] sees a link just created at a free final component. *)
Lemma resolve_insert_absent (f : gmap (list string) node) (dir : list string)
    (p t : string) (k : list string) :
  resolve f dir false p = WFound k None →
  resolve (<[k := Symlink t]> f) dir false p = WFound k (Some (Symlink t)).
Proof.
  unfold resolve. destruct (PyStr.nonempty p); [|discriminate].
  intros H. destruct (walk_absent _ _ _ _ _ _ H) as (Hk & h' & cur' & c & _ & -> & Hd & Hdd & Hfs).
  rewrite (Hfs (<[child cur' c := Symlink t]> f) false) by (done || by apply insert_subseteq).
  rewrite walk_unfold, walk1_cons by done.
  by rewrite lookup_insert_eq.
Qed.

(** One tree extends another by directories only. *)
Definition grown (f f1 : gmap (list string) node) : Prop :=
  f ⊆ f1 ∧ ∀ k n, f1 !! k = Some n → f !! k = None → n = Dir.

Lemma grown_refl (f : gmap (list string) node) : grown f f.
Proof. split; [done|]. intros k n H1 H2. congruence. Qed.

Lemma grown_trans (f f1 f2 : gmap (list string) node) :
  grown f f1 → grown f1 f2 → grown f f2.
Proof.
  intros [Hs1 Hn1] [Hs2 Hn2]. split; [by etrans|].
  intros k n Hk2 Hk. destruct (f1 !! k) as [n1|] eqn:Hk1.
  - pose proof (lookup_weaken _ _ _ _ Hk1 Hs2) as Hk2'.
    assert (n = n1) as -> by congruence. by apply (Hn1 k).
  - by apply (Hn2 k).
Qed.

(** [os.mkdir] adds one directory at a free key. *)
Lemma mkdir_at_grown (f f1 : gmap (list string) node) (start comps : list string) :
  mkdir_at f start comps = inr f1 → grown f f1.
Proof.
  unfold mkdir_at, stat_at.
  destruct (walk _ _ _ _ _) as [k [n|]|e] eqn:Hw; try discriminate.
  intros [= <-]. destruct (walk_absent _ _ _ _ _ _ Hw) as [Hk _].
  split; [by apply insert_subseteq|].
  intros k' n Hk' Hnone. destruct (decide (k' = k)) as [->|Hne].
  - rewrite lookup_insert_eq in Hk'. congruence.
  - rewrite lookup_insert_ne in Hk' by done. congruence.
Qed.

Lemma mkdir_or_isdir_grown (f : gmap (list string) node) (start comps : list string) :
  match mkdir_or_isdir f start comps with
  | inr f1 => grown f f1
  | inl (_, f1) => f1 = f
  end.
Proof.
  unfold mkdir_or_isdir.
  destruct (mkdir_at f start comps) as [e|f1] eqn:Hmk.
  - destruct (isdir_at f start comps); [apply grown_refl|done].
  - by apply (mkdir_at_grown _ _ _ _ Hmk).
Qed.

(** [os.makedirs] only adds directories, whether it returns or raises. *)
Lemma makedirs_rev_grown (start rev_name : list string) :
  ∀ f : gmap (list string) node,
    match makedirs_rev f start rev_name with
    | inr f1 => grown f f1
    | inl (_, f1) => grown f f1
    end.
Proof.
  assert (Hlast : ∀ (f f0 : gmap (list string) node) comps,
            grown f f0 →
            match mkdir_or_isdir f0 start comps with
            | inr f1 => grown f f1
            | inl (_, f1) => grown f f1
            end).
  { intros f f0 comps Hg. pose proof (mkdir_or_isdir_grown f0 start comps) as H.
    destruct (mkdir_or_isdir f0 start comps) as [[e f1]|f1].
    - by subst f1.
    - by apply (grown_trans _ f0). }
  induction rev_name as [|tail rev_head IH]; intros f; cbn [makedirs_rev].
  { apply Hlast, grown_refl. }
  destruct (negb (is_nil rev_head) && negb (exists_at f start (rev rev_head)));
    [|apply Hlast, grown_refl].
  specialize (IH f).
  destruct (makedirs_rev f start rev_head) as [[e f0]|f0].
  - destruct (is_eexist e); [|done].
    destruct (bool_decide (tail = ".")); [done|by apply Hlast].
  - destruct (bool_decide (tail = ".")); [done|by apply Hlast].
Qed.

Lemma makedirs_grown (f : gmap (list string) node) (dir : list string) (p : string) :
  match makedirs f dir p with
  | inr f1 => grown f f1
  | inl (_, f1) => grown f f1
  end.
Proof.
  unfold makedirs. destruct (PyStr.nonempty p); [apply makedirs_rev_grown|apply grown_refl].
Qed.

Lemma makedirs_extends (f f1 : gmap (list string) node) (dir : list string) (p : string) :
  makedirs f dir p = inr f1 →
  f ⊆ f1 ∧ ∀ k n, f1 !! k = Some n → f !! k = None → n = Dir.
Proof. intros H. pose proof (makedirs_grown f dir p) as Hg. by rewrite H in Hg. Qed.

Lemma makedirs_partial (f f1 : gmap (list string) node) (dir : list string) (p : string)
    (e : errno) :
  makedirs f dir p = inl (e, f1) →
  f ⊆ f1 ∧ ∀ k n, f1 !! k = Some n → f !! k = None → n = Dir.
Proof. intros H. pose proof (makedirs_grown f dir p) as Hg. by rewrite H in Hg. Qed.

Section WithOracles.
Context {O : Oracles}.

(** [symlink_file], call by call. *)
Lemma symlink_file_eq (s : state) (src dst : string) :
  symlink_file src dst s =
    let src' := expanded (env s) src in
    let dst' := expanded (env s) dst in
    if isfile (fs s) (cwd s) src' then
      match makedirs (fs s) (cwd s) (PosixPath.dirname dst') with
      | inl (e, f1) => (Raise (OSError e), set_fs f1 s)
      | inr f1 =>
          if lexists f1 (cwd s) dst' then
            match remove f1 (cwd s) dst' with
            | inl e => (Raise (OSError e), set_fs f1 s)
            | inr f2 =>
                match symlink f2 (cwd s) src' dst' with
                | inl e => (Raise (OSError e), set_fs f2 s)
                | inr f3 => (Ok true, set_fs f3 s)
                end
            end
          else
            match symlink f1 (cwd s) src' dst' with
            | inl e => (Raise (OSError e), set_fs f1 s)
            | inr f3 => (Ok true, set_fs f3 s)
            end
      end
    else (Ok false, s).
Proof.
  destruct s as [e f d o sp].
  unfold symlink_file, expand_path, bind, get, ret, os_path_isfile, os_path_lexists,
    os_makedirs, os_remove, os_symlink, fs_update, fs_update_partial, set_fs. cbn.
  destruct (isfile f d _); [|done]. cbn.
  destruct (makedirs f d _) as [[err f1]|f1]; [done|]. cbn.
  destruct (lexists f1 d _); cbn.
  - destruct (remove f1 d _) as [err|f2]; [done|]. cbn.
    destruct (symlink f2 d _ _); done.
  - destruct (symlink f1 d _ _); done.
Qed.

Lemma materialize_eq (s : state) (src dst : string) :
  materialize src dst s =
    if isfile (fs s) (cwd s) dst then (Ok Mounted, s)
    else match symlink_file src dst s with
         | (Ok true, s') => (Ok Linked, s')
         | (Ok false, s') => (Ok Missing, s')
         | (Raise e, s') => (Raise e, s')
         end.
Proof.
  unfold materialize, bind, os_path_isfile, ret.
  destruct (isfile _ _ dst); [done|].
  destruct (symlink_file src dst s) as [[[]|] ?]; done.
Qed.

(** C10. When the (expanded) source is not a regular file, [symlink_file]
    returns [False] and the state is exactly what it was: every entry of
    the tree, the destination included, is untouched, so what [lstat] sees
    at the destination (a dangling link of an earlier run, say) is what it
    saw before. *)
Theorem symlink_file_missing_source_frame (s : state) (src dst : string) :
  isfile (fs s) (cwd s) (expanded (env s) src) = false →
  symlink_file src dst s = (Ok false, s)
  ∧ (∀ k, fs (symlink_file src dst s).2 !! k = fs s !! k)
  ∧ resolve (fs (symlink_file src dst s).2) (cwd s) false (expanded (env s) dst)
    = resolve (fs s) (cwd s) false (expanded (env s) dst).
Proof.
  intros H. rewrite symlink_file_eq. cbn zeta. rewrite H. done.
Qed.

(** C2, as amended.  One credential entry [(dst, src)]:
    - a regular file at [dst]: [Mounted], state untouched;
    - otherwise, expanded source not a regular file: [Missing], state
      untouched;
    - otherwise [os.makedirs] runs on the directory part of the expanded
      destination; if it succeeds (it only adds directories), the
      destination entry is not a directory and the destination path still
      leads to the same place once that entry is gone, the entry (a
      dangling link included) is replaced by a link to the expanded source
      and the answer is [Linked];
    - a directory at the destination makes [os.remove] raise
      [IsADirectoryError]: no link is made and no outcome is reported. *)
Theorem materialize_outcome (s : state) (src dst : string) :
  let src' := expanded (env s) src in
  let dst' := expanded (env s) dst in
  (isfile (fs s) (cwd s) dst = true → materialize src dst s = (Ok Mounted, s))
  ∧ (isfile (fs s) (cwd s) dst = false → isfile (fs s) (cwd s) src' = false →
       materialize src dst s = (Ok Missing, s))
  ∧ (isfile (fs s) (cwd s) dst = false → isfile (fs s) (cwd s) src' = true →
       ∀ f1 k entry,
         makedirs (fs s) (cwd s) (PosixPath.dirname dst') = inr f1 →
         resolve f1 (cwd s) false dst' = WFound k entry →
         entry ≠ Some Dir →
         resolve (delete k f1) (cwd s) false dst' = WFound k None →
         materialize src dst s = (Ok Linked, set_fs (<[k := Symlink src']> f1) s)
         ∧ resolve (<[k := Symlink src']> f1) (cwd s) false dst'
           = WFound k (Some (Symlink src'))
         ∧ fs s ⊆ f1
         ∧ (∀ k' n, f1 !! k' = Some n → fs s !! k' = None → n = Dir))
  ∧ (isfile (fs s) (cwd s) dst = false → isfile (fs s) (cwd s) src' = true →
       ∀ f1 k,
         makedirs (fs s) (cwd s) (PosixPath.dirname dst') = inr f1 →
         resolve f1 (cwd s) false dst' = WFound k (Some Dir) →
         materialize src dst s = (Raise (OSError EISDIR), set_fs f1 s)).
Proof.
  intros src' dst'. split_and!.
  - intros H. by rewrite materialize_eq, H.
  - intros Hd Hs. rewrite materialize_eq, Hd, symlink_file_eq. cbn zeta.
    fold src'. by rewrite Hs.
  - intros Hd Hs f1 k entry Hmk Hres Hnd Hres'.
    assert (Hsrc : PyStr.nonempty src' = true).
    { unfold isfile, resolve in Hs. by destruct (PyStr.nonempty src'). }
    destruct (makedirs_extends _ _ _ _ Hmk) as [Hsub Hnew].
    pose proof (resolve_insert_absent _ _ _ src' _ Hres') as Hlink.
    rewrite insert_delete_eq in Hlink.
    split_and!; [|done..].
    rewrite materialize_eq, Hd, symlink_file_eq. cbn zeta.
    fold src' dst'. rewrite Hs, Hmk.
    unfold lexists, remove, symlink. rewrite Hres, Hsrc.
    destruct entry as [[x| |t]|].
    + rewrite Hres'. by rewrite insert_delete_eq.
    + done.
    + rewrite Hres'. by rewrite insert_delete_eq.
    + done.
  - intros Hd Hs f1 k Hmk Hres.
    rewrite materialize_eq, Hd, symlink_file_eq. cbn zeta.
    fold src' dst'. rewrite Hs, Hmk.
    unfold lexists, remove. by rewrite Hres.
Qed.

(** Where the link lands, a path that named the missing entry now runs
    through the link: if the target is absolute and the walk stays within
    the link limit, following the destination is following the target. *)
Lemma symlink_then_follow (f2 f3 : gmap (list string) node) (dir : list string)
    (target p : string) :
  symlink f2 dir target p = inr f3 →
  PosixPath.isabs target = true →
  resolve f3 dir true p ≠ WErr ELOOP →
  resolve f3 dir true p = resolve f3 dir true target.
Proof.
  unfold symlink. destruct (PyStr.nonempty target) eqn:Ht; [|discriminate].
  destruct (resolve f2 dir false p) as [k [?|]|?] eqn:Hres; try discriminate.
  intros [= <-] Habs. unfold resolve in *. rewrite Ht.
  destruct (PyStr.nonempty p); [|discriminate].
  destruct (walk_absent _ _ _ _ _ _ Hres) as (Hk & h' & cur' & c & Hle & -> & Hd & Hdd & Hfs).
  rewrite (Hfs (<[child cur' c := Symlink target]> f2) true)
    by (done || by apply insert_subseteq).
  rewrite (walk_unfold h'), walk1_cons by done.
  rewrite lookup_insert_eq. cbn [is_nil andb negb]. rewrite Ht.
  assert (∀ d, start_dir d target = []) as Hstart
    by (intros d; unfold start_dir; by rewrite Habs).
  rewrite !Hstart, app_nil_r.
  destruct h' as [|h'']; [done|]. intros Hne.
  symmetry. apply walk_more_hops; [lia|done].
Qed.

(** For an absolute source a second materialisation of the same entry
    answers [Mounted] and changes nothing, and the destination then reads
    as the source did, provided the first one answered [Linked], the
    destination was given in expanded form, the expanded source reads the
    same after the first call as before it, and following the new link
    stays within the link limit. *)
Theorem materialize_idempotent (s s1 : state) (src dst : string) :
  expanded (env s) dst = dst →
  PosixPath.isabs (expanded (env s) src) = true →
  materialize src dst s = (Ok Linked, s1) →
  read (fs s1) (cwd s1) (expanded (env s) src)
    = read (fs s) (cwd s) (expanded (env s) src) →
  resolve (fs s1) (cwd s1) true dst ≠ WErr ELOOP →
  materialize src dst s1 = (Ok Mounted, s1)
  ∧ read (fs s1) (cwd s1) dst = read (fs s) (cwd s) (expanded (env s) src).
Proof.
  intros Hdst Habs Hfirst Hread Hloop.
  rewrite materialize_eq in Hfirst.
  destruct (isfile (fs s) (cwd s) dst) eqn:Hd; [discriminate Hfirst|].
  rewrite symlink_file_eq in Hfirst. cbn zeta in Hfirst. rewrite Hdst in Hfirst.
  destruct (isfile (fs s) (cwd s) (expanded (env s) src)) eqn:Hs; [|discriminate Hfirst].
  assert (∃ f2 f3, symlink f2 (cwd s) (expanded (env s) src) dst = inr f3
                   ∧ s1 = set_fs f3 s) as (f2 & f3 & Hsym & ->).
  { clear Hread Hloop.
    destruct (makedirs _ _ _) as [[? ?]|f1]; [discriminate Hfirst|].
    destruct (lexists f1 _ _).
    - destruct (remove f1 _ _) as [?|f2]; [discriminate Hfirst|].
      destruct (symlink f2 _ _ _) as [?|f3] eqn:Hsym; [discriminate Hfirst|].
      exists f2, f3. split; [exact Hsym|]. by injection Hfirst.
    - destruct (symlink f1 _ _ _) as [?|f3] eqn:Hsym; [discriminate Hfirst|].
      exists f1, f3. split; [exact Hsym|]. by injection Hfirst. }
  cbn [set_fs fs cwd] in *.
  pose proof (symlink_then_follow _ _ _ _ _ Hsym Habs Hloop) as Heq.
  assert (∃ x, read (fs s) (cwd s) (expanded (env s) src) = inr x) as [x Hx].
  { clear -Hs. unfold isfile in Hs. unfold read.
    destruct (resolve (fs s) _ _ _) as [? [[x| |?]|]|?]; try discriminate Hs.
    by exists x. }
  rewrite Hx in Hread. rewrite Hx.
  assert (∃ k, resolve f3 (cwd s) true dst = WFound k (Some (File x))) as [k Hk].
  { rewrite Heq. clear -Hread. unfold read in Hread.
    destruct (resolve f3 _ _ _) as [k [[y| |?]|]|?]; try discriminate Hread.
    exists k. by injection Hread as ->. }
  split.
  - rewrite materialize_eq. unfold isfile. cbn [set_fs fs cwd]. rewrite Hk. reflexivity.
  - unfold read. rewrite Hk. reflexivity.
Qed.

End WithOracles.
Lemma symlink_file_missing_source_frame_witness :
  let s := Sample.world ∅ Sample.home_with_stale_link [] in
  @symlink_file Sample.plain "/nowhere/auth.json" Sample.auth_dst s = (Ok false, s)
  ∧ resolve (fs (@symlink_file Sample.plain "/nowhere/auth.json" Sample.auth_dst s).2)
      [] false Sample.auth_dst
    = WFound Sample.auth_key (Some (Symlink "/gone/auth.json")).
Proof.
  intros s.
  destruct (@symlink_file_missing_source_frame Sample.plain s
              "/nowhere/auth.json" Sample.auth_dst) as (H1 & _ & H2).
  { vm_compute. reflexivity. }
  split; [exact H1|]. etrans; [exact H2|]. vm_compute. reflexivity.
Defined.

(** C2 as stated fails: with a directory at the destination and a regular
    file as source, no link is made and no outcome is reported. *)
Lemma materialize_directory_at_destination :
  let s := Sample.world ∅ Sample.home_with_directory [] in
  isfile (fs s) (cwd s) Sample.auth_dst = false
  ∧ isfile (fs s) (cwd s) "/host/auth.json" = true
  ∧ @materialize Sample.plain "/host/auth.json" Sample.auth_dst s
    = (Raise (OSError EISDIR), s)
  ∧ (@materialize Sample.plain "/host/auth.json" Sample.auth_dst s).1 ≠ Ok Linked.
Proof. vm_compute. split_and!; (reflexivity || discriminate). Qed.

Lemma materialize_outcome_witness :
  let s := Sample.world ∅ Sample.home_with_stale_link [] in
  @materialize Sample.plain "/host/auth.json" Sample.auth_dst s
    = (Ok Linked, set_fs Sample.home_linked s)
  ∧ resolve Sample.home_linked [] false Sample.auth_dst
    = WFound Sample.auth_key (Some (Symlink "/host/auth.json")).
Proof.
  intros s.
  destruct (@materialize_outcome Sample.plain s "/host/auth.json" Sample.auth_dst)
    as (_ & _ & H & _).
  destruct (H ltac:(vm_compute; reflexivity) ltac:(vm_compute; reflexivity)
              Sample.home_with_stale_link Sample.auth_key
              (Some (Symlink "/gone/auth.json"))) as (H1 & H2 & _).
  - vm_compute. reflexivity.
  - vm_compute. reflexivity.
  - intros [=].
  - vm_compute. reflexivity.
  - split; [exact H1 | exact H2].
Defined.

(** C5. The code at a source named by a relative path: [symlink_file]
    finds the regular file from the working directory and hands the same
    relative text to [os.symlink], where it is read from the link's own
    directory.  The first call answers [Linked], the source is unchanged,
    the destination does not resolve, and the second call answers
    [Linked] again, not [Mounted]. *)
Lemma materialize_relative_source_relinks :
  let s := Sample.world ∅ Sample.home_and_code ["code"] in
  let s1 := set_fs Sample.home_linked_relative s in
  @materialize Sample.plain "auth.json" Sample.auth_dst s = (Ok Linked, s1)
  ∧ read (fs s1) (cwd s1) "auth.json" = read (fs s) (cwd s) "auth.json"
  ∧ @materialize Sample.plain "auth.json" Sample.auth_dst s1 = (Ok Linked, s1)
  ∧ @materialize Sample.plain "auth.json" Sample.auth_dst s1 ≠ (Ok Mounted, s1)
  ∧ read (fs s1) (cwd s1) Sample.auth_dst = inl ELOOP.
Proof. vm_compute. split_and!; (reflexivity || discriminate). Qed.

Lemma materialize_idempotent_witness :
  let s := Sample.world ∅ Sample.home_with_stale_link [] in
  let s1 := set_fs Sample.home_linked s in
  @materialize Sample.plain "/host/auth.json" Sample.auth_dst s1 = (Ok Mounted, s1)
  ∧ read (fs s1) (cwd s1) Sample.auth_dst = inr "secret".
Proof.
  intros s s1.
  destruct (@materialize_idempotent Sample.plain s s1 "/host/auth.json" Sample.auth_dst)
    as [H1 H2].
  - reflexivity.
  - reflexivity.
  - vm_compute. reflexivity.
  - vm_compute. reflexivity.
  - vm_compute. discriminate.
  - split; [exact H1|]. etrans; [exact H2|]. vm_compute. reflexivity.
Defined.

End MaterializeFacts.

(** ** The structured-result reducer *)

Module ReducerFacts.
Import ReducerSpec.
Local Open Scope py_scope.

Lemma py_get_obj (m : list (string * json)) (k : string) (d : json) :
  py_get (JObj m) k d = Ok (dict_get m k d).
Proof. reflexivity. Qed.

Lemma well_formed_obj (e : json) :
  well_formed_event e = true → ∃ m, e = JObj m.
Proof. destruct e; try discriminate. eauto. Qed.

Lemma first_thread_started_head (events : list json) :
  Forall (λ e, well_formed_event e = true) events →
  first_thread_started events
  = Ok (default JNull (head (filter (λ e, is_event_of "thread.started" e = true) events))).
Proof.
  induction 1 as [|e events He _ IH]; [reflexivity|].
  destruct (well_formed_obj _ He) as [m ->].
  cbn [first_thread_started]. rewrite py_get_obj. cbn [rbind].
  change (is_str (dict_get m "type" JNull) "thread.started")
    with (is_event_of "thread.started" (JObj m)).
  destruct (is_event_of "thread.started" (JObj m)) eqn:E.
  - by rewrite filter_cons_True.
  - rewrite filter_cons_False by (by rewrite E). exact IH.
Qed.

Lemma turn_completed_events_filter (events : list json) :
  Forall (λ e, well_formed_event e = true) events →
  turn_completed_events events
  = Ok (filter (λ e, is_event_of "turn.completed" e = true) events).
Proof.
  induction 1 as [|e events He _ IH]; [reflexivity|].
  destruct (well_formed_obj _ He) as [m ->].
  cbn [turn_completed_events]. rewrite py_get_obj, IH. cbn [rbind].
  change (is_str (dict_get m "type" JNull) "turn.completed")
    with (is_event_of "turn.completed" (JObj m)).
  destruct (is_event_of "turn.completed" (JObj m)) eqn:E.
  - by rewrite filter_cons_True.
  - by rewrite filter_cons_False by (by rewrite E).
Qed.

Lemma collect_final_messages_omap (events : list json) :
  Forall (λ e, well_formed_event e = true) events →
  ∀ acc, collect_final_messages events acc = Ok (acc ++ omap agent_text events)%list.
Proof.
  induction 1 as [|e events He _ IH]; intros acc.
  { cbn. by rewrite app_nil_r. }
  destruct (well_formed_obj _ He) as [m ->].
  cbn [collect_final_messages]. rewrite py_get_obj. cbn [rbind].
  change (omap agent_text (JObj m :: events))
    with (match agent_text (JObj m) with
          | Some y => y :: omap agent_text events
          | None => omap agent_text events
          end).
  unfold agent_text at 1. unfold well_formed_event, is_event_of in *.
  cbn [field item_of is_obj andb] in *.
  destruct (is_str (dict_get m "type" JNull) "item.completed"); cbn [negb andb orb] in *.
  - rewrite py_get_obj. cbn [rbind].
    destruct (dict_get m "item" (JObj [])) as [| | | | | |im]; try discriminate He.
    rewrite !py_get_obj. cbn [rbind field].
    destruct (is_str (dict_get im "type" JNull) "agent_message"); cbn [rbind].
    + destruct (truthy (dict_get im "text" (JStr ""))).
      * rewrite IH. by rewrite <- app_assoc.
      * apply IH.
    + apply IH.
  - apply IH.
Qed.

(** A started-thread event is a non-empty dict, hence true in Python. *)
Lemma event_of_truthy (t : string) (e : json) :
  is_event_of t e = true → truthy e = true.
Proof.
  unfold is_event_of. destruct e as [| | | | | |m]; try discriminate.
  destruct m; [discriminate|done].
Qed.

(** The whole summary on well-formed events: the six fixed entries, then
    each optional entry if its value is there. *)
Lemma summarize_ok (events : list json) (non_json_lines : nat) (returncode : Z) :
  Forall (λ e, well_formed_event e = true) events →
  summarize events non_json_lines returncode
  = Ok (base_summary (length events) non_json_lines returncode
        ++ entry "thread_id" (thread_id_of events)
        ++ entry "usage" (usage_of events)
        ++ entry "final_message" (final_message_of events))%list.
Proof.
  intros Hwf. unfold summarize.
  rewrite first_thread_started_head, turn_completed_events_filter,
    collect_final_messages_omap by done.
  unfold thread_id_of, usage_of, final_message_of. cbn [rbind app].
  set (started := filter (λ e, is_event_of "thread.started" e = true) events).
  set (turns := filter (λ e, is_event_of "turn.completed" e = true) events).
  assert (Hs : ∀ e, head started = Some e →
                 is_event_of "thread.started" e = true ∧ ∃ m, e = JObj m).
  { intros e He. apply head_Some_elem_of in He.
    apply list_elem_of_filter in He as [? Hin]. split; [done|].
    rewrite Forall_forall in Hwf. by apply well_formed_obj, Hwf. }
  assert (Ht : ∀ e, last turns = Some e → ∃ m, e = JObj m).
  { intros e He. apply last_Some_elem_of in He.
    apply list_elem_of_filter in He as [? Hin].
    rewrite Forall_forall in Hwf. by apply well_formed_obj, Hwf. }
  destruct (head started) as [e|] eqn:Hhead; cbn [from_option id mbind option_bind].
  - destruct (Hs e eq_refl) as [Hev [m ->]].
    rewrite (event_of_truthy _ _ Hev). rewrite py_get_obj. cbn [rbind field].
    destruct (truthy (dict_get m "thread_id" JNull));
      (destruct (last turns) as [u|] eqn:Hlast; cbn [mbind option_bind];
       [destruct (Ht u eq_refl) as [mu ->]; rewrite py_get_obj; cbn [rbind field];
        destruct (is_null (dict_get mu "usage" JNull))|];
       destruct (last (omap agent_text events)); reflexivity).
  - cbn [truthy rbind].
    destruct (last turns) as [u|] eqn:Hlast; cbn [mbind option_bind];
      [destruct (Ht u eq_refl) as [mu ->]; rewrite py_get_obj; cbn [rbind field];
       destruct (is_null (dict_get mu "usage" JNull))|];
      destruct (last (omap agent_text events)); reflexivity.
Qed.

Lemma dict_lookup_keys (m : list (string * json)) (k : string) :
  is_Some (dict_lookup m k) ↔ k ∈ m.*1.
Proof.
  induction m as [|[k' v] m IH]; cbn.
  - split; [by intros [? ?]|by intros ?%elem_of_nil].
  - rewrite elem_of_cons. case_bool_decide; subst.
    + split; [by left|by eauto].
    + rewrite IH. split; [by right|]. by intros [?|?]; [congruence|].
Qed.

Lemma dict_lookup_app (a b : list (string * json)) (k : string) :
  dict_lookup (a ++ b) k
  = match dict_lookup a k with Some v => Some v | None => dict_lookup b k end.
Proof.
  induction a as [|[k' v] a IH]; cbn; [done|]. by case_bool_decide.
Qed.

Lemma entry_keys (k : string) (o : option json) :
  (entry k o).*1 = match o with Some _ => [k] | None => [] end.
Proof. by destruct o. Qed.

(** C3, as amended. On well-formed events (JSON objects, the item of an
    "item.completed" event being absent or an object) the reducer returns
    a summary whose
    [thread_id] is the (true-valued, that is non-empty) [thread_id] of the
    first "thread.started" event, whose [usage] is the non-null [usage]
    of the last "turn.completed" event, and whose [final_message] is the
    text of the last "item.completed" event with an agent-message item of
    non-empty text; each entry is absent when there is no such value.  On
    the session with one thread start (["t1"]), two completed turns and
    one agent message, the summary carries ["t1"], the second usage and
    the message text. *)
Theorem summarize_extracts :
  (∀ (events : list json) (non_json_lines : nat) (returncode : Z),
     Forall (λ e, well_formed_event e = true) events →
     ∃ summary,
       summarize events non_json_lines returncode = Ok summary
       ∧ dict_lookup summary "thread_id" = thread_id_of events
       ∧ dict_lookup summary "usage" = usage_of events
       ∧ dict_lookup summary "final_message" = final_message_of events)
  ∧ summarize Sample.session_events 0 0%Z
    = Ok [ ("type", JStr "result"); ("subtype", JStr "codex_exec");
           ("is_error", JBool false); ("returncode", JInt 0%Z);
           ("event_count", JInt 4%Z); ("non_json_line_count", JInt 0%Z);
           ("thread_id", JStr "t1"); ("usage", Sample.usage2);
           ("final_message", JStr "done") ].
Proof.
  split; [|vm_compute; reflexivity].
  intros events n rc Hwf. eexists. split; [by apply summarize_ok|].
  rewrite !dict_lookup_app.
  destruct (thread_id_of events), (usage_of events), (final_message_of events);
    split_and!; reflexivity.
Qed.

Lemma summarize_extracts_witness :
  ∃ summary,
    summarize Sample.session_events 2 1%Z = Ok summary
    ∧ dict_lookup summary "thread_id" = Some (JStr "t1")
    ∧ dict_lookup summary "usage" = Some Sample.usage2
    ∧ dict_lookup summary "final_message" = Some (JStr "done").
Proof.
  destruct (proj1 summarize_extracts Sample.session_events 2 1%Z) as (summary & H & H1 & H2 & H3).
  { repeat constructor. }
  exists summary. split_and!; [exact H | exact H1 | exact H2 | exact H3].
Defined.

(** C3 as stated fails on events that are JSON objects: after a thread
    start with [thread_id] ["t1"], an "item.completed" event whose item
    is [null] makes [item.get] raise [AttributeError], and no summary, so
    no [thread_id], is produced. *)
Lemma summarize_null_item_raises :
  let events :=
    [ JObj [("type", JStr "thread.started"); ("thread_id", JStr "t1")];
      JObj [("type", JStr "item.completed"); ("item", JNull)] ] in
  Forall (λ e, is_obj e = true) events
  ∧ thread_id_of events = Some (JStr "t1")
  ∧ summarize events 0 0%Z = Raise AttributeError.
Proof. vm_compute. split_and!; [repeat constructor|reflexivity..]. Qed.

(** C6. The summary is sparse.  On well-formed events it always has the
    four mandatory entries and the two counts, never an entry outside the
    nine known ones, and each of [thread_id], [usage] and [final_message]
    exactly when an event supplies its value.  For no events at all it is
    the six fixed entries, with [event_count] 0 and none of the three
    optional entries. *)
Theorem summary_is_sparse :
  (∀ (events : list json) (non_json_lines : nat) (returncode : Z),
     Forall (λ e, well_formed_event e = true) events →
     ∃ summary,
       summarize events non_json_lines returncode = Ok summary
       ∧ (∀ k, k ∈ (mandatory_fields ++ count_fields)%list →
               is_Some (dict_lookup summary k))
       ∧ (∀ k, is_Some (dict_lookup summary k) →
               k ∈ (mandatory_fields ++ count_fields ++ optional_fields)%list)
       ∧ (is_Some (dict_lookup summary "thread_id") ↔
            ∃ e, head (filter (λ e, is_event_of "thread.started" e = true) events) = Some e
                 ∧ truthy (field e "thread_id") = true)
       ∧ (is_Some (dict_lookup summary "usage") ↔
            ∃ e, last (filter (λ e, is_event_of "turn.completed" e = true) events) = Some e
                 ∧ is_null (field e "usage") = false)
       ∧ (is_Some (dict_lookup summary "final_message") ↔
            ∃ e, e ∈ events ∧ is_Some (agent_text e)))
  ∧ (∀ (non_json_lines : nat) (returncode : Z),
       summarize [] non_json_lines returncode
       = Ok (base_summary 0 non_json_lines returncode)
       ∧ dict_lookup (base_summary 0 non_json_lines returncode) "event_count"
         = Some (JInt 0%Z)
       ∧ ∀ k, k ∈ optional_fields →
              dict_lookup (base_summary 0 non_json_lines returncode) k = None).
Proof.
  split.
  - intros events n rc Hwf. eexists. split; [by apply summarize_ok|].
    split_and!.
    + intros k Hk. apply dict_lookup_keys.
      rewrite !fmap_app. apply elem_of_app. left. exact Hk.
    + intros k Hk%dict_lookup_keys. revert Hk.
      rewrite !fmap_app, !entry_keys, !elem_of_app.
      change ((base_summary (length events) n rc).*1)
        with (mandatory_fields ++ count_fields)%list.
      rewrite elem_of_app. unfold optional_fields.
      destruct (thread_id_of events), (usage_of events), (final_message_of events);
        rewrite ?elem_of_cons, ?elem_of_nil; tauto.
    + rewrite !dict_lookup_app. cbn. unfold thread_id_of.
      destruct (head _) as [e|]; cbn.
      * destruct (truthy (field e "thread_id")) eqn:E; cbn.
        -- split; [eauto|done].
        -- destruct (usage_of events), (final_message_of events); cbn;
             (split; [by intros [? ?]|intros (? & [= <-] & ?); congruence]).
      * destruct (usage_of events), (final_message_of events); cbn;
          (split; [by intros [? ?]|by intros (? & ? & ?)]).
    + rewrite !dict_lookup_app. cbn. unfold usage_of.
      destruct (thread_id_of events); cbn;
        (destruct (last _) as [e|]; cbn;
         [destruct (is_null (field e "usage")) eqn:E; cbn;
          [destruct (final_message_of events); cbn;
             (split; [by intros [? ?]|intros (? & [= <-] & ?); congruence])
          |split; [eauto|done]]
         |destruct (final_message_of events); cbn;
            (split; [by intros [? ?]|by intros (? & ? & ?)])]).
    + rewrite !dict_lookup_app. cbn. unfold final_message_of.
      assert (is_Some (last (omap agent_text events)) ↔
              ∃ e, e ∈ events ∧ is_Some (agent_text e)) as <-.
      { split.
        - intros [t Ht]. apply last_Some_elem_of in Ht.
          apply list_elem_of_omap in Ht as (e & ? & ?). eauto.
        - intros (e & He & [t Ht]).
          destruct (last (omap agent_text events)) eqn:El; [done|].
          apply last_None in El.
          assert (t ∈ omap agent_text events) as Hin
            by (apply list_elem_of_omap; eauto).
          rewrite El in Hin. by apply elem_of_nil in Hin. }
      destruct (thread_id_of events), (usage_of events),
        (last (omap agent_text events)); cbn; done.
  - intros n rc. split_and!; [reflexivity..|].
    intros k Hk. unfold optional_fields in Hk.
    repeat (apply elem_of_cons in Hk as [->|Hk]; [reflexivity|]).
    by apply elem_of_nil in Hk.
Qed.

Lemma summary_is_sparse_witness :
  ∃ summary,
    summarize [JObj [("type", JStr "turn.completed"); ("usage", JNull)]] 0 0%Z = Ok summary
    ∧ ¬ is_Some (dict_lookup summary "usage")
    ∧ is_Some (dict_lookup summary "event_count").
Proof.
  destruct (proj1 summary_is_sparse
              [JObj [("type", JStr "turn.completed"); ("usage", JNull)]] 0 0%Z)
    as (summary & H & Hm & _ & _ & Hu & _).
  { repeat constructor. }
  exists summary. split_and!; [exact H| |].
  - intros Hs. apply Hu in Hs as (e & He & Hn).
    injection He as <-. discriminate Hn.
  - apply Hm. do 4 right. left.
Defined.

End ReducerFacts.

(** ** What a computation leaves alone *)

Module Frame.
Import Common.
Local Open Scope py_scope.

Section Preserve.
Context (R : relation state) `{!Reflexive R, !Transitive R}.

(** [m] takes every state to an [R]-related one, whatever it returns. *)
Definition preserves {A} (m : M A) : Prop := ∀ s, R s (m s).2.

Lemma preserves_ret {A} (a : A) : preserves (ret a).
Proof. intros s. reflexivity. Qed.

Lemma preserves_raise {A} (e : exn) : preserves (@raise A e).
Proof. intros s. reflexivity. Qed.

Lemma preserves_lift {A} (r : result A) : preserves (lift r).
Proof. intros s. reflexivity. Qed.

Lemma preserves_get : preserves get.
Proof. intros s. reflexivity. Qed.

Lemma preserves_getenv (name fallback : string) : preserves (getenv name fallback).
Proof. intros s. reflexivity. Qed.

Lemma preserves_isfile (p : string) : preserves (os_path_isfile p).
Proof. intros s. reflexivity. Qed.

Lemma preserves_lexists (p : string) : preserves (os_path_lexists p).
Proof. intros s. reflexivity. Qed.

Lemma preserves_bind {A B} (m : M A) (k : A → M B) :
  preserves m → (∀ a, preserves (k a)) → preserves (bind m k).
Proof.
  intros Hm Hk s. unfold bind. specialize (Hm s).
  destruct (m s) as [[a|e] s']; cbn in *; [|done].
  etrans; [exact Hm|apply Hk].
Qed.

End Preserve.

(** Steps on which the two relations used below differ. *)
Definition same_spawned : relation state := λ s s', spawned s' = spawned s.
Definition same_but_out : relation state :=
  λ s s', env s' = env s ∧ fs s' = fs s ∧ cwd s' = cwd s ∧ spawned s' = spawned s.

#[export] Instance same_spawned_refl : Reflexive same_spawned.
Proof. by intros s. Qed.
#[export] Instance same_spawned_trans : Transitive same_spawned.
Proof. unfold same_spawned. intros s1 s2 s3 H1 H2. congruence. Qed.
#[export] Instance same_but_out_refl : Reflexive same_but_out.
Proof. by intros s. Qed.
#[export] Instance same_but_out_trans : Transitive same_but_out.
Proof. unfold same_but_out. intros s1 s2 s3 (?&?&?&?) (?&?&?&?). split_and!; congruence. Qed.

Lemma spawned_setenv (name value : string) : preserves same_spawned (setenv name value).
Proof. by intros s. Qed.
Lemma spawned_print (text : string) : preserves same_spawned (print text).
Proof. by intros s. Qed.
Lemma spawned_fs_update f : preserves same_spawned (fs_update f).
Proof. intros s. unfold fs_update. by destruct (f _ _). Qed.
Lemma spawned_fs_update_partial f : preserves same_spawned (fs_update_partial f).
Proof. intros s. unfold fs_update_partial. by destruct (f _ _) as [[? ?]|?]. Qed.

Ltac is_class_goal :=
  lazymatch goal with
  | |- Reflexive _ => idtac
  | |- Transitive _ => idtac
  end.

Ltac preserves_step :=
  first
    [ is_class_goal; apply _
    | lazymatch goal with |- ∀ _, _ => intro end
    | apply preserves_bind
    | apply preserves_ret | apply preserves_raise | apply preserves_lift
    | apply preserves_get | apply preserves_getenv
    | apply preserves_isfile | apply preserves_lexists
    | apply spawned_setenv | apply spawned_print | apply spawned_fs_update
    | apply spawned_fs_update_partial
    | match goal with
      | |- preserves _ (if ?b then _ else _) => destruct b
      | |- preserves _ (match ?x with _ => _ end) => destruct x
      | |- preserves _ (let _ := _ in _) => cbv zeta
      end ].

Section WithOracles.
Context {O : Oracles}.

Lemma read_expand_path (p : string) : preserves eq (expand_path p).
Proof. unfold expand_path. repeat preserves_step. Qed.

Lemma read_resolve_source_file (a b : string) (c : option string) :
  preserves eq (resolve_source_file a b c).
Proof.
  unfold resolve_source_file. repeat first [apply read_expand_path | preserves_step].
Qed.

Lemma read_env_truthy (name : string) : preserves eq (env_truthy name).
Proof. unfold env_truthy. repeat preserves_step. Qed.

Lemma read_read_prompt (p : string) : preserves eq (read_prompt p).
Proof.
  unfold read_prompt. repeat preserves_step.
Qed.

Lemma spawned_expand_path (p : string) : preserves same_spawned (expand_path p).
Proof. unfold expand_path. repeat preserves_step. Qed.

Lemma spawned_resolve_source_file (a b : string) (c : option string) :
  preserves same_spawned (resolve_source_file a b c).
Proof.
  unfold resolve_source_file. repeat first [apply spawned_expand_path | preserves_step].
Qed.

Lemma spawned_symlink_file (src dst : string) : preserves same_spawned (symlink_file src dst).
Proof.
  unfold symlink_file, os_makedirs, os_remove, os_symlink.
  repeat first [apply spawned_expand_path | preserves_step].
Qed.

Lemma spawned_materialize (src dst : string) : preserves same_spawned (materialize src dst).
Proof.
  unfold materialize. repeat first [apply spawned_symlink_file | preserves_step].
Qed.

Lemma spawned_sync_entries (home : string) (entries : list (string * string)) :
  ∀ linked missing, preserves same_spawned (sync_entries home entries linked missing).
Proof.
  induction entries as [|[name src] rest IH]; intros linked missing; cbn [sync_entries].
  - apply preserves_ret; apply _.
  - apply preserves_bind; [apply _..|apply spawned_materialize|].
    intros []; apply IH.
Qed.

Lemma spawned_report (a b : string) (l : list string * list string) :
  preserves same_spawned (report a b l).
Proof. unfold report. repeat preserves_step. Qed.

End WithOracles.
End Frame.

(** ** Command assembly *)

Module CommandFacts.
Import Common Frame.
Local Open Scope py_scope.

Section WithOracles.
Context {O : Oracles}.

Lemma with_prompt_str (cmd : list string) (text : string) (s : state) :
  with_prompt cmd (JStr text) s = (Ok (cmd ++ [text])%list, s).
Proof. reflexivity. Qed.

(** The claude vector: whatever is built without the extra arguments,
    then their tokens. *)
Lemma claude_build_cmd_split (s : state) (toks : list string) :
  extra_tokens s "CLAUDE_EXEC_ARGS" = Some toks →
  ∃ flags,
    Claude.build_cmd (without "CLAUDE_EXEC_ARGS" s)
    = (Ok flags, without "CLAUDE_EXEC_ARGS" s)
    ∧ Claude.build_cmd s = (Ok (flags ++ toks)%list, s).
Proof.
  unfold extra_tokens, trimmed. intros Htoks.
  cbv beta iota zeta delta [Claude.build_cmd bind getenv env_truthy ret without].
  cbn [env set_env].
  rewrite lookup_delete_eq, !lookup_delete_ne by done. cbn [default from_option PyStr.strip
    PyStr.lstrip_by PyStr.rstrip_by PyStr.nonempty].
  eexists. split; [reflexivity|].
  destruct (PyStr.nonempty (PyStr.strip (default "" (env s !! "CLAUDE_EXEC_ARGS")))).
  - rewrite Htoks. reflexivity.
  - injection Htoks as <-. by rewrite app_nil_r.
Qed.

Lemma add_codex_tuning_args_eq (cmd : list string) (s : state) :
  Codex.add_codex_tuning_args cmd s = (Ok (cmd ++ Codex.tuning_flags (env s))%list, s).
Proof.
  cbv beta iota zeta delta [Codex.add_codex_tuning_args Codex.tuning_flags bind getenv ret].
  destruct (PyStr.nonempty (PyStr.strip (default "" (env s !! "CODEX_MODEL"))));
    destruct (PyStr.nonempty (PyStr.strip (default "" (env s !! "CODEX_REASONING_EFFORT"))));
    by rewrite <- ?app_assoc, ?app_nil_r.
Qed.

(** The codex vector before the JSON flag, split the same way. *)
Lemma codex_args_split (s : state) (toks : list string) :
  extra_tokens s "CODEX_EXEC_ARGS" = Some toks →
  ∃ flags,
    Codex.args_before_json (without "CODEX_EXEC_ARGS" s)
    = (Ok flags, without "CODEX_EXEC_ARGS" s)
    ∧ Codex.args_before_json s = (Ok (flags ++ toks)%list, s).
Proof.
  unfold extra_tokens, trimmed. intros Htoks.
  unfold Codex.args_before_json, bind. rewrite !add_codex_tuning_args_eq.
  cbv beta iota zeta delta [Codex.tuning_flags getenv ret without].
  cbn [env set_env].
  rewrite lookup_delete_eq, !lookup_delete_ne by done. cbn [default from_option PyStr.strip
    PyStr.lstrip_by PyStr.rstrip_by PyStr.nonempty].
  eexists; split; [reflexivity|].
  destruct (PyStr.nonempty (PyStr.strip (default "" (env s !! "CODEX_EXEC_ARGS")))).
  - rewrite Htoks. reflexivity.
  - injection Htoks as <-. by rewrite app_nil_r.
Qed.

Lemma codex_args_read (s : state) : (Codex.args_before_json s).2 = s.
Proof.
  unfold Codex.args_before_json, bind. rewrite add_codex_tuning_args_eq.
  cbv beta iota zeta delta [getenv ret raise].
  destruct (PyStr.nonempty _); [|reflexivity].
  destruct (shlex_split _); reflexivity.
Qed.

(** Is [CODEX_TRAJECTORY] one of the truthy words. *)
Lemma env_truthy_eq (name : string) (s : state) :
  env_truthy name s
  = (Ok (bool_decide (PyStr.lower (trimmed s name) ∈ truthy_words)), s).
Proof. reflexivity. Qed.

Lemma effective_json_mode_eq (s : state) :
  Codex.effective_json_mode s
  = (Ok (if bool_decide (PyStr.lower (trimmed s "CODEX_TRAJECTORY") ∈ truthy_words)
         then "events"
         else if bool_decide
                   (PyStr.lower (PyStr.strip (default "result" (env s !! "CODEX_JSON_MODE")))
                    ∈ Codex.json_modes)
              then PyStr.lower (PyStr.strip (default "result" (env s !! "CODEX_JSON_MODE")))
              else "result"), s).
Proof. reflexivity. Qed.

Lemma codex_build_cmd_eq (s : state) (args : list string) (mode : string) :
  Codex.args_before_json s = (Ok args, s) →
  Codex.effective_json_mode s = (Ok mode, s) →
  Codex.build_cmd s
  = (Ok (if negb (bool_decide (mode = "off")) && negb (bool_decide ("--json" ∈ args))
         then (args ++ ["--json"])%list else args, mode), s).
Proof.
  intros Ha Hm. unfold Codex.build_cmd, bind. rewrite Ha, Hm. reflexivity.
Qed.

Lemma read_prompt_eq (s : state) (content : string) (m : list (string * json)) :
  FS.read (fs s) (cwd s) prompt_json = inr content →
  json_load content = Ok (JObj m) →
  read_prompt prompt_json s = (Ok (dict_get m "prompt" (JStr "")), s).
Proof.
  intros Hr Hj. unfold read_prompt, bind, get. rewrite Hr, Hj. reflexivity.
Qed.

Lemma subprocess_run_eq (s : state) (cmd : list string) (lines : list line_read) (rc : Z) :
  run_process (env s) (fs s) cmd = inr (lines, rc) →
  subprocess_run cmd s
  = (Ok rc, add_spawn {| sp_cmd := cmd; sp_mode := Passthrough; sp_env := env s |} s).
Proof.
  intros Hr. unfold subprocess_run, bind, get, put. by rewrite Hr.
Qed.

Lemma run_codex_json_result_eq (s : state) (cmd : list string) (lines : list line_read)
    (rc : Z) (events : list json) (n : nat) (summary : list (string * json)) :
  run_process (env s) (fs s) cmd = inr (lines, rc) →
  Codex.collect lines [] 0 = Ok (events, n) →
  Codex.summarize events n rc = Ok summary →
  Codex.run_codex_json_result cmd s
  = (Ok rc, add_out (JsonDoc summary)
              (add_spawn {| sp_cmd := cmd; sp_mode := Captured; sp_env := env s |} s)).
Proof.
  intros Hr Hc Hs. unfold Codex.run_codex_json_result, bind, get, put, lift.
  by rewrite Hr, Hc, Hs.
Qed.

(** When the reading of the output fails, so does the call, with nothing
    printed. *)
Lemma run_codex_json_result_raises (s : state) (cmd : list string)
    (lines : list line_read) (rc : Z) (e : exn) :
  run_process (env s) (fs s) cmd = inr (lines, rc) →
  Codex.collect lines [] 0 = Raise e →
  Codex.run_codex_json_result cmd s
  = (Raise e, add_spawn {| sp_cmd := cmd; sp_mode := Captured; sp_env := env s |} s).
Proof.
  intros Hr Hc. unfold Codex.run_codex_json_result, bind, get, put, lift.
  by rewrite Hr, Hc.
Qed.

(** [main] is the preparation, then the invocation if that returned. *)
Lemma codex_main_eq (s : state) :
  Codex.main s = match Codex.prepare s with
                 | (Ok _, s0) => Codex.invoke s0
                 | (Raise e, s0) => (Raise e, s0)
                 end.
Proof. reflexivity. Qed.

Lemma claude_main_eq (s : state) :
  Claude.main s = match Claude.prepare s with
                  | (Ok _, s0) => Claude.invoke s0
                  | (Raise e, s0) => (Raise e, s0)
                  end.
Proof. reflexivity. Qed.

Lemma spawned_codex_prepare : preserves same_spawned Codex.prepare.
Proof.
  unfold Codex.prepare, Codex.sync_codex_auth, os_makedirs.
  repeat first [ apply spawned_expand_path | apply spawned_resolve_source_file
               | apply spawned_sync_entries | apply spawned_report | preserves_step ].
Qed.

Lemma spawned_claude_prepare : preserves same_spawned Claude.prepare.
Proof.
  unfold Claude.prepare, Claude.prepare_home, Claude.sync_claude_auth,
    Claude.set_effort_level, os_makedirs.
  repeat first [ apply spawned_expand_path | apply spawned_resolve_source_file
               | apply spawned_sync_entries | apply spawned_report | preserves_step ].
Qed.

End WithOracles.
End CommandFacts.

(** ** The invocation stage *)

Module InvokeFacts.
Import Common Frame CommandFacts.
Local Open Scope py_scope.

Section WithOracles.
Context {O : Oracles}.

Lemma subprocess_run_spawned (s : state) (cmd : list string) :
  spawned (subprocess_run cmd s).2
  = (spawned s ++ [{| sp_cmd := cmd; sp_mode := Passthrough; sp_env := env s |}])%list
  ∧ out (subprocess_run cmd s).2 = out s.
Proof.
  unfold subprocess_run, bind, get, put.
  destruct (run_process _ _ _) as [e|[lines rc]]; done.
Qed.

Lemma run_codex_json_result_spawned (s : state) (cmd : list string) :
  spawned (Codex.run_codex_json_result cmd s).2
  = (spawned s ++ [{| sp_cmd := cmd; sp_mode := Captured; sp_env := env s |}])%list.
Proof.
  unfold Codex.run_codex_json_result, bind, get, put, lift.
  destruct (run_process _ _ _) as [e|[lines rc]]; [done|].
  destruct (Codex.collect lines [] 0) as [[events n]|e]; [|done].
  destruct (Codex.summarize events n rc); done.
Qed.

Lemma codex_invoke_no_binary (s : state) :
  which (env s) (fs s) "codex" = None →
  Codex.invoke s = (Ok 1%Z, add_out (Line "[ERROR] codex CLI not found in PATH") s).
Proof. intros H. unfold Codex.invoke, bind, get. by rewrite H. Qed.

Lemma claude_invoke_no_binary (s : state) :
  which (env s) (fs s) "claude" = None →
  Claude.invoke s = (Ok 1%Z, add_out (Line "[ERROR] claude CLI not found in PATH") s).
Proof. intros H. unfold Claude.invoke, bind, get. by rewrite H. Qed.

Lemma codex_invoke_empty_prompt (s : state) (bin content : string)
    (m : list (string * json)) :
  which (env s) (fs s) "codex" = Some bin →
  FS.read (fs s) (cwd s) prompt_json = inr content →
  json_load content = Ok (JObj m) →
  truthy (dict_get m "prompt" (JStr "")) = false →
  Codex.invoke s = (Ok 1%Z, add_out (Line "[ERROR] Empty prompt in /code/prompt.json") s).
Proof.
  intros Hw Hr Hj Ht. unfold Codex.invoke, bind at 1, get. rewrite Hw.
  unfold bind at 1. rewrite (read_prompt_eq _ _ _ Hr Hj), Ht. reflexivity.
Qed.

Lemma claude_invoke_empty_prompt (s : state) (bin content : string)
    (m : list (string * json)) :
  which (env s) (fs s) "claude" = Some bin →
  FS.read (fs s) (cwd s) prompt_json = inr content →
  json_load content = Ok (JObj m) →
  truthy (dict_get m "prompt" (JStr "")) = false →
  Claude.invoke s = (Ok 1%Z, add_out (Line "[ERROR] Empty prompt in /code/prompt.json") s).
Proof.
  intros Hw Hr Hj Ht. unfold Claude.invoke, bind at 1, get. rewrite Hw.
  unfold bind at 1. rewrite (read_prompt_eq _ _ _ Hr Hj), Ht. reflexivity.
Qed.

(** With the binary found, a non-empty string prompt and extra arguments
    that tokenise, the codex invocation builds its vector and hands it,
    prompt last, to one of the two runners. *)
Lemma codex_invoke_run (s : state) (bin content text : string)
    (m : list (string * json)) (toks : list string) :
  which (env s) (fs s) "codex" = Some bin →
  FS.read (fs s) (cwd s) prompt_json = inr content →
  json_load content = Ok (JObj m) →
  dict_get m "prompt" (JStr "") = JStr text →
  text ≠ "" →
  extra_tokens s "CODEX_EXEC_ARGS" = Some toks →
  ∃ cmd mode,
    Codex.build_cmd s = (Ok (cmd, mode), s)
    ∧ Codex.invoke s
      = (if bool_decide (mode = "result")
         then Codex.run_codex_json_result (cmd ++ [text])%list
         else subprocess_run (cmd ++ [text])%list)
          (add_out (running_line cmd) s).
Proof.
  intros Hw Hr Hj Hp Ht Htoks.
  destruct (codex_args_split _ _ Htoks) as (flags & _ & Hargs).
  pose proof (codex_build_cmd_eq _ _ _ Hargs (effective_json_mode_eq s)) as Hb.
  eexists _, _. split; [exact Hb|].
  unfold Codex.invoke, bind at 1, get. rewrite Hw.
  unfold bind at 1. rewrite (read_prompt_eq _ _ _ Hr Hj), Hp.
  assert (truthy (JStr text) = true) as -> by (by destruct text).
  cbn [negb]. unfold bind at 1. rewrite Hb. reflexivity.
Qed.

Lemma claude_invoke_run (s : state) (bin content text : string)
    (m : list (string * json)) (toks : list string) :
  which (env s) (fs s) "claude" = Some bin →
  FS.read (fs s) (cwd s) prompt_json = inr content →
  json_load content = Ok (JObj m) →
  dict_get m "prompt" (JStr "") = JStr text →
  text ≠ "" →
  extra_tokens s "CLAUDE_EXEC_ARGS" = Some toks →
  ∃ cmd,
    Claude.build_cmd s = (Ok cmd, s)
    ∧ Claude.invoke s = subprocess_run (cmd ++ [text])%list (add_out (running_line cmd) s).
Proof.
  intros Hw Hr Hj Hp Ht Htoks.
  destruct (claude_build_cmd_split _ _ Htoks) as (flags & _ & Hb).
  eexists. split; [exact Hb|].
  unfold Claude.invoke, bind at 1, get. rewrite Hw.
  unfold bind at 1. rewrite (read_prompt_eq _ _ _ Hr Hj), Hp.
  assert (truthy (JStr text) = true) as -> by (by destruct text).
  cbn [negb]. unfold bind at 1. rewrite Hb. reflexivity.
Qed.

End WithOracles.
End InvokeFacts.

(** ** Claims about the command vector and the run *)

Module AdapterFacts.
Import Common Frame CommandFacts InvokeFacts.
Local Open Scope py_scope.

Section WithOracles.
Context {O : Oracles}.

(** C7, as amended.  In both adapters the vector ends with the prompt.
    In the claude adapter the tokens of the extra-arguments string come
    right before it, after everything that is built without them.  In the
    codex adapter they come after the fixed and tuning flags, and the one
    flag decided after them, [--json], goes between the tokens and the
    prompt: it is added when the mode is not [off] and no token so far is
    [--json]. *)
Theorem command_vector_order (s : state) (text : string) :
  (∀ toks, extra_tokens s "CLAUDE_EXEC_ARGS" = Some toks →
     ∃ flags,
       Claude.build_cmd (without "CLAUDE_EXEC_ARGS" s)
       = (Ok flags, without "CLAUDE_EXEC_ARGS" s)
       ∧ (cmd <- Claude.build_cmd ;; with_prompt cmd (JStr text)) s
         = (Ok (flags ++ toks ++ [text])%list, s))
  ∧ (∀ toks, extra_tokens s "CODEX_EXEC_ARGS" = Some toks →
       ∃ flags mode,
         Codex.args_before_json (without "CODEX_EXEC_ARGS" s)
         = (Ok flags, without "CODEX_EXEC_ARGS" s)
         ∧ Codex.effective_json_mode s = (Ok mode, s)
         ∧ (built <- Codex.build_cmd ;; with_prompt built.1 (JStr text)) s
           = (Ok (flags ++ toks
                  ++ (if negb (bool_decide (mode = "off"))
                         && negb (bool_decide ("--json" ∈ (flags ++ toks)%list))
                      then ["--json"] else [])
                  ++ [text])%list, s)).
Proof.
  split.
  - intros toks Htoks.
    destruct (claude_build_cmd_split _ _ Htoks) as (flags & Hf & Hb).
    exists flags. split; [exact Hf|].
    unfold bind. rewrite Hb, with_prompt_str. by rewrite <- app_assoc.
  - intros toks Htoks.
    destruct (codex_args_split _ _ Htoks) as (flags & Hf & Hargs).
    eexists flags, _. split; [exact Hf|]. split; [apply effective_json_mode_eq|].
    unfold bind. rewrite (codex_build_cmd_eq _ _ _ Hargs (effective_json_mode_eq s)).
    cbn [fst]. rewrite with_prompt_str.
    destruct (negb _ && negb _); by rewrite <- ?app_assoc.
Qed.

(** C9, as amended.  With [CODEX_TRAJECTORY] truthy the effective mode is
    [events] whatever [CODEX_JSON_MODE] says; the vector carries [--json],
    added at the end unless a [--json] token is there already; and the
    invocation never takes the reduced path: what it prints are plain
    lines, and a process it starts runs in passthrough mode. *)
Theorem trajectory_forces_events (s : state) :
  env_truthy "CODEX_TRAJECTORY" s = (Ok true, s) →
  Codex.effective_json_mode s = (Ok "events", s)
  ∧ (∀ args, Codex.args_before_json s = (Ok args, s) →
       ∃ cmd, Codex.build_cmd s = (Ok (cmd, "events"), s)
              ∧ "--json" ∈ cmd
              ∧ ("--json" ∉ args → cmd = (args ++ ["--json"])%list)
              ∧ ("--json" ∈ args → cmd = args))
  ∧ (∀ o, o ∈ out (Codex.invoke s).2 → o ∈ out s ∨ ∃ text, o = Line text)
  ∧ (∀ sp, sp ∈ spawned (Codex.invoke s).2 → sp ∈ spawned s ∨ sp_mode sp = Passthrough).
Proof.
  rewrite env_truthy_eq. intros [= Htraj].
  assert (Hmode : Codex.effective_json_mode s = (Ok "events", s)).
  { rewrite effective_json_mode_eq. by rewrite Htraj. }
  split; [exact Hmode|]. split.
  { intros args Hargs. rewrite (codex_build_cmd_eq _ _ _ Hargs Hmode).
    eexists. split; [reflexivity|].
    change (bool_decide ("events" = "off")) with false.
    destruct (bool_decide ("--json" ∈ args)) eqn:Hin; cbn [negb andb].
    - apply bool_decide_eq_true in Hin. done.
    - apply bool_decide_eq_false in Hin.
      split_and!; [|done|done]. apply elem_of_app. right. by left. }
  assert (Hinv : ∃ s', (Codex.invoke s).2 = s'
            ∧ (∀ o, o ∈ out s' → o ∈ out s ∨ ∃ text, o = Line text)
            ∧ (∀ sp, sp ∈ spawned s' → sp ∈ spawned s ∨ sp_mode sp = Passthrough)).
  2:{ destruct Hinv as (s' & -> & ? & ?). done. }
  assert (Hline : ∀ t s0, (∀ o, o ∈ out s0 → o ∈ out s ∨ ∃ text, o = Line text) →
            ∀ o, o ∈ out (add_out (Line t) s0) → o ∈ out s ∨ ∃ text, o = Line text).
  { intros t s0 H0 o. cbn. rewrite elem_of_app, list_elem_of_singleton.
    intros [?| ->]; eauto. }
  unfold Codex.invoke, bind at 1, get.
  destruct (which _ _ _) as [bin|].
  2:{ eexists. split; [reflexivity|]. split; [by apply Hline; auto|]. cbn. auto. }
  unfold bind at 1. pose proof (read_read_prompt prompt_json s) as Hread.
  destruct (read_prompt prompt_json s) as [[prompt|e] s1]. all: cbn in Hread; subst s1.
  2:{ eexists. split; [reflexivity|]. auto. }
  destruct (truthy prompt); cbn [negb].
  2:{ eexists. split; [reflexivity|]. split; [by apply Hline; auto|]. cbn. auto. }
  unfold bind at 1. unfold Codex.build_cmd, bind at 1.
  pose proof (codex_args_read s) as Hargs.
  destruct (Codex.args_before_json s) as [[args|e] s1]. all: cbn in Hargs; subst s1.
  2:{ eexists. split; [reflexivity|]. auto. }
  unfold bind at 1. rewrite Hmode. cbn [ret].
  unfold bind at 1. cbn [print]. unfold bind at 1.
  destruct prompt as [| | | |text| |];
    try (eexists; split; [reflexivity|]; split; [by apply Hline; auto|cbn; auto]).
  rewrite with_prompt_str. cbn [bool_decide decide_rel].
  rewrite bool_decide_eq_false_2 by discriminate.
  match goal with |- context [subprocess_run ?c ?st] =>
    destruct (subprocess_run_spawned st c) as [Hsp Hout] end.
  eexists. split; [reflexivity|]. split.
  - intros o. rewrite Hout. by apply Hline; auto.
  - intros sp. rewrite Hsp. cbn [spawned add_out].
    rewrite elem_of_app, list_elem_of_singleton. intros [?| ->]; auto.
Qed.

End WithOracles.
End AdapterFacts.

Module RunFacts.
Import Common Frame CommandFacts InvokeFacts ReducerSpec ReducerFacts.
Local Open Scope py_scope.

Section WithOracles.
Context {O : Oracles}.

(** C4, as amended.  For either adapter, once the preparation has
    returned (it starts no process):
    - binary not found: [main] returns 1 and no process is started;
    - binary found, prompt file an object whose [prompt] is missing or
      empty: the same;
    - binary found, [prompt] a non-empty string, extra arguments that
      tokenise: one process is started on the vector with the prompt
      last, and if it starts, [main] returns its exit code unchanged; in
      reduced mode that is so when the reading loop comes to its end (the
      output decodes and no line makes [json.loads] raise anything but
      [JSONDecodeError]) with well-formed events, and when the loop
      raises, [main] raises the same exception instead. *)
Theorem exit_code_propagation (s s0 : state) :
  (Codex.prepare s = (Ok tt, s0) →
     spawned s0 = spawned s
     ∧ (which (env s0) (fs s0) "codex" = None →
          ∃ s', Codex.main s = (Ok 1%Z, s') ∧ spawned s' = spawned s)
     ∧ (∀ bin content m,
          which (env s0) (fs s0) "codex" = Some bin →
          FS.read (fs s0) (cwd s0) prompt_json = inr content →
          json_load content = Ok (JObj m) →
          truthy (dict_get m "prompt" (JStr "")) = false →
          ∃ s', Codex.main s = (Ok 1%Z, s') ∧ spawned s' = spawned s)
     ∧ (∀ bin content m text toks,
          which (env s0) (fs s0) "codex" = Some bin →
          FS.read (fs s0) (cwd s0) prompt_json = inr content →
          json_load content = Ok (JObj m) →
          dict_get m "prompt" (JStr "") = JStr text →
          text ≠ "" →
          extra_tokens s0 "CODEX_EXEC_ARGS" = Some toks →
          ∃ cmd mode,
            Codex.build_cmd s0 = (Ok (cmd, mode), s0)
            ∧ spawned (Codex.main s).2
              = (spawned s
                 ++ [{| sp_cmd := (cmd ++ [text])%list;
                        sp_mode := if bool_decide (mode = "result")
                                   then Captured else Passthrough;
                        sp_env := env s0 |}])%list
            ∧ ∀ lines rc,
                run_process (env s0) (fs s0) (cmd ++ [text])%list = inr (lines, rc) →
                ((mode = "result" →
                  ∃ events n, Codex.collect lines [] 0 = Ok (events, n)
                              ∧ Forall (λ e, well_formed_event e = true) events) →
                 (Codex.main s).1 = Ok rc)
                ∧ (mode = "result" →
                   ∀ e, Codex.collect lines [] 0 = Raise e →
                        (Codex.main s).1 = Raise e)))
  ∧ (Claude.prepare s = (Ok tt, s0) →
       spawned s0 = spawned s
       ∧ (which (env s0) (fs s0) "claude" = None →
            ∃ s', Claude.main s = (Ok 1%Z, s') ∧ spawned s' = spawned s)
       ∧ (∀ bin content m,
            which (env s0) (fs s0) "claude" = Some bin →
            FS.read (fs s0) (cwd s0) prompt_json = inr content →
            json_load content = Ok (JObj m) →
            truthy (dict_get m "prompt" (JStr "")) = false →
            ∃ s', Claude.main s = (Ok 1%Z, s') ∧ spawned s' = spawned s)
       ∧ (∀ bin content m text toks,
            which (env s0) (fs s0) "claude" = Some bin →
            FS.read (fs s0) (cwd s0) prompt_json = inr content →
            json_load content = Ok (JObj m) →
            dict_get m "prompt" (JStr "") = JStr text →
            text ≠ "" →
            extra_tokens s0 "CLAUDE_EXEC_ARGS" = Some toks →
            ∃ cmd,
              Claude.build_cmd s0 = (Ok cmd, s0)
              ∧ spawned (Claude.main s).2
                = (spawned s
                   ++ [{| sp_cmd := (cmd ++ [text])%list; sp_mode := Passthrough;
                          sp_env := env s0 |}])%list
              ∧ ∀ lines rc,
                  run_process (env s0) (fs s0) (cmd ++ [text])%list = inr (lines, rc) →
                  (Claude.main s).1 = Ok rc)).
Proof.
  split.
  - intros Hprep.
    assert (Hsp : spawned s0 = spawned s).
    { pose proof (spawned_codex_prepare s) as H. by rewrite Hprep in H. }
    assert (Hmain : Codex.main s = Codex.invoke s0) by (by rewrite codex_main_eq, Hprep).
    split; [exact Hsp|]. split_and!.
    + intros Hw. rewrite Hmain, (codex_invoke_no_binary _ Hw). eauto.
    + intros bin content m Hw Hr Hj Ht.
      rewrite Hmain, (codex_invoke_empty_prompt _ _ _ _ Hw Hr Hj Ht). eauto.
    + intros bin content m text toks Hw Hr Hj Hp Ht Htoks.
      destruct (codex_invoke_run _ _ _ _ _ _ Hw Hr Hj Hp Ht Htoks) as (cmd & mode & Hb & Hi).
      exists cmd, mode. split; [exact Hb|]. rewrite Hmain, Hi, <- Hsp.
      destruct (bool_decide (mode = "result")) eqn:Hm.
      * split; [exact (run_codex_json_result_spawned (add_out (running_line cmd) s0) _)|].
        intros lines rc Hrun. apply bool_decide_eq_true in Hm. split.
        -- intros Hwf. destruct (Hwf Hm) as (events & n & Hc & Hall).
           by rewrite (run_codex_json_result_eq (add_out (running_line cmd) s0)
                         _ _ _ _ _ _ Hrun Hc (summarize_ok events n rc Hall)).
        -- intros _ e Hc.
           by rewrite (run_codex_json_result_raises (add_out (running_line cmd) s0)
                         _ _ _ _ Hrun Hc).
      * split; [exact (proj1 (subprocess_run_spawned (add_out (running_line cmd) s0) _))|].
        intros lines rc Hrun. apply bool_decide_eq_false in Hm. split.
        -- intros _. by rewrite (subprocess_run_eq (add_out (running_line cmd) s0) _ _ _ Hrun).
        -- intros Hres. by destruct Hm.
  - intros Hprep.
    assert (Hsp : spawned s0 = spawned s).
    { pose proof (spawned_claude_prepare s) as H. by rewrite Hprep in H. }
    assert (Hmain : Claude.main s = Claude.invoke s0) by (by rewrite claude_main_eq, Hprep).
    split; [exact Hsp|]. split_and!.
    + intros Hw. rewrite Hmain, (claude_invoke_no_binary _ Hw). eauto.
    + intros bin content m Hw Hr Hj Ht.
      rewrite Hmain, (claude_invoke_empty_prompt _ _ _ _ Hw Hr Hj Ht). eauto.
    + intros bin content m text toks Hw Hr Hj Hp Ht Htoks.
      destruct (claude_invoke_run _ _ _ _ _ _ Hw Hr Hj Hp Ht Htoks) as (cmd & Hb & Hi).
      exists cmd. split; [exact Hb|]. rewrite Hmain, Hi, <- Hsp.
      split; [exact (proj1 (subprocess_run_spawned (add_out (running_line cmd) s0) _))|].
      intros lines rc Hrun. by rewrite (subprocess_run_eq (add_out (running_line cmd) s0) _ _ _ Hrun).
Qed.

End WithOracles.
End RunFacts.

Module OptionFacts.
Import Common Frame CommandFacts InvokeFacts.
Local Open Scope py_scope.

Section WithOracles.
Context {O : Oracles}.

(** C8, as amended.
    Claude effort level: a value that, trimmed and lower-cased, is not
    one of [low], [medium], [high] is replaced by [high]; the variable is
    exported with that value and the level is logged; a warning is
    printed first when the value was not blank.  Nothing is raised, so
    [main] goes on to the invocation stage, which starts the process when
    the binary is found, the prompt is a non-empty string and the extra
    arguments tokenise.
    Codex JSON mode: a value outside [result], [events], [off] is replaced
    by [result] (by [events] in trajectory mode) and nothing at all is
    printed; the invocation goes on and starts the process under the same
    conditions. *)
Theorem invalid_option_falls_back (s : state) :
  (PyStr.lower (trimmed s "CLAUDE_CODE_EFFORT_LEVEL") ∉ Claude.effort_levels →
     let level := PyStr.lower (trimmed s "CLAUDE_CODE_EFFORT_LEVEL") in
     let sb :=
       {| env := <["CLAUDE_CODE_EFFORT_LEVEL" := "high"]> (env s);
          fs := fs s; cwd := cwd s;
          out := (out s
                  ++ (if PyStr.nonempty level
                      then [Line ("[WARNING] Invalid CLAUDE_CODE_EFFORT_LEVEL '"
                                  +:+ level +:+ "', defaulting to high")]
                      else [])
                  ++ [Line "[INFO] Claude effort level: high"])%list;
          spawned := spawned s |} in
     Claude.set_effort_level s = (Ok tt, sb)
     ∧ (∀ s', Claude.prepare_home s' = (Ok tt, s) → Claude.main s' = Claude.invoke sb)
     ∧ (∀ bin content m text toks,
          which (env sb) (fs sb) "claude" = Some bin →
          FS.read (fs sb) (cwd sb) prompt_json = inr content →
          json_load content = Ok (JObj m) →
          dict_get m "prompt" (JStr "") = JStr text →
          text ≠ "" →
          extra_tokens sb "CLAUDE_EXEC_ARGS" = Some toks →
          ∃ cmd,
            spawned (Claude.invoke sb).2
            = (spawned s ++ [{| sp_cmd := (cmd ++ [text])%list; sp_mode := Passthrough;
                                sp_env := env sb |}])%list))
  ∧ (PyStr.lower (PyStr.strip (default "result" (env s !! "CODEX_JSON_MODE")))
       ∉ Codex.json_modes →
       let fallback :=
         if bool_decide (PyStr.lower (trimmed s "CODEX_TRAJECTORY") ∈ truthy_words)
         then "events" else "result" in
       Codex.effective_json_mode s = (Ok fallback, s)
       ∧ (∀ bin content m text toks,
            which (env s) (fs s) "codex" = Some bin →
            FS.read (fs s) (cwd s) prompt_json = inr content →
            json_load content = Ok (JObj m) →
            dict_get m "prompt" (JStr "") = JStr text →
            text ≠ "" →
            extra_tokens s "CODEX_EXEC_ARGS" = Some toks →
            ∃ cmd,
              Codex.build_cmd s = (Ok (cmd, fallback), s)
              ∧ spawned (Codex.invoke s).2
                = (spawned s
                   ++ [{| sp_cmd := (cmd ++ [text])%list;
                          sp_mode := if bool_decide (fallback = "result")
                                     then Captured else Passthrough;
                          sp_env := env s |}])%list)).
Proof.
  split.
  - intros Hbad level sb.
    assert (Hset : Claude.set_effort_level s = (Ok tt, sb)).
    { unfold Claude.set_effort_level, bind, getenv, ret, setenv, print.
      fold (trimmed s "CLAUDE_CODE_EFFORT_LEVEL"). fold level.
      rewrite bool_decide_eq_false_2 by done. cbn [negb].
      subst sb. destruct (PyStr.nonempty level); unfold add_out, set_env;
        cbn [env fs cwd out spawned app]; by rewrite <- ?app_assoc. }
    split; [exact Hset|]. split.
    + intros s' Hprep. rewrite claude_main_eq. unfold Claude.prepare, bind.
      by rewrite Hprep, Hset.
    + intros bin content m text toks Hw Hr Hj Hp Ht Htoks.
      destruct (claude_invoke_run _ _ _ _ _ _ Hw Hr Hj Hp Ht Htoks) as (cmd & _ & Hi).
      exists cmd. rewrite Hi.
      exact (proj1 (subprocess_run_spawned (add_out (running_line cmd) sb) _)).
  - intros Hbad fallback.
    assert (Hmode : Codex.effective_json_mode s = (Ok fallback, s)).
    { rewrite effective_json_mode_eq. subst fallback.
      by rewrite (bool_decide_eq_false_2 _ Hbad). }
    split; [exact Hmode|].
    intros bin content m text toks Hw Hr Hj Hp Ht Htoks.
    destruct (codex_invoke_run _ _ _ _ _ _ Hw Hr Hj Hp Ht Htoks) as (cmd & mode & Hb & Hi).
    assert (mode = fallback) as ->.
    { destruct (codex_args_split _ _ Htoks) as (flags & _ & Hargs).
      pose proof (codex_build_cmd_eq _ _ _ Hargs Hmode) as Hb'.
      rewrite Hb in Hb'. by injection Hb'. }
    exists cmd. split; [exact Hb|]. rewrite Hi.
    destruct (bool_decide (fallback = "result")).
    + exact (run_codex_json_result_spawned (add_out (running_line cmd) s) _).
    + exact (proj1 (subprocess_run_spawned (add_out (running_line cmd) s) _)).
Qed.

End WithOracles.
End OptionFacts.

(** ** The claims on concrete runs *)

Module Runs.
Import Common ReducerSpec AdapterFacts RunFacts OptionFacts.
Local Open Scope py_scope.

(** C7 as stated fails for the codex adapter: with [CODEX_EXEC_ARGS=--foo]
    and the default JSON mode the token [--foo] is followed by [--json],
    which is appended after it, and only then by the prompt. *)
Lemma codex_json_flag_follows_extra_args :
  let s := Sample.host_state Sample.env_extra_foo in
  extra_tokens (O := Sample.codex_host) s "CODEX_EXEC_ARGS" = Some ["--foo"]
  ∧ (built <- Codex.build_cmd (O := Sample.codex_host) ;;
     with_prompt built.1 (JStr "hello")) s
    = (Ok ["codex"; "exec"; "--skip-git-repo-check";
           "--dangerously-bypass-approvals-and-sandbox"; "--ephemeral";
           "--foo"; "--json"; "hello"], s).
Proof. vm_compute. split; reflexivity. Qed.

Lemma command_vector_order_witness :
  (let s := Sample.host_state Sample.env_extra_color in
   (cmd <- Claude.build_cmd (O := Sample.claude_host) ;; with_prompt cmd (JStr "hello")) s
   = (Ok ["claude"; "-p"; "--dangerously-skip-permissions"; "--model"; "opus";
          "--output-format"; "stream-json"; "--include-partial-messages"; "--verbose";
          "--color"; "never"; "hello"], s))
  ∧ (let s := Sample.host_state Sample.env_extra_foo in
     (built <- Codex.build_cmd (O := Sample.codex_host) ;;
      with_prompt built.1 (JStr "hello")) s
     = (Ok ["codex"; "exec"; "--skip-git-repo-check";
            "--dangerously-bypass-approvals-and-sandbox"; "--ephemeral";
            "--foo"; "--json"; "hello"], s)).
Proof.
  split.
  - intros s.
    destruct (proj1 (command_vector_order (O := Sample.claude_host) s "hello")
                ["--color"; "never"]) as (flags & Hf & Hb).
    { vm_compute. reflexivity. }
    etrans; [exact Hb|]. revert Hf. vm_compute. by intros [= <-].
  - intros s.
    destruct (proj2 (command_vector_order (O := Sample.codex_host) s "hello")
                ["--foo"]) as (flags & mode & Hf & Hm & Hb).
    { vm_compute. reflexivity. }
    etrans; [exact Hb|]. revert Hf Hm. vm_compute. by intros [= <-] [= <-].
Defined.

(** C9 as stated fails: in trajectory mode with [CODEX_MODEL=--json] the
    vector already holds the token [--json] (as the model name), so the
    flag is not appended. *)
Lemma trajectory_without_json_flag :
  let s := Sample.host_state Sample.env_trajectory_model in
  let args := ["codex"; "exec"; "--skip-git-repo-check";
               "--dangerously-bypass-approvals-and-sandbox"; "--ephemeral";
               "--model"; "--json"] in
  env_truthy "CODEX_TRAJECTORY" s = (Ok true, s)
  ∧ Codex.args_before_json (O := Sample.codex_host) s = (Ok args, s)
  ∧ Codex.build_cmd (O := Sample.codex_host) s = (Ok (args, "events"), s)
  ∧ (Codex.build_cmd (O := Sample.codex_host) s).1 ≠ Ok ((args ++ ["--json"])%list, "events").
Proof. vm_compute. split_and!; (reflexivity || discriminate). Qed.

Lemma trajectory_forces_events_witness :
  let s := Sample.host_state Sample.env_trajectory_off in
  Codex.effective_json_mode s = (Ok "events", s)
  ∧ Codex.build_cmd (O := Sample.codex_host) s
    = (Ok (["codex"; "exec"; "--skip-git-repo-check";
            "--dangerously-bypass-approvals-and-sandbox"; "--ephemeral"; "--json"],
           "events"), s).
Proof.
  intros s.
  destruct (trajectory_forces_events (O := Sample.codex_host) s) as (Hm & Hb & _).
  { vm_compute. reflexivity. }
  split; [exact Hm|].
  destruct (Hb Codex.base_cmd) as (cmd & Hcmd & _ & Happ & _).
  { vm_compute. reflexivity. }
  rewrite Hcmd, Happ; [reflexivity|].
  vm_compute. intros H. by repeat (apply elem_of_cons in H as [H|H]; [discriminate H|]);
    apply elem_of_nil in H.
Defined.

(** C4 as stated fails: the binary is found and the prompt is ["hello"],
    yet with an unbalanced quote in [CODEX_EXEC_ARGS] the tokeniser raises,
    no process is started and no exit code is returned. *)
Lemma unbalanced_extra_args_raise :
  let s := Sample.host_state Sample.env_unbalanced in
  let r := Codex.main (O := Sample.codex_host) s in
  which (Oracles := Sample.codex_host) (env r.2) (fs r.2) "codex" = Some "/usr/bin/codex"
  ∧ (read_prompt (O := Sample.codex_host) prompt_json r.2).1 = Ok (JStr "hello")
  ∧ r.1 = Raise ValueError
  ∧ spawned r.2 = [].
Proof. vm_compute. split_and!; reflexivity. Qed.

Lemma exit_code_propagation_witness :
  (Codex.main (O := Sample.codex_host) (Sample.host_state ∅)).1 = Ok 3%Z
  ∧ (Claude.main (O := Sample.claude_host) (Sample.host_state ∅)).1 = Ok 5%Z
  ∧ (Codex.main (O := MoreSample.codex_host_overflow) (Sample.host_state ∅)).1
    = Raise ValueError.
Proof.
  split_and!.
  - destruct (proj1 (exit_code_propagation (O := Sample.codex_host) (Sample.host_state ∅)
                       (Codex.prepare (O := Sample.codex_host) (Sample.host_state ∅)).2))
      as (_ & _ & _ & H).
    { vm_compute. reflexivity. }
    destruct (H "/usr/bin/codex" Sample.prompt_hello [("prompt", JStr "hello")] "hello" [])
      as (cmd & mode & _ & _ & Hrun).
    + vm_compute. reflexivity.
    + vm_compute. reflexivity.
    + vm_compute. reflexivity.
    + reflexivity.
    + intros [=].
    + vm_compute. reflexivity.
    + destruct (Hrun [] 3%Z) as [Hok _]; [reflexivity|].
      apply Hok. intros _. exists [], 0. split; [reflexivity|constructor].
  - destruct (proj2 (exit_code_propagation (O := Sample.claude_host) (Sample.host_state ∅)
                       (Claude.prepare (O := Sample.claude_host) (Sample.host_state ∅)).2))
      as (_ & _ & _ & H).
    { vm_compute. reflexivity. }
    destruct (H "/usr/bin/claude" Sample.prompt_hello [("prompt", JStr "hello")] "hello" [])
      as (cmd & _ & _ & Hrun).
    + vm_compute. reflexivity.
    + vm_compute. reflexivity.
    + vm_compute. reflexivity.
    + reflexivity.
    + intros [=].
    + vm_compute. reflexivity.
    + apply (Hrun [] 5%Z). reflexivity.
  - destruct (proj1 (exit_code_propagation (O := MoreSample.codex_host_overflow)
                       (Sample.host_state ∅)
                       (Codex.prepare (O := MoreSample.codex_host_overflow)
                          (Sample.host_state ∅)).2))
      as (_ & _ & _ & H).
    { vm_compute. reflexivity. }
    destruct (H "/usr/bin/codex" Sample.prompt_hello [("prompt", JStr "hello")] "hello" [])
      as (cmd & mode & Hb & _ & Hrun).
    + vm_compute. reflexivity.
    + vm_compute. reflexivity.
    + vm_compute. reflexivity.
    + reflexivity.
    + intros [=].
    + vm_compute. reflexivity.
    + assert (Hmode : mode = "result").
      { vm_compute in Hb. by injection Hb as _ <-. }
      destruct (Hrun [Text (MoreSample.line "{}");
                      Text (MoreSample.line (MoreSample.nines 4301))] 0%Z) as [_ Hraise];
        [reflexivity|].
      apply (Hraise Hmode). vm_compute. reflexivity.
Defined.

(** C8 as stated fails for the codex JSON mode: with
    [CODEX_JSON_MODE=bogus] the run goes through in [result] mode and the
    whole output is two information lines and the summary: no warning. *)
Lemma invalid_json_mode_is_silent :
  let s := Sample.host_state Sample.env_bogus_json_mode in
  let r := Codex.main (O := Sample.codex_host) s in
  r.1 = Ok 3%Z
  ∧ out r.2
    = [ Line "[INFO] Codex files not found (skipped): auth.json, config.toml, version.json";
        Line ("[INFO] Running: codex exec --skip-git-repo-check "
              +:+ "--dangerously-bypass-approvals-and-sandbox --ephemeral --json <prompt>");
        JsonDoc (base_summary 0 0 3) ].
Proof. vm_compute. split; reflexivity. Qed.

Lemma invalid_option_falls_back_witness :
  (let s := Sample.host_state Sample.env_effort in
   (Claude.set_effort_level s).1 = Ok tt
   ∧ env (Claude.set_effort_level s).2 !! "CLAUDE_CODE_EFFORT_LEVEL" = Some "high"
   ∧ out (Claude.set_effort_level s).2
     = [ Line "[WARNING] Invalid CLAUDE_CODE_EFFORT_LEVEL 'extreme', defaulting to high";
         Line "[INFO] Claude effort level: high" ])
  ∧ (let s := Sample.host_state Sample.env_bogus_json_mode in
     Codex.effective_json_mode s = (Ok "result", s)).
Proof.
  split.
  - intros s.
    destruct (proj1 (invalid_option_falls_back (O := Sample.claude_host) s)) as (H & _).
    { vm_compute. intros H.
      by repeat (apply elem_of_cons in H as [H|H]; [discriminate H|]);
        apply elem_of_nil in H. }
    rewrite H. split_and!; [reflexivity| |vm_compute; reflexivity].
    cbn [snd env]. apply lookup_insert_eq.
  - intros s.
    destruct (proj2 (invalid_option_falls_back (O := Sample.codex_host) s)) as (H & _).
    { vm_compute. intros H.
      by repeat (apply elem_of_cons in H as [H|H]; [discriminate H|]);
        apply elem_of_nil in H. }
    exact H.
Defined.

End Runs.

(** ** Further properties of the reducer *)

Module ReducerMore.
Import MoreSpec ReducerFacts.
Local Open Scope py_scope.

Section WithOracles.
Context {O : Oracles}.

(** The loop, from any point on: it either comes to the end of the
    output, no step having failed, or stops at the first step that fails. *)
Lemma collect_acc (lines : list line_read) : ∀ (events : list json) (bad : nat),
  match Codex.collect lines events bad with
  | Ok (events', bad') =>
      Forall (λ r, fault r = None) lines
      ∧ events' = (events ++ omap parsed_event lines)%list
      ∧ bad' = (bad + length (filter (λ r, rejected r = true) lines))%nat
  | Raise e =>
      ∃ before r after,
        lines = (before ++ r :: after)%list
        ∧ Forall (λ r, fault r = None) before
        ∧ fault r = Some e
  end.
Proof.
  induction lines as [|r rest IH]; intros events bad.
  { cbn. rewrite app_nil_r, Nat.add_0_r. by split_and!. }
  assert (Hskip : ∀ events0 bad0 (extra : list json) (k : nat),
            fault r = None →
            (extra = match parsed_event r with Some v => [v] | None => [] end) →
            (k = if rejected r then 1 else 0)%nat →
            events0 = (events ++ extra)%list → bad0 = (bad + k)%nat →
            match Codex.collect rest events0 bad0 with
            | Ok (events', bad') =>
                Forall (λ r, fault r = None) (r :: rest)
                ∧ events' = (events ++ omap parsed_event (r :: rest))%list
                ∧ bad' = (bad + length (filter (λ r, rejected r = true) (r :: rest)))%nat
            | Raise e =>
                ∃ before r0 after,
                  (r :: rest) = (before ++ r0 :: after)%list
                  ∧ Forall (λ r, fault r = None) before
                  ∧ fault r0 = Some e
            end).
  { intros events0 bad0 extra k Hf -> -> -> ->. specialize (IH (events ++
      match parsed_event r with Some v => [v] | None => [] end)%list
      (bad + (if rejected r then 1 else 0))%nat).
    destruct (Codex.collect rest _ _) as [[events' bad']|e].
    - destruct IH as (Hall & -> & ->). split_and!; [by constructor| |].
      + cbn [omap list_omap]. rewrite <- app_assoc. by destruct (parsed_event r).
      + destruct (rejected r) eqn:Hrej.
        * rewrite filter_cons_True by done. cbn [length]. lia.
        * rewrite filter_cons_False by (by rewrite Hrej). lia.
    - destruct IH as (before & r0 & after & -> & Hall & Hr0).
      exists (r :: before), r0, after. split_and!; [done|by constructor|done]. }
  destruct r as [raw|].
  2: { cbn [Codex.collect]. exists [], Undecodable, rest. by split_and!. }
  cbn [Codex.collect]. fold (nonblank raw).
  unfold fault, parsed_event, rejected, payload in Hskip.
  destruct (nonblank raw) eqn:Hnb.
  - destruct (json_loads (PyStr.rstrip_char PyStr.newline raw)) as [v|e] eqn:Hj.
    + by apply (Hskip _ _ [v] 0%nat); rewrite ?Nat.add_0_r.
    + destruct e;
        try (exists [], (Text raw), rest; split_and!; [done|constructor|];
             unfold fault, payload; by rewrite Hnb, Hj).
      apply (Hskip _ _ [] 1%nat); rewrite ?app_nil_r; try done. lia.
  - by apply (Hskip _ _ [] 0%nat); rewrite ?app_nil_r, ?Nat.add_0_r.
Qed.

(** Where no step fails, every non-blank line is an event or is counted. *)
Lemma collect_total (lines : list line_read) :
  Forall (λ r, fault r = None) lines →
  (length (omap parsed_event lines) + length (filter (λ r, rejected r = true) lines)
   = length (omap payload lines))%nat.
Proof.
  induction 1 as [|r rest Hr _ IH]; [done|].
  cbn [omap list_omap]. unfold fault, parsed_event, rejected in *.
  destruct r as [raw|]; [|discriminate Hr].
  destruct (payload (Text raw)) as [line|] eqn:Hp.
  - destruct (json_loads line) as [v|e] eqn:Hj.
    + rewrite filter_cons_False by (by rewrite Hp, Hj). cbn [length]. lia.
    + destruct e; try discriminate Hr.
      rewrite filter_cons_True by (by rewrite Hp, Hj). cbn [length]. lia.
  - rewrite filter_cons_False by (by rewrite Hp). exact IH.
Qed.

(** X1.  The loop over the child's output stops at the first step that
    fails, raising what that step raises: [UnicodeDecodeError] where the
    output does not decode, or whatever [json.loads] raises on the line
    other than [JSONDecodeError].  When no step fails it returns the
    parses, in order, of the non-blank lines that parse and the number of
    non-blank lines rejected as malformed; blank lines are skipped, and
    the two numbers add up to the number of non-blank lines. *)
Theorem collect_accounts_for_every_line (lines : list line_read) :
  match Codex.collect lines [] 0 with
  | Ok (events, non_json_lines) =>
      Forall (λ r, fault r = None) lines
      ∧ events = omap parsed_event lines
      ∧ non_json_lines = length (filter (λ r, rejected r = true) lines)
      ∧ (length events + non_json_lines = length (omap payload lines))%nat
  | Raise e =>
      ∃ before r after,
        lines = (before ++ r :: after)%list
        ∧ Forall (λ r, fault r = None) before
        ∧ fault r = Some e
  end.
Proof.
  pose proof (collect_acc lines [] 0) as H.
  destruct (Codex.collect lines [] 0) as [[events bad]|e]; [|exact H].
  destruct H as (Hall & -> & ->). cbn [app Nat.add].
  split_and!; [done..|]. by apply collect_total.
Qed.

End WithOracles.

(** Every failure of the reducer's helpers is an [AttributeError]. *)
Lemma py_get_cases (v : json) (k : string) (d : json) :
  (∃ m, v = JObj m ∧ py_get v k d = Ok (dict_get m k d))
  ∨ (is_obj v = false ∧ py_get v k d = Raise AttributeError).
Proof. destruct v; eauto. Qed.

Lemma first_thread_started_cases (events : list json) :
  first_thread_started events = Raise AttributeError
  ∨ first_thread_started events = Ok JNull
  ∨ ∃ m, first_thread_started events = Ok (JObj m).
Proof.
  induction events as [|e events IH]; [by right; left|].
  cbn [first_thread_started].
  destruct (py_get_cases e "type" JNull) as [(m & -> & ->)|[_ ->]]; [|by left].
  cbn [rbind]. destruct (is_str _ _); [right; right; eauto|exact IH].
Qed.

Lemma turn_completed_events_cases (events : list json) :
  (Forall (λ e, is_obj e = true) events
   ∧ turn_completed_events events
     = Ok (filter (λ e, is_event_of "turn.completed" e = true) events))
  ∨ (Exists (λ e, is_obj e = false) events
     ∧ turn_completed_events events = Raise AttributeError).
Proof.
  induction events as [|e events IH]; [left; split; [constructor|done]|].
  cbn [turn_completed_events].
  destruct (py_get_cases e "type" JNull) as [(m & -> & ->)|[Hno ->]].
  - cbn [rbind]. destruct IH as [[Hall ->]|[Hex ->]].
    + left. split; [by constructor|]. cbn [rbind].
      change (is_str (dict_get m "type" JNull) "turn.completed")
        with (is_event_of "turn.completed" (JObj m)).
      destruct (is_event_of "turn.completed" (JObj m)) eqn:E.
      * by rewrite filter_cons_True.
      * by rewrite filter_cons_False by (by rewrite E).
    + right. split; [by right|done].
  - right. split; [by left|done].
Qed.

Lemma collect_final_messages_raises (events : list json) :
  Forall (λ e, is_obj e = true) events →
  Exists (λ e, well_formed_event e = false) events →
  ∀ acc, collect_final_messages events acc = Raise AttributeError.
Proof.
  intros Hobj. induction Hobj as [|e events He Hobj IH]; intros Hex acc.
  { by apply Exists_nil in Hex. }
  destruct e as [| | | | | |m]; try discriminate He.
  cbn [collect_final_messages]. rewrite py_get_obj. cbn [rbind].
  apply Exists_cons in Hex.
  unfold well_formed_event at 1, is_event_of in Hex. cbn [field item_of is_obj andb] in Hex.
  destruct (is_str (dict_get m "type" JNull) "item.completed"); cbn [negb orb] in *.
  - rewrite py_get_obj. cbn [rbind].
    destruct (py_get_cases (dict_get m "item" (JObj [])) "type" JNull)
      as [(im & Him & Hget)|[Hno Hget]]; rewrite Hget; [|done].
    rewrite Him in *. cbn [rbind is_obj] in *.
    destruct Hex as [Hex|Hex]; [discriminate Hex|].
    rewrite py_get_obj. cbn [rbind].
    destruct (is_str _ _); [destruct (truthy _)|]; by apply IH.
  - destruct Hex as [Hex|Hex]; [discriminate Hex|]. by apply IH.
Qed.

(** X2.  The reducer is all or nothing: it returns a summary when every
    event is well-formed (a JSON object, with an object item on
    "item.completed" events) and raises [AttributeError] as soon as one
    event is not, whatever the other events, the counts and the exit code
    are. *)
Theorem summarize_raises_iff_ill_formed (events : list json) (non_json_lines : nat)
    (returncode : Z) :
  (Forall (λ e, well_formed_event e = true) events ↔
     ∃ summary, summarize events non_json_lines returncode = Ok summary)
  ∧ (Exists (λ e, well_formed_event e = false) events ↔
       summarize events non_json_lines returncode = Raise AttributeError).
Proof.
  assert (Hdec : Forall (λ e, well_formed_event e = true) events
                 ∨ Exists (λ e, well_formed_event e = false) events).
  { clear. induction events as [|e events [IH|IH]]; [left; constructor| |].
    - destruct (well_formed_event e) eqn:E; [left; by constructor|right; by left].
    - right. by right. }
  assert (Hbad : Exists (λ e, well_formed_event e = false) events →
                 summarize events non_json_lines returncode = Raise AttributeError).
  { intros Hex. unfold summarize.
    destruct (first_thread_started_cases events) as [->|[->|[m ->]]]; [done| |];
      cbn [rbind truthy].
    all: try (destruct (negb (FS.is_nil m)); rewrite ?py_get_obj; cbn [rbind]).
    all: destruct (turn_completed_events_cases events) as [[Hobj ->]|[_ ->]]; [|done];
      cbn [rbind].
    all: destruct (last _) as [ev|] eqn:Hlast;
      [ apply last_Some_elem_of, list_elem_of_filter in Hlast as [_ Hin];
        rewrite Forall_forall in Hobj; pose proof (Hobj _ Hin) as Hev;
        destruct ev; try discriminate Hev; rewrite py_get_obj; cbn [rbind];
        rewrite <- Forall_forall in Hobj
      | ].
    all: by rewrite (collect_final_messages_raises events Hobj Hex). }
  split; split.
  - intros Hwf. eexists. by apply summarize_ok.
  - intros [summary Hs]. destruct Hdec as [?|Hex]; [done|].
    rewrite (Hbad Hex) in Hs. discriminate Hs.
  - exact Hbad.
  - intros Hr. destruct Hdec as [Hwf|?]; [|done].
    rewrite (summarize_ok _ _ _ Hwf) in Hr. discriminate Hr.
Qed.

(** X3.  In reduced mode, once the child has been started: when the
    reading loop comes to its end with well-formed events, the adapter
    returns the child's exit code and prints exactly one summary, in
    which [returncode] is the value returned, [is_error] says whether it
    is non-zero, and [event_count] and [non_json_line_count] are the
    loop's two results, adding up to the number of non-blank lines; when
    the loop raises, the adapter raises the same exception, prints
    nothing and returns no exit code. *)
Theorem reduced_run_reports_the_exit_code {O : Oracles} (s : state)
    (cmd : list string) (lines : list line_read) (rc : Z) :
  run_process (env s) (fs s) cmd = inr (lines, rc) →
  (∀ events n,
     Codex.collect lines [] 0 = Ok (events, n) →
     Forall (λ e, well_formed_event e = true) events →
     ∃ summary,
       (Codex.run_codex_json_result cmd s).1 = Ok rc
       ∧ out (Codex.run_codex_json_result cmd s).2 = (out s ++ [JsonDoc summary])%list
       ∧ dict_lookup summary "type" = Some (JStr "result")
       ∧ dict_lookup summary "subtype" = Some (JStr "codex_exec")
       ∧ dict_lookup summary "returncode" = Some (JInt rc)
       ∧ dict_lookup summary "is_error" = Some (JBool (bool_decide (rc ≠ 0%Z)))
       ∧ dict_lookup summary "event_count" = Some (JInt (Z.of_nat (length events)))
       ∧ dict_lookup summary "non_json_line_count" = Some (JInt (Z.of_nat n))
       ∧ (length events + n = length (omap payload lines))%nat)
  ∧ (∀ e,
       Codex.collect lines [] 0 = Raise e →
       (Codex.run_codex_json_result cmd s).1 = Raise e
       ∧ out (Codex.run_codex_json_result cmd s).2 = out s).
Proof.
  intros Hrun. split.
  - intros events n Hc Hwf.
    rewrite (CommandFacts.run_codex_json_result_eq _ _ _ _ _ _ _ Hrun Hc
               (summarize_ok events n rc Hwf)).
    pose proof (collect_acc lines [] 0) as Hacc. rewrite Hc in Hacc.
    destruct Hacc as (Hall & He & Hn). cbn [app Nat.add] in He, Hn.
    eexists. split_and!; try reflexivity.
    + cbn. do 2 f_equal. destruct (Z.eqb_spec rc 0) as [->|Hne]; cbn.
      * by rewrite bool_decide_eq_false_2 by (intros H; by apply H).
      * by rewrite bool_decide_eq_true_2.
    + subst events n. by apply collect_total.
  - intros e Hc. by rewrite (CommandFacts.run_codex_json_result_raises _ _ _ _ _ Hrun Hc).
Qed.

End ReducerMore.

(** ** Further properties of a whole run *)

Module RunMore.
Import Common Frame CommandFacts InvokeFacts MoreSpec.
Local Open Scope py_scope.

(** The environment is the same afterwards. *)
Definition same_env : relation state := λ s s', env s' = env s.

#[export] Instance same_env_refl : Reflexive same_env.
Proof. by intros s. Qed.
#[export] Instance same_env_trans : Transitive same_env.
Proof. unfold same_env. intros s1 s2 s3 H1 H2. congruence. Qed.

Lemma env_print (text : string) : preserves same_env (print text).
Proof. by intros s. Qed.
Lemma env_fs_update f : preserves same_env (fs_update f).
Proof. intros s. unfold fs_update. by destruct (f _ _). Qed.

Lemma env_fs_update_partial f : preserves same_env (fs_update_partial f).
Proof. intros s. unfold fs_update_partial. by destruct (f _ _) as [[? ?]|?]. Qed.

Ltac env_step :=
  first [ apply env_print | apply env_fs_update | apply env_fs_update_partial
        | preserves_step ].

Section WithOracles.
Context {O : Oracles}.

Lemma env_expand_path (p : string) : preserves same_env (expand_path p).
Proof. unfold expand_path. repeat env_step. Qed.

Lemma env_resolve_source_file (a b : string) (c : option string) :
  preserves same_env (resolve_source_file a b c).
Proof. unfold resolve_source_file. repeat first [apply env_expand_path | env_step]. Qed.

Lemma env_materialize (src dst : string) : preserves same_env (materialize src dst).
Proof.
  unfold materialize, symlink_file, os_makedirs, os_remove, os_symlink.
  repeat first [apply env_expand_path | env_step].
Qed.

Lemma env_sync_entries (home : string) (entries : list (string * string)) :
  ∀ linked missing, preserves same_env (sync_entries home entries linked missing).
Proof.
  induction entries as [|[name src] rest IH]; intros linked missing; cbn [sync_entries].
  - apply preserves_ret; apply _.
  - apply preserves_bind; [apply _..|apply env_materialize|].
    intros []; apply IH.
Qed.

Lemma env_sync_codex_auth : preserves same_env Codex.sync_codex_auth.
Proof.
  unfold Codex.sync_codex_auth, report, os_makedirs.
  repeat first [ apply env_expand_path | apply env_resolve_source_file
               | apply env_sync_entries | env_step ].
Qed.

Lemma env_sync_claude_auth : preserves same_env Claude.sync_claude_auth.
Proof.
  unfold Claude.sync_claude_auth, report, os_makedirs.
  repeat first [ apply env_expand_path | apply env_resolve_source_file
               | apply env_sync_entries | env_step ].
Qed.

Lemma codex_prepare_env (s : state) :
  env (Codex.prepare s).2 = pinned "/var/tmp/codex-home" (env s).
Proof.
  unfold Codex.prepare. unfold bind at 1, setenv at 1. unfold bind at 1, setenv at 1.
  match goal with |- env (?m ?st).2 = _ =>
    assert (preserves same_env m) as Hp; [|exact (Hp st)] end.
  unfold os_makedirs.
  repeat first [apply env_sync_codex_auth | env_step].
Qed.

Lemma claude_prepare_home_env (s : state) :
  env (Claude.prepare_home s).2 = pinned "/var/tmp/claude-home" (env s).
Proof.
  unfold Claude.prepare_home. unfold bind at 1, setenv at 1. unfold bind at 1, setenv at 1.
  match goal with |- env (?m ?st).2 = _ =>
    assert (preserves same_env m) as Hp; [|exact (Hp st)] end.
  unfold os_makedirs.
  repeat first [apply env_sync_claude_auth | env_step].
Qed.

(** The effort step always returns, with a level from the list. *)
Lemma set_effort_level_env (s : state) :
  ∃ level s',
    Claude.set_effort_level s = (Ok tt, s')
    ∧ level ∈ Claude.effort_levels
    ∧ env s' = <["CLAUDE_CODE_EFFORT_LEVEL" := level]> (env s)
    ∧ spawned s' = spawned s
    ∧ (PyStr.lower (trimmed s "CLAUDE_CODE_EFFORT_LEVEL") ∈ Claude.effort_levels →
       level = PyStr.lower (trimmed s "CLAUDE_CODE_EFFORT_LEVEL")
       ∧ out s' = (out s ++ [Line ("[INFO] Claude effort level: " +:+ level)])%list).
Proof.
  unfold Claude.set_effort_level, bind, getenv, ret, setenv, print.
  fold (trimmed s "CLAUDE_CODE_EFFORT_LEVEL").
  destruct (bool_decide (PyStr.lower (trimmed s "CLAUDE_CODE_EFFORT_LEVEL")
                         ∈ Claude.effort_levels)) eqn:Hv; cbn [negb].
  - apply bool_decide_eq_true in Hv. eexists _, _. split; [reflexivity|].
    split_and!; [exact Hv|done|done|done].
  - apply bool_decide_eq_false in Hv.
    destruct (PyStr.nonempty _); (eexists "high", _; split; [reflexivity|]);
      (split_and!; [do 2 right; by left|done|done|done]).
Qed.

(** The invocation stage starts no process or exactly one, and the one it
    starts inherits the environment of that moment. *)
Lemma codex_invoke_spawn_cases (s : state) :
  spawned (Codex.invoke s).2 = spawned s
  ∨ ∃ cmd mode,
      spawned (Codex.invoke s).2
      = (spawned s ++ [{| sp_cmd := cmd; sp_mode := mode; sp_env := env s |}])%list.
Proof.
  cut (∃ s', (Codex.invoke s).2 = s'
             ∧ (spawned s' = spawned s
                ∨ ∃ cmd mode,
                    spawned s'
                    = (spawned s
                       ++ [{| sp_cmd := cmd; sp_mode := mode; sp_env := env s |}])%list)).
  { by intros (s' & -> & H). }
  unfold Codex.invoke, bind at 1, get.
  destruct (which _ _ _) as [bin|]; [|eexists; split; [reflexivity|by left]].
  unfold bind at 1. pose proof (read_read_prompt prompt_json s) as Hread.
  destruct (read_prompt prompt_json s) as [[prompt|e] s1]; cbn in Hread; subst s1;
    [|eexists; split; [reflexivity|by left]].
  destruct (truthy prompt); cbn [negb]; [|eexists; split; [reflexivity|by left]].
  unfold bind at 1.
  destruct (Codex.build_cmd s) as [[[cmd mode]|e] s1] eqn:Hb.
  2:{ eexists; split; [reflexivity|]. left. unfold Codex.build_cmd, bind in Hb.
      pose proof (codex_args_read s) as Ha.
      destruct (Codex.args_before_json s) as [[args|e'] s2]; cbn in Ha; subst s2.
      - rewrite effective_json_mode_eq in Hb. discriminate Hb.
      - by injection Hb as _ <-. }
  assert (s1 = s) as ->.
  { unfold Codex.build_cmd, bind in Hb.
    pose proof (codex_args_read s) as Ha.
    destruct (Codex.args_before_json s) as [[args|e'] s2]; cbn in Ha; subst s2;
      [|discriminate Hb].
    rewrite effective_json_mode_eq in Hb. by injection Hb. }
  unfold bind at 1. cbn [print]. unfold bind at 1.
  destruct prompt as [| | | |text| |]; try (eexists; split; [reflexivity|by left]).
  rewrite with_prompt_str. eexists; split; [reflexivity|]. right.
  destruct (bool_decide (mode = "result")).
  - exists (cmd ++ [text])%list, Captured.
    exact (run_codex_json_result_spawned (add_out (running_line cmd) s) _).
  - exists (cmd ++ [text])%list, Passthrough.
    exact (proj1 (subprocess_run_spawned (add_out (running_line cmd) s) _)).
Qed.

Lemma claude_invoke_spawn_cases (s : state) :
  spawned (Claude.invoke s).2 = spawned s
  ∨ ∃ cmd,
      spawned (Claude.invoke s).2
      = (spawned s ++ [{| sp_cmd := cmd; sp_mode := Passthrough; sp_env := env s |}])%list.
Proof.
  cut (∃ s', (Claude.invoke s).2 = s'
             ∧ (spawned s' = spawned s
                ∨ ∃ cmd,
                    spawned s'
                    = (spawned s
                       ++ [{| sp_cmd := cmd; sp_mode := Passthrough;
                              sp_env := env s |}])%list)).
  { by intros (s' & -> & H). }
  unfold Claude.invoke, bind at 1, get.
  destruct (which _ _ _) as [bin|]; [|eexists; split; [reflexivity|by left]].
  unfold bind at 1. pose proof (read_read_prompt prompt_json s) as Hread.
  destruct (read_prompt prompt_json s) as [[prompt|e] s1]; cbn in Hread; subst s1;
    [|eexists; split; [reflexivity|by left]].
  destruct (truthy prompt); cbn [negb]; [|eexists; split; [reflexivity|by left]].
  unfold bind at 1.
  assert (preserves eq Claude.build_cmd) as Hp.
  { unfold Claude.build_cmd. repeat first [apply read_env_truthy | preserves_step]. }
  specialize (Hp s).
  destruct (Claude.build_cmd s) as [[cmd|e] s1]; cbn in Hp; subst s1;
    [|eexists; split; [reflexivity|by left]].
  unfold bind at 1. cbn [print]. unfold bind at 1.
  destruct prompt as [| | | |text| |]; try (eexists; split; [reflexivity|by left]).
  rewrite with_prompt_str. eexists; split; [reflexivity|]. right.
  exists (cmd ++ [text])%list.
  exact (proj1 (subprocess_run_spawned (add_out (running_line cmd) s) _)).
Qed.

Lemma spawned_claude_prepare_home : preserves same_spawned Claude.prepare_home.
Proof.
  unfold Claude.prepare_home, Claude.sync_claude_auth, os_makedirs.
  repeat first [ apply spawned_expand_path | apply spawned_resolve_source_file
               | apply spawned_sync_entries | apply spawned_report | preserves_step ].
Qed.

(** X4.  A run starts at most one process.  The process inherits the
    incoming environment with [HOME] and [XDG_CONFIG_HOME] set to the
    adapter's own writable home, whatever they were before, and, for the
    claude adapter, [CLAUDE_CODE_EFFORT_LEVEL] set to one of the three
    levels. *)
Theorem run_starts_at_most_one_process (s : state) :
  (spawned (Codex.main s).2 = spawned s
   ∨ ∃ cmd mode,
       spawned (Codex.main s).2
       = (spawned s
          ++ [{| sp_cmd := cmd; sp_mode := mode;
                 sp_env := pinned "/var/tmp/codex-home" (env s) |}])%list)
  ∧ (spawned (Claude.main s).2 = spawned s
     ∨ ∃ cmd level,
         level ∈ Claude.effort_levels
         ∧ spawned (Claude.main s).2
           = (spawned s
              ++ [{| sp_cmd := cmd; sp_mode := Passthrough;
                     sp_env := <["CLAUDE_CODE_EFFORT_LEVEL" := level]>
                                 (pinned "/var/tmp/claude-home" (env s)) |}])%list).
Proof.
  split.
  - rewrite codex_main_eq.
    pose proof (spawned_codex_prepare s) as Hsp. pose proof (codex_prepare_env s) as Henv.
    destruct (Codex.prepare s) as [[u|e] s0]; cbn [snd] in *; [|by left].
    unfold same_spawned in Hsp. rewrite <- Hsp, <- Henv.
    destruct (codex_invoke_spawn_cases s0) as [H|(cmd & mode & H)]; [by left|].
    right. by exists cmd, mode.
  - rewrite claude_main_eq. unfold Claude.prepare, bind.
    pose proof (spawned_claude_prepare_home s) as Hsp.
    pose proof (claude_prepare_home_env s) as Henv.
    destruct (Claude.prepare_home s) as [[u|e] sa]; cbn [snd] in *; [|by left].
    destruct (set_effort_level_env sa) as (level & sb & -> & Hlevel & Hb & Hsb & _).
    unfold same_spawned in Hsp. rewrite <- Hsp, <- Hsb, <- Henv.
    destruct (claude_invoke_spawn_cases sb) as [H|(cmd & H)]; [by left|].
    right. exists cmd, level. split; [done|]. by rewrite <- Hb.
Qed.

(** X5.  The effort step always returns and always exports one of [low],
    [medium], [high].  A value that is one of them up to case and
    surrounding blanks is exported in normal form, with no warning.  The
    step is idempotent: run again on its own result it leaves the
    environment as it is and prints only the level. *)
Theorem effort_level_is_normalised (s : state) :
  ∃ level s',
    Claude.set_effort_level s = (Ok tt, s')
    ∧ level ∈ Claude.effort_levels
    ∧ env s' = <["CLAUDE_CODE_EFFORT_LEVEL" := level]> (env s)
    ∧ (PyStr.lower (trimmed s "CLAUDE_CODE_EFFORT_LEVEL") ∈ Claude.effort_levels →
       level = PyStr.lower (trimmed s "CLAUDE_CODE_EFFORT_LEVEL")
       ∧ out s' = (out s ++ [Line ("[INFO] Claude effort level: " +:+ level)])%list)
    ∧ ∃ s'', Claude.set_effort_level s' = (Ok tt, s'')
             ∧ env s'' = env s'
             ∧ out s'' = (out s' ++ [Line ("[INFO] Claude effort level: " +:+ level)])%list.
Proof.
  destruct (set_effort_level_env s) as (level & s' & Hs & Hlevel & Henv & _ & Hvalid).
  exists level, s'. split_and!; [done..|].
  destruct (set_effort_level_env s') as (level' & s'' & Hs' & _ & Henv' & _ & Hvalid').
  assert (Hnorm : PyStr.lower (trimmed s' "CLAUDE_CODE_EFFORT_LEVEL") = level).
  { unfold trimmed. rewrite Henv, lookup_insert_eq. cbn [default from_option id].
    unfold Claude.effort_levels in Hlevel.
    repeat (apply elem_of_cons in Hlevel as [->|Hlevel]; [reflexivity|]).
    by apply elem_of_nil in Hlevel. }
  rewrite Hnorm in Hvalid'. destruct (Hvalid' Hlevel) as [-> Hout].
  exists s''. split_and!; [done| |done].
  rewrite Henv', Henv. by rewrite insert_insert_eq.
Qed.

End WithOracles.
End RunMore.

(** ** Further properties of command assembly and the prompt *)

Module CommandMore.
Import Common Frame CommandFacts InvokeFacts MoreSpec.
Local Open Scope py_scope.

Section WithOracles.
Context {O : Oracles}.

(** X6.  Once the preparation has returned and the binary is found, a
    prompt file that cannot be used makes [main] of either adapter raise:
    [OSError] with the errno when the file cannot be opened, whatever
    [json.load] raises when it raises ([JSONDecodeError] on malformed
    JSON, but also [UnicodeDecodeError], [ValueError], [RecursionError]),
    and [AttributeError] when the document is not an object.  The run
    ends in the state the preparation left: nothing more is printed and
    no process is started. *)
Theorem unusable_prompt_file_raises (s s0 : state) :
  (Codex.prepare s = (Ok tt, s0) →
   ∀ bin, which (env s0) (fs s0) "codex" = Some bin →
     spawned s0 = spawned s
     ∧ (∀ e, FS.read (fs s0) (cwd s0) prompt_json = inl e →
           Codex.main s = (Raise (OSError e), s0))
     ∧ (∀ content e, FS.read (fs s0) (cwd s0) prompt_json = inr content →
           json_load content = Raise e →
           Codex.main s = (Raise e, s0))
     ∧ (∀ content v, FS.read (fs s0) (cwd s0) prompt_json = inr content →
           json_load content = Ok v → is_obj v = false →
           Codex.main s = (Raise AttributeError, s0)))
  ∧ (Claude.prepare s = (Ok tt, s0) →
     ∀ bin, which (env s0) (fs s0) "claude" = Some bin →
       spawned s0 = spawned s
       ∧ (∀ e, FS.read (fs s0) (cwd s0) prompt_json = inl e →
             Claude.main s = (Raise (OSError e), s0))
       ∧ (∀ content e, FS.read (fs s0) (cwd s0) prompt_json = inr content →
             json_load content = Raise e →
             Claude.main s = (Raise e, s0))
       ∧ (∀ content v, FS.read (fs s0) (cwd s0) prompt_json = inr content →
             json_load content = Ok v → is_obj v = false →
             Claude.main s = (Raise AttributeError, s0))).
Proof.
  assert (Hos : ∀ e, FS.read (fs s0) (cwd s0) prompt_json = inl e →
                     read_prompt prompt_json s0 = (Raise (OSError e), s0)).
  { intros e Hr. unfold read_prompt, bind, get. by rewrite Hr. }
  assert (Hjs : ∀ content e, FS.read (fs s0) (cwd s0) prompt_json = inr content →
                     json_load content = Raise e →
                     read_prompt prompt_json s0 = (Raise e, s0)).
  { intros content e Hr Hj. unfold read_prompt, bind, get. by rewrite Hr, Hj. }
  assert (Hat : ∀ content v, FS.read (fs s0) (cwd s0) prompt_json = inr content →
                     json_load content = Ok v → is_obj v = false →
                     read_prompt prompt_json s0 = (Raise AttributeError, s0)).
  { intros content v Hr Hj Hv. unfold read_prompt, bind, get. rewrite Hr, Hj.
    by destruct v. }
  split; intros Hprep bin Hw.
  - assert (Hinv : Codex.main s = (x <- read_prompt prompt_json ;;
        if negb (truthy x) then
          print "[ERROR] Empty prompt in /code/prompt.json" ;;; ret 1%Z
        else
          built <- Codex.build_cmd ;;
          let '(cmd, json_mode) := built in
          print ("[INFO] Running: " +:+ PyStr.join " " cmd +:+ " <prompt>") ;;;
          cmd <- with_prompt cmd x ;;
          if bool_decide (json_mode = "result") then Codex.run_codex_json_result cmd
          else subprocess_run cmd) s0).
    { rewrite codex_main_eq, Hprep. unfold Codex.invoke, bind at 1, get. by rewrite Hw. }
    rewrite Hinv. split_and!.
    + pose proof (spawned_codex_prepare s) as Hsp. by rewrite Hprep in Hsp.
    + intros e Hr. unfold bind at 1. by rewrite (Hos _ Hr).
    + intros content e Hr Hj. unfold bind at 1. by rewrite (Hjs _ _ Hr Hj).
    + intros content v Hr Hj Hv. unfold bind at 1. by rewrite (Hat _ _ Hr Hj Hv).
  - assert (Hinv : Claude.main s = (x <- read_prompt prompt_json ;;
        if negb (truthy x) then
          print "[ERROR] Empty prompt in /code/prompt.json" ;;; ret 1%Z
        else
          cmd <- Claude.build_cmd ;;
          print ("[INFO] Running: " +:+ PyStr.join " " cmd +:+ " <prompt>") ;;;
          cmd <- with_prompt cmd x ;;
          subprocess_run cmd) s0).
    { rewrite claude_main_eq, Hprep. unfold Claude.invoke, bind at 1, get. by rewrite Hw. }
    rewrite Hinv. split_and!.
    + pose proof (spawned_claude_prepare s) as Hsp. by rewrite Hprep in Hsp.
    + intros e Hr. unfold bind at 1. by rewrite (Hos _ Hr).
    + intros content e Hr Hj. unfold bind at 1. by rewrite (Hjs _ _ Hr Hj).
    + intros content v Hr Hj Hv. unfold bind at 1. by rewrite (Hat _ _ Hr Hj Hv).
Qed.

(** X7.  The codex JSON flag follows the effective mode.  Whenever the
    vector before it is built, the mode is one of [result], [events],
    [off].  Unless the mode is [off], [--json] is appended at the end
    when the vector does not hold it and the vector is left as it is when
    it does, so the final vector always holds the flag; when the mode is
    [off] the vector is left as it is.  The mode is [off] only when
    trajectory mode is not on and [CODEX_JSON_MODE] says [off]. *)
Theorem json_flag_follows_mode (s : state) (args : list string) :
  Codex.args_before_json s = (Ok args, s) →
  ∃ cmd mode,
    Codex.build_cmd s = (Ok (cmd, mode), s)
    ∧ mode ∈ Codex.json_modes
    ∧ (mode ≠ "off" → "--json" ∉ args → cmd = (args ++ ["--json"])%list)
    ∧ (mode ≠ "off" → "--json" ∈ args → cmd = args)
    ∧ (mode ≠ "off" → "--json" ∈ cmd)
    ∧ (mode = "off" → cmd = args)
    ∧ (mode = "off" →
       env_truthy "CODEX_TRAJECTORY" s = (Ok false, s)
       ∧ PyStr.lower (PyStr.strip (default "result" (env s !! "CODEX_JSON_MODE"))) = "off").
Proof.
  intros Hargs.
  pose proof (codex_build_cmd_eq _ _ _ Hargs (effective_json_mode_eq s)) as Hb.
  eexists _, _. split; [exact Hb|]. clear Hb. rewrite env_truthy_eq.
  assert (Hshape : ∀ mode : string,
            let cmd := if negb (bool_decide (mode = "off"))
                          && negb (bool_decide ("--json" ∈ args))
                       then (args ++ ["--json"])%list else args in
            (mode ≠ "off" → "--json" ∉ args → cmd = (args ++ ["--json"])%list)
            ∧ (mode ≠ "off" → "--json" ∈ args → cmd = args)
            ∧ (mode ≠ "off" → "--json" ∈ cmd)
            ∧ (mode = "off" → cmd = args)).
  { intros mode cmd. subst cmd.
    destruct (bool_decide (mode = "off")) eqn:Hoff; cbn [negb andb].
    - apply bool_decide_eq_true in Hoff. by split_and!.
    - apply bool_decide_eq_false in Hoff.
      destruct (bool_decide ("--json" ∈ args)) eqn:Hin; cbn [negb].
      + apply bool_decide_eq_true in Hin. by split_and!.
      + apply bool_decide_eq_false in Hin. split_and!; [done|done| |done].
        intros _. apply elem_of_app. right. by left. }
  destruct (bool_decide (PyStr.lower (trimmed s "CODEX_TRAJECTORY") ∈ truthy_words)).
  - destruct (Hshape "events") as (H1 & H2 & H3 & H4).
    split_and!; [by right; left|exact H1|exact H2|exact H3|exact H4|done].
  - destruct (bool_decide (_ ∈ Codex.json_modes)) eqn:Hvalid.
    + apply bool_decide_eq_true in Hvalid.
      destruct (Hshape (PyStr.lower (PyStr.strip (default "result"
                  (env s !! "CODEX_JSON_MODE"))))) as (H1 & H2 & H3 & H4).
      split_and!; [exact Hvalid|exact H1|exact H2|exact H3|exact H4|done].
    + destruct (Hshape "result") as (H1 & H2 & H3 & H4).
      split_and!; [by left|exact H1|exact H2|exact H3|exact H4|done].
Qed.

(** A token appended unless present is present afterwards, and the
    vector only grows at its end. *)
Lemma appended_unless_present (x : string) (l extra : list string) :
  x ∈ extra →
  x ∈ (if negb (bool_decide (x ∈ l)) then (l ++ extra)%list else l)
  ∧ ∃ more, (if negb (bool_decide (x ∈ l)) then (l ++ extra)%list else l)
            = (l ++ more)%list.
Proof.
  intros Hx. destruct (bool_decide (x ∈ l)) eqn:Hin; cbn [negb].
  - apply bool_decide_eq_true in Hin. split; [done|]. exists []. by rewrite app_nil_r.
  - split; [apply elem_of_app; by right|by exists extra].
Qed.

(** X8.  In trajectory mode the claude vector always carries
    [--output-format], [--include-partial-messages] and [--verbose];
    with or without it, the vector starts with the four fixed tokens and
    the model, [opus] when [CLAUDE_MODEL] is unset. *)
Theorem claude_vector_shape (s : state) (cmd : list string) :
  Claude.build_cmd s = (Ok cmd, s) →
  take 5 cmd = ["claude"; "-p"; "--dangerously-skip-permissions"; "--model";
                default "opus" (env s !! "CLAUDE_MODEL")]
  ∧ (env_truthy "CLAUDE_TRAJECTORY" s = (Ok true, s) →
     "--output-format" ∈ cmd ∧ "--include-partial-messages" ∈ cmd ∧ "--verbose" ∈ cmd).
Proof.
  cbv beta iota zeta delta [Claude.build_cmd bind getenv env_truthy ret raise].
  set (model := default "opus" (env s !! "CLAUDE_MODEL")).
  set (base := ["claude"; "-p"; "--dangerously-skip-permissions"; "--model"; model]).
  set (turns := if PyStr.nonempty _ then _ else base).
  assert (Hturns : ∃ more, turns = (base ++ more)%list).
  { subst turns. destruct (PyStr.nonempty _); [eauto|exists []; by rewrite app_nil_r]. }
  destruct Hturns as [more Hturns]. clearbody turns. subst turns.
  set (flags := if bool_decide _ then _ else (base ++ more)%list).
  assert (Hflags : (∃ more', flags = (base ++ more')%list)
                   ∧ (bool_decide (PyStr.lower
                         (PyStr.strip (default "" (env s !! "CLAUDE_TRAJECTORY")))
                         ∈ truthy_words) = true →
                      "--output-format" ∈ flags ∧ "--include-partial-messages" ∈ flags
                      ∧ "--verbose" ∈ flags)).
  { subst flags.
    destruct (bool_decide (_ ∈ truthy_words)); [|split; [eauto|done]].
    destruct (appended_unless_present "--output-format" (base ++ more)
                ["--output-format"; "stream-json"]) as [H1 [m1 E1]]; [by left|].
    rewrite E1 in *.
    destruct (appended_unless_present "--include-partial-messages"
                ((base ++ more) ++ m1) ["--include-partial-messages"])
      as [H2 [m2 E2]]; [by left|].
    rewrite E2 in *.
    destruct (appended_unless_present "--verbose"
                (((base ++ more) ++ m1) ++ m2) ["--verbose"])
      as [H3 [m3 E3]]; [by left|].
    rewrite E3 in *. split.
    - exists (((more ++ m1) ++ m2) ++ m3)%list. by rewrite !app_assoc.
    - intros _. split_and!; [|apply elem_of_app; by left|done].
      apply elem_of_app; left. apply elem_of_app; by left. }
  destruct Hflags as [[more' Hmore] Htraj]. clearbody flags.
  assert (Htake : ∀ rest, take 5 ((base ++ more') ++ rest) = base).
  { intros rest. subst base. by rewrite <- app_assoc. }
  destruct (PyStr.nonempty _).
  - destruct (shlex_split _) as [toks|]; [|discriminate]. intros [= <-].
    subst flags. split; [apply Htake|].
    intros [= Ht]. destruct (Htraj Ht) as (? & ? & ?).
    split_and!; apply elem_of_app; by left.
  - intros [= <-]. subst flags. split; [by rewrite <- (app_nil_r (base ++ more')), Htake|].
    intros [= Ht]. exact (Htraj Ht).
Qed.

End WithOracles.
End CommandMore.

(** ** Further properties of the string helpers *)

Module StringMore.
Import Common MoreSpec.
Local Open Scope py_scope.

Lemma ascii_cases (P : ascii → Prop) :
  (∀ b0 b1 b2 b3 b4 b5 b6 b7 : bool, P (Ascii b0 b1 b2 b3 b4 b5 b6 b7)) → ∀ a, P a.
Proof. intros H [b0 b1 b2 b3 b4 b5 b6 b7]. apply H. Qed.

Lemma lower_char_space (a : ascii) : PyStr.is_space (PyStr.lower_char a) = PyStr.is_space a.
Proof.
  revert a. apply ascii_cases.
  intros [] [] [] [] [] [] [] []; vm_compute; reflexivity.
Qed.

Lemma lower_char_idem (a : ascii) :
  PyStr.lower_char (PyStr.lower_char a) = PyStr.lower_char a.
Proof.
  revert a. apply ascii_cases.
  intros [] [] [] [] [] [] [] []; vm_compute; reflexivity.
Qed.

Lemma app_cons (a : ascii) (r v : string) : String a r +:+ v = String a (r +:+ v).
Proof. reflexivity. Qed.

Lemma app_empty (v : string) : "" +:+ v = v.
Proof. reflexivity. Qed.

Lemma app_empty_r (v : string) : v +:+ "" = v.
Proof. induction v as [|a r IH]; [done|]. by rewrite app_cons, IH. Qed.

Lemma lower_idem (v : string) : PyStr.lower (PyStr.lower v) = PyStr.lower v.
Proof. induction v as [|a r IH]; cbn [String.append all_space PyStr.lstrip_by PyStr.rstrip_by PyStr.lower]; [done|]. by rewrite lower_char_idem, IH. Qed.

Lemma lower_lstrip (v : string) :
  PyStr.lstrip_by PyStr.is_space (PyStr.lower v)
  = PyStr.lower (PyStr.lstrip_by PyStr.is_space v).
Proof.
  induction v as [|a r IH]; cbn [String.append all_space PyStr.lstrip_by PyStr.rstrip_by PyStr.lower]; [done|].
  rewrite lower_char_space. by destruct (PyStr.is_space a).
Qed.

Lemma lower_rstrip (v : string) :
  PyStr.rstrip_by PyStr.is_space (PyStr.lower v)
  = PyStr.lower (PyStr.rstrip_by PyStr.is_space v).
Proof.
  induction v as [|a r IH]; cbn [String.append all_space PyStr.lstrip_by PyStr.rstrip_by PyStr.lower]; [done|].
  rewrite IH, lower_char_space.
  destruct (PyStr.rstrip_by PyStr.is_space r); cbn [String.append all_space PyStr.lstrip_by PyStr.rstrip_by PyStr.lower]; [|done].
  by destruct (PyStr.is_space a).
Qed.

Lemma lower_strip (v : string) : PyStr.lower (PyStr.strip v) = PyStr.strip (PyStr.lower v).
Proof. unfold PyStr.strip. by rewrite lower_lstrip, lower_rstrip. Qed.

Lemma lstrip_pad (pad v : string) :
  all_space pad = true →
  PyStr.lstrip_by PyStr.is_space (pad +:+ v) = PyStr.lstrip_by PyStr.is_space v.
Proof.
  induction pad as [|a r IH]; rewrite ?app_cons, ?app_empty; cbn [all_space PyStr.lstrip_by PyStr.rstrip_by]; [done|].
  intros [Ha Hr]%andb_true_iff. rewrite Ha. by apply IH.
Qed.

Lemma lstrip_all_space (pad : string) :
  all_space pad = true → PyStr.lstrip_by PyStr.is_space pad = "".
Proof.
  induction pad as [|a r IH]; cbn [all_space PyStr.lstrip_by]; [done|].
  intros [Ha Hr]%andb_true_iff. rewrite Ha. by apply IH.
Qed.

Lemma rstrip_all_space (pad : string) :
  all_space pad = true → PyStr.rstrip_by PyStr.is_space pad = "".
Proof.
  induction pad as [|a r IH]; rewrite ?app_cons, ?app_empty; cbn [all_space PyStr.lstrip_by PyStr.rstrip_by]; [done|].
  intros [Ha Hr]%andb_true_iff. by rewrite IH, Ha.
Qed.

Lemma rstrip_pad (v pad : string) :
  all_space pad = true →
  PyStr.rstrip_by PyStr.is_space (v +:+ pad) = PyStr.rstrip_by PyStr.is_space v.
Proof.
  intros Hpad. induction v as [|a r IH]; rewrite ?app_cons, ?app_empty; cbn [all_space PyStr.lstrip_by PyStr.rstrip_by].
  - by apply rstrip_all_space.
  - by rewrite IH.
Qed.

Lemma lstrip_app (v pad : string) :
  all_space pad = true →
  PyStr.rstrip_by PyStr.is_space (PyStr.lstrip_by PyStr.is_space (v +:+ pad))
  = PyStr.rstrip_by PyStr.is_space (PyStr.lstrip_by PyStr.is_space v).
Proof.
  intros Hpad. induction v as [|a r IH]; rewrite ?app_cons, ?app_empty; cbn [all_space PyStr.lstrip_by PyStr.rstrip_by].
  - by rewrite lstrip_all_space.
  - destruct (PyStr.is_space a); [done|].
    change (String a (r +:+ pad)) with (String a r +:+ pad). by apply rstrip_pad.
Qed.

Lemma strip_pad (pad1 v pad2 : string) :
  all_space pad1 = true → all_space pad2 = true →
  PyStr.strip (pad1 +:+ v +:+ pad2) = PyStr.strip v.
Proof.
  intros H1 H2. unfold PyStr.strip. rewrite lstrip_pad by done. by apply lstrip_app.
Qed.

Lemma replace_char_hit (c : ascii) (by_ r : string) :
  PyStr.replace_char c by_ (String c r) = by_ +:+ PyStr.replace_char c by_ r.
Proof.
  cbn [PyStr.replace_char]. unfold PyStr.is_char. by rewrite bool_decide_eq_true_2.
Qed.

Lemma replace_char_miss (c a : ascii) (by_ r : string) :
  a ≠ c →
  PyStr.replace_char c by_ (String a r) = String a (PyStr.replace_char c by_ r).
Proof.
  intros H. cbn [PyStr.replace_char]. unfold PyStr.is_char.
  by rewrite bool_decide_eq_false_2.
Qed.

Lemma unescape_escape (v : string) : unescape (escape v) = v.
Proof.
  unfold escape. induction v as [|a r IH]; [done|].
  destruct (decide (a = ascii_of_nat 92)) as [->|Hb].
  - rewrite replace_char_hit.
    change ((PyStr.backslash +:+ PyStr.backslash) +:+ ?x)
      with (String (ascii_of_nat 92) (String (ascii_of_nat 92) x)).
    rewrite !replace_char_miss by discriminate.
    cbn [unescape]. change (PyStr.is_char (ascii_of_nat 92) (ascii_of_nat 92)) with true.
    cbn iota. by rewrite IH.
  - rewrite (replace_char_miss (ascii_of_nat 92)) by done.
    destruct (decide (a = ascii_of_nat 34)) as [->|Hq].
    + rewrite replace_char_hit.
      change ((PyStr.backslash +:+ PyStr.dquote) +:+ ?x)
        with (String (ascii_of_nat 92) (String (ascii_of_nat 34) x)).
      cbn [unescape]. change (PyStr.is_char (ascii_of_nat 92) (ascii_of_nat 92)) with true.
      cbn iota. by rewrite IH.
    + rewrite replace_char_miss by done.
      cbn [unescape]. unfold PyStr.is_char at 1. rewrite bool_decide_eq_false_2 by done.
      by rewrite IH.
Qed.

(** X10.  The escaping of the reasoning effort loses nothing: reading the
    escaped text back, a backslash making the next character literal,
    gives the value; so different values give different arguments.  The
    escaped value, between double quotes, is what ends the vector that
    [add_codex_tuning_args] appends when the trimmed variable is not
    empty. *)
Theorem escaped_effort_reads_back :
  (∀ v, unescape (escape v) = v)
  ∧ (∀ v1 v2, escape v1 = escape v2 → v1 = v2)
  ∧ (∀ e : gmap string string,
       let effort := PyStr.strip (default "" (e !! "CODEX_REASONING_EFFORT")) in
       PyStr.nonempty effort = true →
       last (Codex.tuning_flags e)
       = Some ("model_reasoning_effort=" +:+ PyStr.dquote +:+ escape effort
               +:+ PyStr.dquote)).
Proof.
  split_and!.
  - exact unescape_escape.
  - intros v1 v2 H. rewrite <- (unescape_escape v1), <- (unescape_escape v2). by rewrite H.
  - intros e effort Hne. unfold Codex.tuning_flags. fold effort. rewrite Hne.
    rewrite last_app. reflexivity.
Qed.

Section WithOracles.
Context {O : Oracles}.

(** X9.  [env_truthy] neither depends on white space around the value nor
    on its case: a variable set to [pad1 + v + pad2], with both pads white
    space, or to [v] lower-cased, is judged as [v] is.  Unset and blank
    values are false. *)
Theorem env_truthy_ignores_padding_and_case (s : state) (name v pad1 pad2 : string) :
  all_space pad1 = true → all_space pad2 = true →
  let judged (value : string) := (env_truthy name (set_env (<[name := value]> (env s)) s)).1 in
  judged (pad1 +:+ v +:+ pad2) = judged v
  ∧ judged (PyStr.lower v) = judged v
  ∧ judged pad1 = Ok false
  ∧ (env_truthy name (without name s)).1 = Ok false.
Proof.
  intros H1 H2 judged. subst judged.
  unfold env_truthy, without, bind, getenv, ret. cbn [fst env set_env].
  rewrite !lookup_insert_eq, lookup_delete_eq. cbn [default]. unfold id.
  split_and!.
  - by rewrite strip_pad.
  - by rewrite <- lower_strip, lower_idem, lower_strip.
  - unfold PyStr.strip. by rewrite lstrip_all_space.
  - done.
Qed.

End WithOracles.
End StringMore.

(** ** What the credential materialiser does to the tree *)

Module SyncMore.
Import Common FS FSFacts MaterializeFacts MoreSpec.
Local Open Scope py_scope.

(** A resolution that ends on something other than a directory ends on an
    entry of the tree. *)
Lemma walk1_found_entry fs follow todo : ∀ cur k n,
  walk1 fs follow cur todo = inl (WFound k (Some n)) → n ≠ Dir → fs !! k = Some n.
Proof.
  induction todo as [|c rest IH]; intros cur k n.
  { cbn [walk1]. intros [= <- <-] Hn. done. }
  destruct (is_dot c) eqn:Hd; [rewrite walk1_dot by done; eauto|].
  destruct (is_dotdot c) eqn:Hdd; [rewrite walk1_dotdot by done; eauto|].
  rewrite walk1_cons by done.
  destruct (fs !! child cur c) as [[x| |t]|] eqn:Hk.
  - destruct (is_nil rest); [|discriminate]. by intros [= <- <-].
  - apply IH.
  - destruct (is_nil rest && negb follow); [by intros [= <- <-]|].
    destruct (PyStr.nonempty t); discriminate.
  - destruct (is_nil rest); discriminate.
Qed.

Lemma walk_found_entry fs follow hops : ∀ cur todo k n,
  walk hops fs follow cur todo = WFound k (Some n) → n ≠ Dir → fs !! k = Some n.
Proof.
  induction hops as [|h IH]; intros cur todo k n; rewrite walk_unfold;
    destruct (walk1 fs follow cur todo) as [r|[c t]] eqn:Hw; try discriminate.
  - intros ->. by apply (walk1_found_entry _ _ _ _ _ _ Hw).
  - intros ->. by apply (walk1_found_entry _ _ _ _ _ _ Hw).
  - apply IH.
Qed.

(** [os.remove] takes away one entry, which is not a directory. *)
Lemma remove_effect (f f2 : gmap (list string) node) (dir : list string) (p : string) :
  remove f dir p = inr f2 →
  ∃ k n, f !! k = Some n ∧ n ≠ Dir ∧ f2 = delete k f.
Proof.
  unfold remove, resolve. destruct (PyStr.nonempty p); [|discriminate].
  destruct (walk _ _ _ _ _) as [k [n|]|e] eqn:Hw; try discriminate.
  destruct n as [x| |t]; [|discriminate|]; intros [= <-].
  - exists k, (File x). split_and!; [|discriminate|reflexivity].
    apply (walk_found_entry _ _ _ _ _ _ _ Hw). discriminate.
  - exists k, (Symlink t). split_and!; [|discriminate|reflexivity].
    apply (walk_found_entry _ _ _ _ _ _ _ Hw). discriminate.
Qed.

(** [os.symlink] adds one entry at a free key. *)
Lemma symlink_effect (f f3 : gmap (list string) node) (dir : list string)
    (target p : string) :
  symlink f dir target p = inr f3 →
  ∃ k, f !! k = None ∧ f3 = <[k := Symlink target]> f.
Proof.
  unfold symlink, resolve. destruct (PyStr.nonempty target); [|discriminate].
  destruct (PyStr.nonempty p); [|discriminate].
  destruct (walk _ _ _ _ _) as [k [n|]|e] eqn:Hw; try discriminate.
  intros [= <-]. exists k. split; [|done]. by apply (walk_absent _ _ _ _ _ _ Hw).
Qed.

(** The trees [symlink_file] can leave: directories added, then at most
    one entry other than a directory taken away, then at most one link to
    [target] added at a free key. *)
Definition reshaped (target : string) (f f' : gmap (list string) node) : Prop :=
  ∃ (f1 : gmap (list string) node) (del ins : option (list string)),
    f ⊆ f1
    ∧ (∀ k n, f1 !! k = Some n → f !! k = None → n = Dir)
    ∧ (∀ k, del = Some k → ∃ n, f1 !! k = Some n ∧ n ≠ Dir)
    ∧ (∀ k, ins = Some k → from_option (λ k, delete k f1) f1 del !! k = None)
    ∧ f' = from_option (λ k, <[k := Symlink target]> (from_option (λ k, delete k f1) f1 del))
                       (from_option (λ k, delete k f1) f1 del) ins.

Lemma reshaped_refl (target : string) (f : gmap (list string) node) : reshaped target f f.
Proof. exists f, None, None. split_and!; [done|congruence|done|done|done]. Qed.

Lemma reshaped_dirs (target : string) (f f' : gmap (list string) node) (k : list string) :
  reshaped target f f' → f !! k = Some Dir → f' !! k = Some Dir.
Proof.
  intros (f1 & del & ins & Hsub & _ & Hdel & Hins & ->) Hk.
  pose proof (lookup_weaken _ _ _ _ Hk Hsub) as Hk1.
  assert (Hk2 : from_option (λ k, delete k f1) f1 del !! k = Some Dir).
  { destruct del as [kd|]; cbn [from_option]; [|done].
    destruct (Hdel kd eq_refl) as (n & Hn & Hnd).
    rewrite lookup_delete_ne; [done|]. intros ->. congruence. }
  destruct ins as [ki|]; cbn [from_option]; [|done].
  rewrite lookup_insert_ne; [done|]. intros ->.
  specialize (Hins k eq_refl). congruence.
Qed.

Lemma reshaped_new (target : string) (f f' : gmap (list string) node)
    (k : list string) (n : node) :
  reshaped target f f' → f !! k = None → f' !! k = Some n →
  n = Dir ∨ n = Symlink target.
Proof.
  intros (f1 & del & ins & Hsub & Hnew & Hdel & Hins & ->) Hk.
  assert (Hk2 : ∀ n, from_option (λ k, delete k f1) f1 del !! k = Some n → n = Dir).
  { intros n0. destruct del as [kd|]; cbn [from_option]; [|by eauto].
    destruct (decide (k = kd)) as [->|Hne]; [by rewrite lookup_delete_eq|].
    rewrite lookup_delete_ne by done. eauto. }
  destruct ins as [ki|]; cbn [from_option]; [|by left; eauto].
  destruct (decide (k = ki)) as [->|Hne].
  - rewrite lookup_insert_eq. intros [= <-]. by right.
  - rewrite lookup_insert_ne by done. left; eauto.
Qed.

Lemma reshaped_one (target : string) (f f' : gmap (list string) node)
    (k k' : list string) :
  reshaped target f f' →
  is_Some (f !! k) → f' !! k ≠ f !! k →
  is_Some (f !! k') → f' !! k' ≠ f !! k' →
  k = k'.
Proof.
  intros (f1 & del & ins & Hsub & Hnew & Hdel & Hins & ->).
  assert (Hsame : ∀ q, is_Some (f !! q) → del ≠ Some q →
            from_option (λ k, <[k := Symlink target]> (from_option (λ k, delete k f1) f1 del))
              (from_option (λ k, delete k f1) f1 del) ins !! q = f !! q).
  { intros q [n Hq] Hd. pose proof (lookup_weaken _ _ _ _ Hq Hsub) as Hq1.
    assert (Hq2 : from_option (λ k, delete k f1) f1 del !! q = Some n).
    { destruct del as [kd|]; cbn [from_option]; [|done].
      rewrite lookup_delete_ne; [done|]. intros ->. done. }
    destruct ins as [ki|]; cbn [from_option]; [|congruence].
    rewrite lookup_insert_ne; [congruence|]. intros ->.
    specialize (Hins q eq_refl). congruence. }
  intros Hk Hck Hk' Hck'.
  destruct (decide (del = Some k)) as [Hd|Hd]; [|by destruct Hck; apply Hsame].
  destruct (decide (del = Some k')) as [Hd'|Hd']; [|by destruct Hck'; apply Hsame].
  congruence.
Qed.

Section WithOracles.
Context {O : Oracles}.

(** [symlink_file] reshapes the tree in that way and touches nothing else
    of the state, whether it returns or raises. *)
Lemma symlink_file_reshapes (s : state) (src dst : string) :
  reshaped (expanded (env s) src) (fs s) (fs (symlink_file src dst s).2)
  ∧ env (symlink_file src dst s).2 = env s
  ∧ cwd (symlink_file src dst s).2 = cwd s
  ∧ out (symlink_file src dst s).2 = out s
  ∧ spawned (symlink_file src dst s).2 = spawned s.
Proof.
  rewrite symlink_file_eq. cbn zeta.
  set (src' := expanded (env s) src). set (dst' := expanded (env s) dst).
  destruct (isfile (fs s) (cwd s) src'); [|split_and!; [apply reshaped_refl|done..]].
  destruct (makedirs (fs s) (cwd s) (PosixPath.dirname dst')) as [[e f1]|f1] eqn:Hmk.
  { destruct (makedirs_partial _ _ _ _ _ Hmk) as [Hsub Hnew].
    destruct s; split_and!; [|done..]. cbn [snd fs set_fs].
    exists f1, None, None. split_and!; [done|done|done|done|done]. }
  destruct (makedirs_extends _ _ _ _ Hmk) as [Hsub Hnew].
  destruct (lexists f1 (cwd s) dst').
  - destruct (remove f1 (cwd s) dst') as [e|f2] eqn:Hrm.
    { destruct s; split_and!; [|done..]. cbn [snd fs set_fs].
      exists f1, None, None. split_and!; [done|done|done|done|done]. }
    destruct (remove_effect _ _ _ _ Hrm) as (kd & n & Hkd & Hn & ->).
    destruct (symlink (delete kd f1) (cwd s) src' dst') as [e|f3] eqn:Hsl.
    { destruct s; split_and!; [|done..]. cbn [snd fs set_fs].
      exists f1, (Some kd), None. split_and!; [done|done| |done|done].
      intros k [= <-]. eauto. }
    destruct (symlink_effect _ _ _ _ _ Hsl) as (ki & Hki & ->).
    destruct s; split_and!; [|done..]. cbn [snd fs set_fs].
    exists f1, (Some kd), (Some ki). split_and!; [done|done| | |done].
    + intros k [= <-]. eauto.
    + intros k [= <-]. done.
  - destruct (symlink f1 (cwd s) src' dst') as [e|f3] eqn:Hsl.
    { destruct s; split_and!; [|done..]. cbn [snd fs set_fs].
      exists f1, None, None. split_and!; [done|done|done|done|done]. }
    destruct (symlink_effect _ _ _ _ _ Hsl) as (ki & Hki & ->).
    destruct s; split_and!; [|done..]. cbn [snd fs set_fs].
    exists f1, None, (Some ki). split_and!; [done|done|done| |done].
    intros k [= <-]. done.
Qed.

Lemma materialize_reshapes (s : state) (src dst : string) :
  reshaped (expanded (env s) src) (fs s) (fs (materialize src dst s).2)
  ∧ env (materialize src dst s).2 = env s
  ∧ cwd (materialize src dst s).2 = cwd s
  ∧ out (materialize src dst s).2 = out s
  ∧ spawned (materialize src dst s).2 = spawned s.
Proof.
  rewrite materialize_eq.
  destruct (isfile (fs s) (cwd s) dst); [split_and!; [apply reshaped_refl|done..]|].
  pose proof (symlink_file_reshapes s src dst) as H.
  destruct (symlink_file src dst s) as [[[]|e] s1]; exact H.
Qed.

(** X11.  One credential entry changes little, whether it ends in an
    outcome or in an exception: the environment, the working directory,
    the output and the processes started are as before; every directory
    of the tree is still a directory; whatever is new in the tree is a
    directory or a link to the expanded source; and at most one entry
    that was there has changed or gone. *)
Theorem materialize_touches_one_entry (s : state) (src dst : string) :
  let s' := (materialize src dst s).2 in
  env s' = env s ∧ cwd s' = cwd s ∧ out s' = out s ∧ spawned s' = spawned s
  ∧ (∀ k, fs s !! k = Some Dir → fs s' !! k = Some Dir)
  ∧ (∀ k n, fs s !! k = None → fs s' !! k = Some n →
            n = Dir ∨ n = Symlink (expanded (env s) src))
  ∧ (∀ k k', is_Some (fs s !! k) → fs s' !! k ≠ fs s !! k →
             is_Some (fs s !! k') → fs s' !! k' ≠ fs s !! k' → k = k').
Proof.
  intros s'. subst s'.
  destruct (materialize_reshapes s src dst) as (Hshape & He & Hc & Ho & Hsp).
  split_and!; [done..| | |].
  - intros k. by apply (reshaped_dirs _ _ _ _ Hshape).
  - intros k n. by apply (reshaped_new _ _ _ _ _ Hshape).
  - intros k k'. by apply (reshaped_one _ _ _ _ _ Hshape).
Qed.

(** X12.  The loop over the credential entries accounts for every entry
    once: when it returns, the two name lists have grown at their ends by
    as many names as there were entries, the names skipped are names of
    entries, and the names made ready are names of entries, some marked
    as mounted directly.  Whether it returns or raises, the environment
    and the processes started are as before and no directory has been
    removed. *)
Theorem sync_accounts_for_every_entry (home : string) (entries : list (string * string)) :
  ∀ (linked missing : list string) (s : state),
    let r := sync_entries home entries linked missing s in
    env r.2 = env s ∧ spawned r.2 = spawned s
    ∧ (∀ k, fs s !! k = Some Dir → fs r.2 !! k = Some Dir)
    ∧ ∀ linked' missing', r.1 = Ok (linked', missing') →
        ∃ ready skipped,
          linked' = (linked ++ ready)%list ∧ missing' = (missing ++ skipped)%list
          ∧ (length ready + length skipped = length entries)%nat
          ∧ (∀ n, n ∈ skipped → n ∈ entries.*1)
          ∧ (∀ n, n ∈ ready →
               ∃ name, name ∈ entries.*1
                       ∧ (n = name ∨ n = name +:+ " (mounted directly)")).
Proof.
  induction entries as [|[name src] rest IH]; intros linked missing s r; subst r.
  { cbn [sync_entries ret fst snd]. split_and!; [done..|].
    intros linked' missing' [= <- <-]. exists [], [].
    rewrite !app_nil_r. split_and!; [done..| |]; intros n Hn; by apply elem_of_nil in Hn. }
  cbn [sync_entries]. unfold bind.
  destruct (materialize_reshapes s src (PosixPath.join home name))
    as (Hshape & He & _ & _ & Hsp).
  destruct (materialize src (PosixPath.join home name) s) as [[o|e] s1] eqn:Hm;
    cbn [fst snd] in *.
  2: { split_and!; [done..| |done]. intros k. by apply (reshaped_dirs _ _ _ _ Hshape). }
  assert (Hstep : ∀ (l1 m1 ready1 skipped1 : list string),
            l1 = (linked ++ ready1)%list → m1 = (missing ++ skipped1)%list →
            (length ready1 + length skipped1 = 1)%nat →
            (∀ n, n ∈ skipped1 → n = name) →
            (∀ n, n ∈ ready1 → n = name ∨ n = name +:+ " (mounted directly)") →
            let r := sync_entries home rest l1 m1 s1 in
            env r.2 = env s ∧ spawned r.2 = spawned s
            ∧ (∀ k, fs s !! k = Some Dir → fs r.2 !! k = Some Dir)
            ∧ ∀ linked' missing', r.1 = Ok (linked', missing') →
                ∃ ready skipped,
                  linked' = (linked ++ ready)%list ∧ missing' = (missing ++ skipped)%list
                  ∧ (length ready + length skipped = S (length rest))%nat
                  ∧ (∀ n, n ∈ skipped → n ∈ name :: rest.*1)
                  ∧ (∀ n, n ∈ ready →
                       ∃ name0, name0 ∈ name :: rest.*1
                                ∧ (n = name0 ∨ n = name0 +:+ " (mounted directly)"))).
  { intros l1 m1 ready1 skipped1 -> -> Hlen Hsk Hrd r.
    destruct (IH (linked ++ ready1)%list (missing ++ skipped1)%list s1)
      as (He1 & Hsp1 & Hd1 & Hres1).
    subst r. split_and!; [congruence|congruence| |].
    - intros k Hk. apply Hd1. by apply (reshaped_dirs _ _ _ _ Hshape).
    - intros linked' missing' Hr.
      destruct (Hres1 _ _ Hr) as (ready & skipped & -> & -> & Hl & Hs & Hr').
      exists (ready1 ++ ready)%list, (skipped1 ++ skipped)%list.
      rewrite !app_assoc, !length_app. split_and!; [done|done|lia| |].
      + intros n [Hn|Hn]%elem_of_app; apply elem_of_cons;
          [left; by apply Hsk|right; by apply Hs].
      + intros n [Hn|Hn]%elem_of_app.
        * exists name. split; [apply elem_of_cons; by left|by apply Hrd].
        * destruct (Hr' n Hn) as (name0 & Hin & Hcase). exists name0.
          split; [apply elem_of_cons; by right|done]. }
  destruct o.
  - apply (Hstep _ _ [name +:+ " (mounted directly)"] []); [done|by rewrite app_nil_r|done| |].
    + intros n Hn. by apply elem_of_nil in Hn.
    + intros n Hn. apply list_elem_of_singleton in Hn. by right.
  - apply (Hstep _ _ [name] []); [done|by rewrite app_nil_r|done| |].
    + intros n Hn. by apply elem_of_nil in Hn.
    + intros n Hn. apply list_elem_of_singleton in Hn. by left.
  - apply (Hstep _ _ [] [name]); [by rewrite app_nil_r|done|done| |].
    + intros n Hn. by apply list_elem_of_singleton in Hn.
    + intros n Hn. by apply elem_of_nil in Hn.
Qed.

End WithOracles.
End SyncMore.

(** ** Closed instances of the further properties *)

Module MoreRuns.
Import Common MoreSpec ReducerSpec.
Local Open Scope py_scope.

(** [os.makedirs] where it fails: the directory made on the way stays,
    a dangling link in last position is in the way ([EEXIST]) and in
    directory position leads nowhere ([ENOENT]); a name that ends in [.]
    is made up to there. *)
Example makedirs_failures :
  match FS.makedirs MoreSample.small_tree [] "/a/new/../f/z" with
  | inl (e, f) => e = FS.ENOTDIR ∧ f !! ["a"; "new"] = Some FS.Dir
  | inr _ => False
  end
  ∧ match FS.makedirs MoreSample.small_tree [] "/l" with
    | inl (e, f) => e = FS.EEXIST ∧ f !! ["l"] = Some (FS.Symlink "/gone/x")
    | inr _ => False
    end
  ∧ match FS.makedirs MoreSample.small_tree [] "/l/x" with
    | inl (e, _) => e = FS.ENOENT
    | inr _ => False
    end
  ∧ match FS.makedirs MoreSample.small_tree ["a"] "p/q/." with
    | inl _ => False
    | inr f => f !! ["a"; "p"; "q"] = Some FS.Dir
    end.
Proof. vm_compute. split_and!; reflexivity. Qed.

(** A line holding an integer of 4301 digits ends the reduced run with
    [ValueError], and output that does not decode ends it with
    [UnicodeDecodeError]: the process has been started, nothing is
    printed after the line announcing it, and no exit code is returned. *)
Example reading_failures_end_the_run :
  let r := Codex.main (O := MoreSample.codex_host_overflow) (Sample.host_state ∅) in
  let r' := Codex.main (O := MoreSample.codex_host_garbled) (Sample.host_state ∅) in
  r.1 = Raise ValueError ∧ length (spawned r.2) = 1%nat
  ∧ r'.1 = Raise UnicodeDecodeError ∧ length (spawned r'.2) = 1%nat
  ∧ out r.2 = out r'.2.
Proof. vm_compute. split_and!; reflexivity. Qed.

Lemma summarize_raises_iff_ill_formed_witness :
  (∃ summary, Codex.summarize Sample.session_events 0 0%Z = Ok summary)
  ∧ Codex.summarize [JObj []; JInt 42%Z] 3 1%Z = Raise AttributeError.
Proof.
  split.
  - apply (proj1 (proj1 (ReducerMore.summarize_raises_iff_ill_formed
                           Sample.session_events 0 0%Z))).
    repeat (constructor; [vm_compute; reflexivity|]). constructor.
  - apply (proj1 (proj2 (ReducerMore.summarize_raises_iff_ill_formed
                           [JObj []; JInt 42%Z] 3 1%Z))).
    apply Exists_cons_tl, Exists_cons_hd. vm_compute. reflexivity.
Defined.

Lemma reduced_run_reports_the_exit_code_witness :
  let s := Sample.host_state ∅ in
  (∃ summary,
     (Codex.run_codex_json_result (O := MoreSample.codex_host_mixed) ["codex"] s).1 = Ok 2%Z
     ∧ out (Codex.run_codex_json_result (O := MoreSample.codex_host_mixed) ["codex"] s).2
       = (out s ++ [JsonDoc summary])%list
     ∧ dict_lookup summary "returncode" = Some (JInt 2%Z)
     ∧ dict_lookup summary "event_count" = Some (JInt 2%Z)
     ∧ dict_lookup summary "non_json_line_count" = Some (JInt 1%Z))
  ∧ (Codex.run_codex_json_result (O := MoreSample.codex_host_overflow) ["codex"] s).1
    = Raise ValueError
  ∧ (Codex.run_codex_json_result (O := MoreSample.codex_host_garbled) ["codex"] s).1
    = Raise UnicodeDecodeError
  ∧ out (Codex.run_codex_json_result (O := MoreSample.codex_host_garbled) ["codex"] s).2 = [].
Proof.
  intros s. split_and!.
  - destruct (ReducerMore.reduced_run_reports_the_exit_code
                (O := MoreSample.codex_host_mixed) s ["codex"]
                (Text <$> MoreSample.chatter) 2%Z eq_refl) as [Hok _].
    destruct (Hok [JObj []; JObj []] 1%nat) as (summary & H1 & H2 & _ & _ & H3 & _ & H4 & H5 & _).
    + vm_compute. reflexivity.
    + repeat constructor.
    + exists summary. split_and!; [exact H1|exact H2|exact H3|exact H4|exact H5].
  - destruct (ReducerMore.reduced_run_reports_the_exit_code
                (O := MoreSample.codex_host_overflow) s ["codex"]
                [Text (MoreSample.line "{}"); Text (MoreSample.line (MoreSample.nines 4301))]
                0%Z eq_refl) as [_ Hraise].
    apply (Hraise ValueError). vm_compute. reflexivity.
  - destruct (ReducerMore.reduced_run_reports_the_exit_code
                (O := MoreSample.codex_host_garbled) s ["codex"]
                [Text (MoreSample.line "{}"); Undecodable] 0%Z eq_refl) as [_ Hraise].
    apply (Hraise UnicodeDecodeError). vm_compute. reflexivity.
  - destruct (ReducerMore.reduced_run_reports_the_exit_code
                (O := MoreSample.codex_host_garbled) s ["codex"]
                [Text (MoreSample.line "{}"); Undecodable] 0%Z eq_refl) as [_ Hraise].
    apply (Hraise UnicodeDecodeError). vm_compute. reflexivity.
Defined.

Lemma effort_level_is_normalised_witness :
  ∃ s', Claude.set_effort_level (Sample.host_state MoreSample.env_effort_low) = (Ok tt, s')
        ∧ env s' !! "CLAUDE_CODE_EFFORT_LEVEL" = Some "low"
        ∧ out s' = [Line "[INFO] Claude effort level: low"].
Proof.
  destruct (RunMore.effort_level_is_normalised (Sample.host_state MoreSample.env_effort_low))
    as (level & s' & Hrun & _ & Henv & Hvalid & _).
  destruct Hvalid as [-> Hout].
  { vm_compute. constructor. }
  exists s'. split_and!; [exact Hrun| |].
  - rewrite Henv. vm_compute. reflexivity.
  - rewrite Hout. vm_compute. reflexivity.
Defined.

Lemma unusable_prompt_file_raises_witness :
  let s := Sample.world ∅ MoreSample.number_prompt_tree [] in
  let s' := Sample.world ∅ MoreSample.latin1_prompt_tree [] in
  (Codex.main (O := Sample.codex_host) s).1 = Raise AttributeError
  ∧ spawned (Codex.main (O := Sample.codex_host) s).2 = []
  ∧ (Claude.main (O := Sample.claude_host) s).1 = Raise AttributeError
  ∧ (Codex.main (O := MoreSample.codex_host_utf8) s').1 = Raise UnicodeDecodeError.
Proof.
  intros s s'.
  destruct (proj1 (CommandMore.unusable_prompt_file_raises (O := Sample.codex_host) s
                     (Codex.prepare (O := Sample.codex_host) s).2))
    with (bin := "/usr/bin/codex") as (Hsp & _ & _ & Hattr).
  { vm_compute. reflexivity. }
  { vm_compute. reflexivity. }
  destruct (proj2 (CommandMore.unusable_prompt_file_raises (O := Sample.claude_host) s
                     (Claude.prepare (O := Sample.claude_host) s).2))
    with (bin := "/usr/bin/claude") as (_ & _ & _ & Hattr').
  { vm_compute. reflexivity. }
  { vm_compute. reflexivity. }
  destruct (proj1 (CommandMore.unusable_prompt_file_raises (O := MoreSample.codex_host_utf8) s'
                     (Codex.prepare (O := MoreSample.codex_host_utf8) s').2))
    with (bin := "/usr/bin/codex") as (_ & _ & Hload & _).
  { vm_compute. reflexivity. }
  { vm_compute. reflexivity. }
  rewrite (Hattr "42" (JInt 42%Z)), (Hattr' "42" (JInt 42%Z)),
    (Hload MoreSample.latin1_bytes UnicodeDecodeError);
    try (vm_compute; reflexivity).
  split_and!; [reflexivity|exact Hsp|reflexivity|reflexivity].
Defined.

Lemma json_flag_follows_mode_witness :
  let s := Sample.host_state Sample.env_extra_foo in
  Codex.build_cmd (O := Sample.codex_host) s
  = (Ok ((Codex.base_cmd ++ ["--foo"; "--json"])%list, "result"), s).
Proof.
  intros s.
  destruct (CommandMore.json_flag_follows_mode (O := Sample.codex_host) s
              (Codex.base_cmd ++ ["--foo"])%list)
    as (cmd & mode & Hb & _ & Hadd & _).
  { vm_compute. reflexivity. }
  assert (Hmode : mode = "result").
  { clear Hadd. vm_compute in Hb. by injection Hb as _ <-. }
  subst mode. rewrite Hb, Hadd.
  - by rewrite <- app_assoc.
  - discriminate.
  - vm_compute. intros Hin. repeat (apply elem_of_cons in Hin as [Heq|Hin];
      [discriminate Heq|]). by apply elem_of_nil in Hin.
Defined.

Lemma claude_vector_shape_witness :
  let s := Sample.host_state Sample.env_extra_color in
  ∃ cmd, Claude.build_cmd (O := Sample.claude_host) s = (Ok cmd, s)
         ∧ take 5 cmd = ["claude"; "-p"; "--dangerously-skip-permissions"; "--model"; "opus"]
         ∧ "--verbose" ∈ cmd.
Proof.
  intros s. eexists. split; [vm_compute; reflexivity|].
  destruct (CommandMore.claude_vector_shape (O := Sample.claude_host) s
              ["claude"; "-p"; "--dangerously-skip-permissions"; "--model"; "opus";
               "--output-format"; "stream-json"; "--include-partial-messages";
               "--verbose"; "--color"; "never"]) as [Htake Htraj].
  { vm_compute. reflexivity. }
  split; [exact Htake|]. apply Htraj. vm_compute. reflexivity.
Defined.

Lemma env_truthy_ignores_padding_and_case_witness :
  let s := Sample.world ∅ ∅ [] in
  (env_truthy "CODEX_TRAJECTORY"
     (set_env (<["CODEX_TRAJECTORY" := "  " +:+ "YES" +:+ " "]> (env s)) s)).1
  = (env_truthy "CODEX_TRAJECTORY"
       (set_env (<["CODEX_TRAJECTORY" := "YES"]> (env s)) s)).1.
Proof.
  intros s.
  apply (StringMore.env_truthy_ignores_padding_and_case s "CODEX_TRAJECTORY" "YES" "  " " ");
    reflexivity.
Defined.

Lemma escaped_effort_reads_back_witness :
  last (Codex.tuning_flags MoreSample.env_odd_effort)
  = Some ("model_reasoning_effort=" +:+ PyStr.dquote +:+ escape MoreSample.odd_effort
          +:+ PyStr.dquote)
  ∧ unescape (escape MoreSample.odd_effort) = MoreSample.odd_effort.
Proof.
  destruct StringMore.escaped_effort_reads_back as (Hback & _ & Hlast).
  split; [|apply Hback].
  apply (Hlast MoreSample.env_odd_effort). vm_compute. reflexivity.
Defined.

Lemma materialize_touches_one_entry_witness :
  let s := Sample.world ∅ Sample.home_with_stale_link [] in
  let s' := (materialize (O := Sample.plain) "/host/auth.json" Sample.auth_dst s).2 in
  fs s' !! ["home"; ".codex"] = Some FS.Dir
  ∧ fs s' !! Sample.auth_key = Some (FS.Symlink "/host/auth.json")
  ∧ fs s' !! ["host"; "auth.json"] = Some (FS.File "secret").
Proof.
  intros s s'.
  destruct (SyncMore.materialize_touches_one_entry (O := Sample.plain) s
              "/host/auth.json" Sample.auth_dst) as (_ & _ & _ & _ & Hdir & _).
  split_and!.
  - apply Hdir. vm_compute. reflexivity.
  - vm_compute. reflexivity.
  - vm_compute. reflexivity.
Defined.

Lemma sync_accounts_for_every_entry_witness :
  let s := Sample.world ∅ Sample.home_with_stale_link [] in
  ∃ ready skipped,
    (sync_entries (O := Sample.plain) "/home/.codex" MoreSample.two_entries [] [] s).1
    = Ok (ready, skipped)
    ∧ (length ready + length skipped = 2)%nat.
Proof.
  intros s.
  destruct (SyncMore.sync_accounts_for_every_entry (O := Sample.plain) "/home/.codex"
              MoreSample.two_entries [] [] s) as (_ & _ & _ & Hres).
  assert (Hrun : (sync_entries (O := Sample.plain) "/home/.codex" MoreSample.two_entries
                    [] [] s).1 = Ok (["auth.json"], ["config.toml"])).
  { vm_compute. reflexivity. }
  destruct (Hres _ _ Hrun) as (ready & skipped & Hl & Hm & Hlen & _).
  exists ["auth.json"], ["config.toml"]. split; [exact Hrun|].
  cbn [app] in Hl, Hm. subst ready skipped. exact Hlen.
Defined.

End MoreRuns.
